(** * Speech portfolio: segmentation, feature extraction and aggregation

    A shallow embedding of [python_services/audio_processor.py],
    [python_services/cnn_analysis_service.py] and
    [python_services/flutter_cnn_service.py].

    Conventions of the embedding:
    - Python [int] is [Z]; a Python [float] is a rational [Q], and
      float literals such as [0.8], [0.3] and [5.0] are the rationals
      [8/10], [3/10] and [5]; [int(x)] is truncation toward zero.
      Comparisons (the one with [segment_duration_ms * 0.8]
      included), sums, quotients and the products of the five-second
      stamps are exact. The float products and the difference that the
      code truncates with [int] to get the segment length, the minimum,
      the step and the probability are rounded to binary64 ([Float]):
      there the rounding changes the integer (an overlap of 0.9 gives a
      step of 299 ms, not 300). Infinities and NaN are not modelled;
    - a [pydub.AudioSegment] is the list of its one-millisecond frames,
      so [len(audio)] is the length of the list;
    - a 2-D [numpy] array is a list of rows;
    - a raising call returns [Raise e]; [try]/[except] is a [match];
    - the libraries the code calls for I/O and signal processing
      (pydub's decoder, librosa, matplotlib, the classifier) are fields
      of an environment record [env]. *)

From Stdlib Require Import String DecimalString ZArith QArith Qround Qpower
  List Bool Lia Sorted.
Import ListNotations.
Open Scope Z_scope.

(** ** Python values, exceptions and built-ins *)
Module Py.

Inductive exn_class :=
| ValueError | RuntimeError | ZeroDivisionError | FileNotFoundError
| PermissionError | OSError | IndexError | OtherException
| MemoryError | KeyboardInterrupt.

(** An exception instance; [exn_msg] is what [str(e)] returns. *)
Record exn := mk_exn { exn_cls : exn_class; exn_msg : string }.

(** [except Exception] catches every class but [KeyboardInterrupt]
    ([MemoryError] derives from [Exception]). *)
Definition is_Exception (e : exn) : bool :=
  match exn_cls e with
  | KeyboardInterrupt => false
  | _ => true
  end.

Definition is_MemoryError (e : exn) : bool :=
  match exn_cls e with
  | MemoryError => true
  | _ => false
  end.

Inductive result (A : Type) : Type :=
| Ok (a : A)
| Raise (e : exn).
Arguments Ok {A} a.
Arguments Raise {A} e.

Definition bind {A B} (r : result A) (k : A -> result B) : result B :=
  match r with
  | Ok a => k a
  | Raise e => Raise e
  end.

Definition raise {A} (c : exn_class) (msg : string) : result A :=
  Raise (mk_exn c msg).

(** [int(x)] on a float: truncation toward zero. *)
Definition int (x : Q) : Z := Z.quot (Qnum x) (Zpos (Qden x)).

(** [round(x)]: to the nearest integer, ties to the even one. *)
Definition round (x : Q) : Z :=
  let f := Qfloor x in
  match Qcompare (x - inject_Z f) (1 # 2) with
  | Lt => f
  | Gt => f + 1
  | Eq => if Z.even f then f else f + 1
  end.

(** [str(n)] on an int. *)
Definition str (n : Z) : string := NilZero.string_of_int (Z.to_int n).

(** [range(n)]. *)
Definition range (n : Z) : list Z := map Z.of_nat (seq 0 (Z.to_nat n)).

Definition Qltb (x y : Q) : bool := negb (Qle_bool y x).

End Py.

Import Py.
Notation "x <- r ;; k" := (Py.bind r (fun x => k))
  (at level 61, r at next level, right associativity).

(** ** Float arithmetic, rounded

    IEEE 754 binary64 with rounding to nearest, ties to even, on the
    finite values: 53 significant bits and no bit below [2^-1074].
    A rational argument stands for the double nearest to it, as a
    decimal literal does: every operation rounds its operands first,
    which changes nothing when they are doubles already, and an [int]
    operand is converted the same way. *)
Module Float.

Definition pow2 (k : Z) : Q := (2 ^ k)%Q.

(** [floor(log2 x)] for a positive [x]. *)
Definition ilog2 (x : Q) : Z :=
  let e := Z.log2 (Qnum x) - Z.log2 (Zpos (Qden x)) in
  if Qle_bool (pow2 e) x then e else e - 1.

(** The exponent of the last bit of a positive [x]. *)
Definition exponent (x : Q) : Z := Z.max (ilog2 x - 52) (- 1074).

Definition round_positive (x : Q) : Q :=
  (inject_Z (Py.round (x / pow2 (exponent x))) * pow2 (exponent x))%Q.

(** The double nearest to [x]. *)
Definition round (x : Q) : Q :=
  match Qnum x with
  | Z0 => 0%Q
  | Zpos _ => round_positive x
  | Zneg _ => (- round_positive (- x))%Q
  end.

(** [x * y] and [x - y] on floats. *)
Definition mul (x y : Q) : Q := round (round x * round y).

Definition sub (x y : Q) : Q := round (round x - round y).

End Float.

(** ** pydub.AudioSegment, by the millisecond *)
Module Pydub.

Inductive frame := Sample (amplitude : Z) | Silence.

Definition AudioSegment := list frame.

Definition len (a : AudioSegment) : Z := Z.of_nat (length a).

(** [AudioSegment.silent(duration=d)]. *)
Definition silent (duration : Z) : AudioSegment :=
  repeat Silence (Z.to_nat duration).

(** [audio[start:stop]] for non-negative bounds; both are clamped to
    the length of the audio. *)
Definition slice (a : AudioSegment) (start stop : Z) : AudioSegment :=
  skipn (Z.to_nat start) (firstn (Z.to_nat stop) a).

End Pydub.

Import Pydub.

(** ** 2-D arrays *)
Definition matrix := list (list Q).

Definition shape (m : matrix) : Z * Z :=
  (Z.of_nat (length m), Z.of_nat (length (hd [] m))).

(** [m.size]. *)
Definition size (m : matrix) : Z := fst (shape m) * snd (shape m).

(** All rows have the same length: what a 2-D numpy array is. *)
Definition rect (h w : nat) (m : matrix) : Prop :=
  length m = h /\ Forall (fun r => length r = w) m.

(** ** The environment: external collaborators *)
Module Ext.

Record env := {
  path_exists : string -> bool;                       (* os.path.exists *)
  readable : string -> bool;                          (* os.access(_, R_OK) *)
  from_file : string -> result AudioSegment;          (* AudioSegment.from_file *)
  slicing : Z -> result unit;                         (* what cutting and padding window i raises, if anything (out of memory) *)
  export : AudioSegment -> string -> result unit;     (* segment.export(path, format="wav") *)
  librosa_load : string -> Q -> result (list Q);      (* librosa.load(path, sr=22050, duration=_) *)
  preemphasis : list Q -> result (list Q);            (* librosa.effects.preemphasis *)
  melspectrogram : list Q -> result matrix;           (* librosa.feature.melspectrogram *)
  power_to_db : matrix -> result matrix;              (* librosa.power_to_db *)
  save_spectrogram_as_image : matrix -> string -> result unit;
  mkdtemp : result string;                            (* tempfile.mkdtemp *)
  makedirs : string -> result unit;                   (* os.makedirs(_, exist_ok=True) *)
  tflite_available : bool;                            (* TFLITE_AVAILABLE *)
  load_tflite : string -> result unit;                (* tflite.Interpreter, allocate_tensors *)
  load_keras : string -> result unit;                 (* keras load_model *)
  class_names : string -> list string;                (* CNNModelPredictor._load_class_names *)
  model_predict : string -> result (list (list Q));   (* load_img, preprocess and run the model *)
  dirname : string -> string                          (* os.path.dirname *)
}.

End Ext.

Import Ext.

(** What the feature extraction takes for granted of librosa on a
    signal: pre-emphasis, when it works, keeps the number of samples and
    is not where the user interrupts; the mel spectrogram of a signal
    that is not empty is a 2-D array that is not empty; the conversion
    to decibels keeps the shape. *)
Record librosa_contract (E : env) : Prop := {
  preemphasis_length :
    forall y y', preemphasis E y = Ok y' -> length y' = length y;
  preemphasis_raises_exceptions :
    forall y e, preemphasis E y = Raise e -> is_Exception e = true;
  melspectrogram_shape :
    forall y, y <> [] ->
    exists mel h w, melspectrogram E y = Ok mel /\ rect (S h) (S w) mel;
  power_to_db_shape :
    forall m h w, rect h w m ->
    exists db, power_to_db E m = Ok db /\ rect h w db
}.

(** ** scipy.ndimage.zoom with [order=1]

    The library routine the resize step calls, after its documentation:
    the output shape is the rounded product of the input shape and the
    zoom factors; output index [i] along an axis of [n_in] points zoomed
    to [n_out] points reads the input at coordinate
    [i * (n_in - 1) / (n_out - 1)] (factor 1 when [n_out = 1]); the value
    is the bilinear blend of the four neighbours, and a neighbour outside
    the array counts as the constant 0. *)
Module Scipy.

Definition coord (n_in n_out i : Z) : Q :=
  let z := if n_out - 1 =? 0 then 1%Q
           else (inject_Z (n_in - 1) / inject_Z (n_out - 1))%Q in
  (inject_Z i * z)%Q.

Definition at2 (m : matrix) (r c : Z) : Q :=
  nth (Z.to_nat c) (nth (Z.to_nat r) m []) 0%Q.

Definition zoom_pixel (m : matrix) (h w oh ow i j : Z) : Q :=
  let ci := coord h oh i in
  let cj := coord w ow j in
  let fi := Qfloor ci in
  let fj := Qfloor cj in
  let ti := (ci - inject_Z fi)%Q in
  let tj := (cj - inject_Z fj)%Q in
  ((1 - ti) * (1 - tj) * at2 m fi fj
   + (1 - ti) * tj * at2 m fi (fj + 1)
   + ti * (1 - tj) * at2 m (fi + 1) fj
   + ti * tj * at2 m (fi + 1) (fj + 1))%Q.

Definition zoom (m : matrix) (zoom_h zoom_w : Q) : matrix :=
  let '(h, w) := shape m in
  let oh := Py.round (inject_Z h * zoom_h) in
  let ow := Py.round (inject_Z w * zoom_w) in
  map (fun i => map (fun j => zoom_pixel m h w oh ow i j) (range ow))
      (range oh).

End Scipy.

(** ** AudioProcessor *)
Module AudioProcessor.

Record t := {
  segment_duration : Q;          (* seconds *)
  target_size : Z * Z;
  overlap_ratio : Q;
  min_segment_duration : Q;      (* seconds *)
  temp_dir : option string
}.

(** [AudioProcessor.__init__]: the parameter checks. *)
Definition init (segment_duration : Q) (target_size : Z * Z)
    (overlap_ratio min_segment_duration : Q) : result t :=
  if Qle_bool segment_duration 0 then
    raise ValueError "segment_duration must be positive"
  else if (fst target_size <=? 0) || (snd target_size <=? 0) then
    raise ValueError "target_size values must be positive integers"
  else if negb (Qle_bool 0 overlap_ratio && Qltb overlap_ratio 1) then
    raise ValueError "overlap_ratio must be in [0, 1)"
  else if Qle_bool min_segment_duration 0 then
    raise ValueError "min_segment_duration must be positive"
  else if Qltb segment_duration min_segment_duration then
    raise ValueError "min_segment_duration cannot exceed segment_duration"
  else
    Ok {| segment_duration := segment_duration;
          target_size := target_size;
          overlap_ratio := overlap_ratio;
          min_segment_duration := min_segment_duration;
          temp_dir := None |}.

(** [AudioProcessor()]: the defaults of the constructor. *)
Definition default : t :=
  {| segment_duration := 3;
     target_size := (128, 128);
     overlap_ratio := 1 # 2;
     min_segment_duration := 1;
     temp_dir := None |}.

(** [__enter__]. *)
Definition enter (E : env) (p : t) : result t :=
  d <- mkdtemp E ;;
  Ok {| segment_duration := segment_duration p;
        target_size := target_size p;
        overlap_ratio := overlap_ratio p;
        min_segment_duration := min_segment_duration p;
        temp_dir := Some d |}.

(** [resized[:H, :W]]. *)
Definition crop (m : matrix) (H W : Z) : matrix :=
  map (firstn (Z.to_nat W)) (firstn (Z.to_nat H) m).

Definition resize_spectrogram (spectrogram : matrix) (target_size : Z * Z)
    : result matrix :=
  if size spectrogram =? 0 then
    raise ValueError "spectrogram cannot be empty"
  else
    let '(current_height, current_width) := shape spectrogram in
    if (current_height <=? 0) || (current_width <=? 0) then
      raise ValueError "Invalid spectrogram dimensions"
    else
      let height_scale :=
        (inject_Z (fst target_size) / inject_Z current_height)%Q in
      let width_scale :=
        (inject_Z (snd target_size) / inject_Z current_width)%Q in
      if Qle_bool height_scale 0 || Qle_bool width_scale 0 then
        raise ValueError "Invalid scaling factors"
      else
        let resized_spectrogram :=
          Scipy.zoom spectrogram height_scale width_scale in
        Ok (crop resized_spectrogram (fst target_size) (snd target_size)).

Definition generate_mel_spectrogram (E : env) (p : t) (audio_path : string)
    (target_size_arg : option (Z * Z)) : result matrix :=
  if String.eqb audio_path "" then
    raise ValueError "Invalid audio_path"
  else if negb (path_exists E audio_path) then
    raise FileNotFoundError ("Audio file not found: " ++ audio_path)
  else
    let target_size :=
      match target_size_arg with
      | None => target_size p
      | Some ts => ts
      end in
    y <- librosa_load E audio_path (segment_duration p) ;;
    if (Z.of_nat (length y) =? 0) then
      raise ValueError ("Empty or invalid audio data in " ++ audio_path)
    else
      y1 <- match preemphasis E y with
            | Ok y' => Ok y'
            | Raise e => if is_Exception e then Ok y else Raise e
            end ;;
      mel_spectrogram <- melspectrogram E y1 ;;
      if size mel_spectrogram =? 0 then
        raise ValueError ("Invalid spectrogram generated for " ++ audio_path)
      else
        mel_spectrogram_db <- power_to_db E mel_spectrogram ;;
        resize_spectrogram mel_spectrogram_db target_size.

(** The three lengths in milliseconds, as the float arithmetic of
    [segment_audio_file] gives them. *)
Definition segment_duration_ms (p : t) : Z :=
  Py.int (Float.mul (segment_duration p) 1000).

Definition min_segment_duration_ms (p : t) : Z :=
  Py.int (Float.mul (min_segment_duration p) 1000).

Definition step_size_ms (p : t) : Z :=
  Py.int (Float.mul (inject_Z (segment_duration_ms p))
                    (Float.sub 1 (overlap_ratio p))).

(** One window of the segmentation loop: its bounds, the slice
    [audio[start_ms:end_ms]] and the segment that is exported. *)
Record window := {
  index : Z;                (* the loop variable [i], 0-based *)
  start_ms : Z;
  end_ms : Z;
  natural : AudioSegment;   (* the slice, before padding *)
  segment : AudioSegment    (* after the padding rules *)
}.

(** The padding rules of the loop body. *)
Definition pad_segment (p : t) (segment : AudioSegment) : AudioSegment :=
  if len segment <? min_segment_duration_ms p then
    let silence_needed := min_segment_duration_ms p - len segment in
    segment ++ silent silence_needed
  else if len segment <? segment_duration_ms p then
    if Qle_bool (inject_Z (segment_duration_ms p) * (8 # 10))
                (inject_Z (len segment)) then
      let silence_needed := segment_duration_ms p - len segment in
      segment ++ silent silence_needed
    else segment
  else segment.

Definition make_window (p : t) (audio : AudioSegment) (duration_ms i : Z)
    : window :=
  let start_ms := i * step_size_ms p in
  let end_ms := Z.min (start_ms + segment_duration_ms p) duration_ms in
  let segment := slice audio start_ms end_ms in
  {| index := i; start_ms := start_ms; end_ms := end_ms;
     natural := segment; segment := pad_segment p segment |}.

(** The windows the loop of [segment_audio_file] goes through, for an
    audio that is already loaded: the short-clip padding, the number of
    segments and one [window] per value of [range(num_segments)]. *)
Definition windows (p : t) (audio : AudioSegment) : result (list window) :=
  let duration_ms := len audio in
  if duration_ms <=? segment_duration_ms p then
    let audio' :=
      if duration_ms <? min_segment_duration_ms p then
        audio ++ silent (min_segment_duration_ms p - duration_ms)
      else audio in
    let num_segments := 1 in
    Ok (map (make_window p audio' (len audio')) (range num_segments))
  else if step_size_ms p =? 0 then
    raise ZeroDivisionError "division by zero"
  else
    let num_segments :=
      Z.max 1 (Py.int (inject_Z (duration_ms - segment_duration_ms p)
                       / inject_Z (step_size_ms p)) + 1) in
    Ok (map (make_window p audio duration_ms) (range num_segments)).

Definition segment_path (dir : string) (i : Z) : string :=
  dir ++ "/segment_" ++ Py.str (i + 1) ++ ".wav".

Definition spectrogram_path (dir : string) (i : Z) : string :=
  dir ++ "/spectrogram_" ++ Py.str (i + 1) ++ ".png".

(** [except Exception: continue] around one step of the loop body:
    [Ok None] stands for [continue]; only an interrupt goes on up. *)
Definition or_continue {A} (r : result A) (k : A -> result (option string))
    : result (option string) :=
  match r with
  | Ok a => k a
  | Raise e => if is_Exception e then Ok None else Raise e
  end.

(** What the loop body does with a segment once it is padded: export,
    spectrogram, image. [Ok (Some path)] is the path appended to
    [spectrogram_paths]. *)
Definition feature_steps (E : env) (p : t) (dir : string) (i : Z)
    (segment : AudioSegment) : result (option string) :=
  or_continue (export E segment (segment_path dir i)) (fun _ =>
  or_continue (generate_mel_spectrogram E p (segment_path dir i) None)
    (fun spectrogram =>
  or_continue
    (save_spectrogram_as_image E spectrogram (spectrogram_path dir i))
    (fun _ => Ok (Some (spectrogram_path dir i))))).

(** The handlers of the [try] around the whole loop body: a
    [MemoryError] is raised again, any other [Exception] skips the
    window, and what is no [Exception] (an interruption by the user)
    goes on up. *)
Definition or_skip (r : result (option string)) : result (option string) :=
  match r with
  | Ok a => Ok a
  | Raise e =>
      if is_MemoryError e then Raise e
      else if is_Exception e then Ok None
      else Raise e
  end.

(** The loop body on one window: once the segment is cut and padded,
    it goes through the three steps whatever its length. *)
Definition process_window (E : env) (p : t) (dir : string) (w : window)
    : result (option string) :=
  or_skip (_ <- slicing E (index w) ;;
           feature_steps E p dir (index w) (segment w)).

Fixpoint segment_loop (E : env) (p : t) (dir : string) (ws : list window)
    (spectrogram_paths : list string) : result (list string) :=
  match ws with
  | [] => Ok spectrogram_paths
  | w :: ws' =>
      r <- process_window E p dir w ;;
      match r with
      | Some path => segment_loop E p dir ws' (spectrogram_paths ++ [path])
      | None => segment_loop E p dir ws' spectrogram_paths
      end
  end.

Definition segment_audio_file (E : env) (p : t) (input_file : string)
    : result (list string) :=
  if String.eqb input_file "" then
    raise ValueError "Invalid input_file"
  else if negb (path_exists E input_file) then
    raise FileNotFoundError ("Input file not found: " ++ input_file)
  else if negb (readable E input_file) then
    raise PermissionError ("Cannot read input file: " ++ input_file)
  else
    match temp_dir p with
    | None =>
        raise RuntimeError
          "temp_dir not initialized. Use AudioProcessor as context manager."
    | Some dir =>
        audio <- from_file E input_file ;;
        if len audio =? 0 then
          raise ValueError ("Audio file is empty: " ++ input_file)
        else
          ws <- windows p audio ;;
          spectrogram_paths <- segment_loop E p dir ws [] ;;
          match spectrogram_paths with
          | [] => raise RuntimeError
                    "No spectrograms were successfully generated"
          | _ => Ok spectrogram_paths
          end
    end.

End AudioProcessor.

(** ** Python dicts with string keys

    Insertion-ordered: assigning to a key that is present keeps its
    place, a new key goes last. *)
Module Dict.

Definition t (V : Type) := list (string * V).

Fixpoint set {V} (k : string) (v : V) (d : t V) : t V :=
  match d with
  | [] => [(k, v)]
  | (k', v') :: d' =>
      if String.eqb k k' then (k, v) :: d' else (k', v') :: set k v d'
  end.

Fixpoint get {V} (k : string) (d : t V) : option V :=
  match d with
  | [] => None
  | (k', v') :: d' => if String.eqb k k' then Some v' else get k d'
  end.

(** [d.get(k, default)]. *)
Definition get_or {V} (k : string) (default : V) (d : t V) : V :=
  match get k d with
  | Some v => v
  | None => default
  end.

Definition keys {V} (d : t V) : list string := map fst d.

Fixpoint max_from {V} (ltb : V -> V -> bool) (best : string * V) (d : t V)
    : string :=
  match d with
  | [] => fst best
  | (k, v) :: d' =>
      if ltb (snd best) v then max_from ltb (k, v) d'
      else max_from ltb best d'
  end.

(** [max(d, key=d.get)]: the first key, in iteration order, whose
    value is the largest; raises on the empty dict. *)
Definition max_key {V} (ltb : V -> V -> bool) (d : t V) : result string :=
  match d with
  | [] => raise ValueError "max() arg is an empty sequence"
  | kv :: d' => Ok (max_from ltb kv d')
  end.

End Dict.

(** ** CNNModelPredictor *)
Module CNNModelPredictor.

Record t := {
  model_path : string;
  class_names : list string;
  model : bool;             (* [self.model is not None] *)
  interpreter : bool;       (* [self.interpreter is not None] *)
  use_tflite : bool
}.

(** [__init__]: [class_names or self._load_class_names()]. *)
Definition init (E : env) (model_path : string)
    (class_names_arg : list string) : t :=
  {| model_path := model_path;
     class_names :=
       match class_names_arg with
       | [] => Ext.class_names E model_path
       | _ => class_names_arg
       end;
     model := false;
     interpreter := false;
     use_tflite := false |}.

(** [s.endswith(suffix)]. *)
Definition endswith (s suffix : string) : bool :=
  let n := String.length s in
  let k := String.length suffix in
  (k <=? n)%nat && String.eqb (substring (n - k) k s) suffix.

(** [load_model]: the interpreter for a [.tflite] path when TensorFlow
    Lite is there, the Keras loader for every other path. *)
Definition load_model (E : env) (m : t) : result t :=
  if String.eqb (model_path m) "" then
    raise ValueError "Invalid model_path"
  else if negb (path_exists E (model_path m)) then
    raise FileNotFoundError ("Model file not found: " ++ model_path m)
  else if negb (readable E (model_path m)) then
    raise PermissionError ("Cannot read model file: " ++ model_path m)
  else if endswith (model_path m) ".tflite" && tflite_available E then
    _ <- load_tflite E (model_path m) ;;
    Ok {| model_path := model_path m;
          class_names := class_names m;
          model := model m;
          interpreter := true;
          use_tflite := true |}
  else
    _ <- load_keras E (model_path m) ;;
    Ok {| model_path := model_path m;
          class_names := class_names m;
          model := true;
          interpreter := interpreter m;
          use_tflite := false |}.

(** The first check of [predict_image]: the backend in use is set. *)
Definition backend_ready (m : t) : result unit :=
  if use_tflite m then
    if interpreter m then Ok tt
    else raise RuntimeError "TFLite model not loaded. Call load_model() first."
  else
    if model m then Ok tt
    else raise RuntimeError "Keras model not loaded. Call load_model() first.".

Inductive log_record :=
| PredictionLengthMismatch (prediction_length class_count : nat).

(** The loop [for i, class_name in enumerate(self.class_names)]. *)
Fixpoint fill_result (i : nat) (names : list string) (p0 : list Q)
    (result : Dict.t Q) : Dict.t Q :=
  match names with
  | [] => result
  | class_name :: names' =>
      let v := if (i <? length p0)%nat then nth i p0 0%Q else 0%Q in
      fill_result (S i) names' p0 (Dict.set class_name v result)
  end.

(** [predict_image]: the warnings it logs and what it returns. *)
Definition predict_image (E : env) (m : t) (image_path : string)
    : list log_record * result (Dict.t Q) :=
  match backend_ready m with
  | Raise e => ([], Raise e)
  | Ok _ =>
  if String.eqb image_path "" then
    ([], raise ValueError "Invalid image_path")
  else if negb (path_exists E image_path) then
    ([], raise FileNotFoundError ("Image file not found: " ++ image_path))
  else if negb (readable E image_path) then
    ([], raise PermissionError ("Cannot read image file: " ++ image_path))
  else
    match model_predict E image_path with
    | Raise e => ([], Raise e)
    | Ok predictions =>
        match predictions with
        | [] => ([], raise ValueError
                       ("Invalid predictions from model for " ++ image_path))
        | p0 :: _ =>
            if (length p0 =? 0)%nat then
              ([], raise ValueError
                     ("Invalid predictions from model for " ++ image_path))
            else
              let log :=
                if negb (length p0 =? length (class_names m))%nat then
                  [PredictionLengthMismatch (length p0)
                                            (length (class_names m))]
                else [] in
              (log, Ok (fill_result 0 (class_names m) p0 []))
        end
    end
  end.

(** One entry of the list [predict_spectrograms] returns: a dict whose
    keys depend on the outcome, so the optional ones are options. *)
Record segment_result := {
  segment_index : Z;
  image_path : string;
  predictions : option (Dict.t Q);
  predicted_class : option string;
  confidence : option Q;
  error : option string;
  timestamp_start : Q;
  timestamp_end : Q
}.

(** The same entry with another value under ['confidence']. *)
Definition with_confidence (c : Q) (r : segment_result) : segment_result :=
  {| segment_index := segment_index r;
     image_path := image_path r;
     predictions := predictions r;
     predicted_class := predicted_class r;
     confidence := Some c;
     error := error r;
     timestamp_start := timestamp_start r;
     timestamp_end := timestamp_end r |}.

(** The [try] block of the loop body, for the path at 0-based
    position [i]. *)
Definition predict_one (E : env) (m : t) (i : Z) (path : string)
    : result segment_result :=
  predictions <- snd (predict_image E m path) ;;
  predicted_class <- Dict.max_key Qltb predictions ;;
  let confidence := Dict.get predicted_class predictions in
  Ok {| segment_index := i + 1;
        image_path := path;
        predictions := Some predictions;
        predicted_class := Some predicted_class;
        confidence := confidence;
        error := None;
        timestamp_start := inject_Z i * 5;
        timestamp_end := (inject_Z i + 1) * 5 |}.

(** The [except Exception] entry. *)
Definition error_result (i : Z) (path : string) (e : exn) : segment_result :=
  {| segment_index := i + 1;
     image_path := path;
     predictions := None;
     predicted_class := None;
     confidence := None;
     error := Some (exn_msg e);
     timestamp_start := inject_Z i * 5;
     timestamp_end := (inject_Z i + 1) * 5 |}.

(** The entry the loop appends for the path at position [i]. *)
Definition entry (E : env) (m : t) (i : Z) (path : string)
    : segment_result :=
  match predict_one E m i path with
  | Ok r => r
  | Raise e => error_result i path e
  end.

Fixpoint predict_loop (E : env) (m : t) (i : Z) (paths : list string)
    (results : list segment_result) : result (list segment_result) :=
  match paths with
  | [] => Ok results
  | path :: paths' =>
      match predict_one E m i path with
      | Ok r => predict_loop E m (i + 1) paths' (results ++ [r])
      | Raise e =>
          if is_Exception e then
            predict_loop E m (i + 1) paths'
                         (results ++ [error_result i path e])
          else Raise e
      end
  end.

Definition predict_spectrograms (E : env) (m : t)
    (spectrogram_paths : list string) : result (list segment_result) :=
  predict_loop E m 0 spectrogram_paths [].

End CNNModelPredictor.

(** ** process_audio_file *)
Module Processing.

Import CNNModelPredictor.

(** The dict under ['summary'] once it is filled. *)
Record summary := {
  total_segments : Z;
  successful_predictions : Z;
  class_distribution : Dict.t Z;
  average_confidence : Q;
  dominant_class : option string
}.

(** The dict [results]. ['summary'] starts as the empty dict [{}],
    which is [None] here. *)
Record report := {
  input_file : string;
  model_path : string;
  output_dir : string;
  segments : list segment_result;
  summary_of : option summary;
  errors : list string
}.

(** The same dict with another list under ['segments']. *)
Definition with_segments (segs : list segment_result) (r : report)
    : report :=
  {| input_file := input_file r; model_path := model_path r;
     output_dir := output_dir r; segments := segs;
     summary_of := summary_of r; errors := errors r |}.

Definition add_error (r : report) (msg : string) : report :=
  {| input_file := input_file r; model_path := model_path r;
     output_dir := output_dir r; segments := segments r;
     summary_of := summary_of r; errors := errors r ++ [msg] |}.

Definition has_error (p : segment_result) : bool :=
  match error p with
  | Some _ => true
  | None => false
  end.

(** [[p for p in predictions if 'error' not in p]]. *)
Definition successful (predictions : list segment_result)
    : list segment_result :=
  filter (fun p => negb (has_error p)) predictions.

Definition get_predicted_class (default : string) (p : segment_result)
    : string :=
  match predicted_class p with
  | Some c => c
  | None => default
  end.

Definition get_confidence (p : segment_result) : Q :=
  match confidence p with
  | Some c => c
  | None => 0%Q
  end.

(** The loop over [successful_predictions]. *)
Fixpoint tally (ps : list segment_result) (class_counts : Dict.t Z)
    (total_confidence : Q) : Dict.t Z * Q :=
  match ps with
  | [] => (class_counts, total_confidence)
  | pred :: ps' =>
      let class_name := get_predicted_class "unknown" pred in
      let confidence := get_confidence pred in
      tally ps'
            (Dict.set class_name (Dict.get_or class_name 0 class_counts + 1)
                      class_counts)
            (total_confidence + confidence)%Q
  end.

Definition summarize (predictions : list segment_result) : summary :=
  let successful_predictions := successful predictions in
  match successful_predictions with
  | [] =>
      {| total_segments := Z.of_nat (length predictions);
         successful_predictions := 0;
         class_distribution := [];
         average_confidence := 0;
         dominant_class := None |}
  | _ =>
      let '(class_counts, total_confidence) :=
        tally successful_predictions [] 0%Q in
      {| total_segments := Z.of_nat (length predictions);
         successful_predictions :=
           Z.of_nat (length successful_predictions);
         class_distribution := class_counts;
         average_confidence :=
           (total_confidence
            / inject_Z (Z.of_nat (length successful_predictions)))%Q;
         dominant_class :=
           match Dict.max_key Z.ltb class_counts with
           | Ok k => Some k
           | Raise _ => None
           end |}
  end.

Definition zero_summary : summary :=
  {| total_segments := 0;
     successful_predictions := 0;
     class_distribution := [];
     average_confidence := 0;
     dominant_class := None |}.

(** [try: step except Exception as e: errors.append(prefix + str(e));
    return results]: an [Exception] ends the run with the report so far
    and one more error entry; anything else leaves the block. *)
Definition guarded {A} (results : report) (prefix : string) (step : result A)
    (k : A -> result report) : result report :=
  match step with
  | Ok a => k a
  | Raise e =>
      if is_Exception e
      then Ok (add_error results (prefix ++ exn_msg e))
      else Raise e
  end.

(** The body of the outer [try]: [Raise e] is an exception that leaves
    the [with] block. No field of [results] has been assigned at any
    point where that can happen. *)
Definition run (E : env) (results : report) : result report :=
  processor <- AudioProcessor.enter E AudioProcessor.default ;;
  guarded results "Segmentation error: "
    (AudioProcessor.segment_audio_file E processor (input_file results))
    (fun spectrogram_paths =>
  match spectrogram_paths with
  | [] =>
      Ok {| input_file := input_file results;
            model_path := model_path results;
            output_dir := output_dir results;
            segments := segments results;
            summary_of := Some zero_summary;
            errors := errors results ++ ["No spectrograms generated"%string] |}
  | _ =>
      guarded results "Model loading error: "
        (CNNModelPredictor.load_model E
           (CNNModelPredictor.init E (model_path results) []))
        (fun predictor =>
      guarded results "Prediction error: "
        (predict_spectrograms E predictor spectrogram_paths)
        (fun predictions =>
      Ok {| input_file := input_file results;
            model_path := model_path results;
            output_dir := output_dir results;
            segments := predictions;
            summary_of := Some (summarize predictions);
            errors := errors results |}))
  end).

(** [output_dir], or the directory of the input when it is [None]. *)
Definition default_output_dir (E : env) (input_file : string)
    (output_dir_arg : option string) : string :=
  match output_dir_arg with
  | None => dirname E input_file
  | Some d => d
  end.

(** [if output_dir: os.makedirs(output_dir, exist_ok=True)]; a
    failure is logged and raised again. *)
Definition ensure_dir (E : env) (output_dir : string) : result unit :=
  if String.eqb output_dir "" then Ok tt else makedirs E output_dir.

Definition process_audio_file (E : env) (input_file model_path : string)
    (output_dir_arg : option string) : result report :=
  if String.eqb input_file "" then
    raise ValueError "Invalid input_file"
  else if String.eqb model_path "" then
    raise ValueError "Invalid model_path"
  else
    let output_dir := default_output_dir E input_file output_dir_arg in
    _ <- ensure_dir E output_dir ;;
    let results :=
      {| input_file := input_file; model_path := model_path;
         output_dir := output_dir; segments := []; summary_of := None;
         errors := [] |} in
    match run E results with
    | Ok r => Ok r
    | Raise e =>
        if negb (is_Exception e) then Raise e       (* KeyboardInterrupt *)
        else if is_MemoryError e then Raise e
        else Ok (add_error results (exn_msg e))
    end.

End Processing.

(** ** CNNAnalysisService: the coarse mode *)
Module CNNAnalysisService.

Import CNNModelPredictor Processing.

Record event := {
  type : string;
  event_confidence : Q;
  probability : Z;
  seconds : Z;
  t0 : Z;
  t1 : Z;
  source : string;
  model_version : string
}.

Record processing_details := {
  segmentsAnalyzed : Z;
  disfluencySegments : Z;
  segmentDuration : string;
  modelType : string
}.

Record flutter_summary := {
  segmentCount : Z;
  totalSegments : Z;
  successfulPredictions : Z;
  averageConfidence : Q;
  dominantType : option string;
  classDistribution : Dict.t Z;
  hasEvents : bool;
  processingDetails : processing_details
}.

Record processing_info := {
  info_model_path : option string;
  info_input_file : string;
  processing_time : string;
  info_errors : list string
}.

Record flutter_report := {
  events : list event;
  summary : flutter_summary;
  info : processing_info
}.

(** One pass of the loop over [results['segments']]: the event the
    segment contributes, or [None] where the body hits [continue]. *)
Definition segment_event (segment : segment_result) : option event :=
  if has_error segment then None
  else
    let predicted_class := get_predicted_class "none" segment in
    let confidence := get_confidence segment in
    if String.eqb predicted_class "none" || Qltb confidence (3 # 10) then
      None
    else
      Some {| type := predicted_class;
              event_confidence := confidence;
              probability := Py.int (Float.mul confidence 100);
              seconds := Py.int (timestamp_start segment);
              t0 := Py.int (timestamp_start segment * 1000);
              t1 := Py.int (timestamp_end segment * 1000);
              source := "cnn_model";
              model_version := "h5_v1" |}.

Fixpoint format_events (segments : list segment_result) : list event :=
  match segments with
  | [] => []
  | segment :: rest =>
      match segment_event segment with
      | Some event => event :: format_events rest
      | None => format_events rest
      end
  end.

(** [results['summary'].get(key, default)]. *)
Definition summary_get {A} (s : option Processing.summary)
    (field : Processing.summary -> A) (default : A) : A :=
  match s with
  | Some d => field d
  | None => default
  end.

Definition _format_results_for_flutter (self_model_path : option string)
    (results : report) : flutter_report :=
  let events := format_events (segments results) in
  let total_segments := summary_get (summary_of results) total_segments 0 in
  let successful_predictions :=
    summary_get (summary_of results) successful_predictions 0 in
  {| events := events;
     summary :=
       {| segmentCount := Z.of_nat (length events);
          totalSegments := total_segments;
          successfulPredictions := successful_predictions;
          averageConfidence :=
            summary_get (summary_of results) average_confidence 0%Q;
          dominantType :=
            summary_get (summary_of results) dominant_class (Some "none"%string);
          classDistribution :=
            summary_get (summary_of results) class_distribution [];
          hasEvents := (0 <? length events)%nat;
          processingDetails :=
            {| segmentsAnalyzed := successful_predictions;
               disfluencySegments := Z.of_nat (length events);
               segmentDuration := "5.0 seconds";
               modelType := "H5 CNN" |} |};
     info :=
       {| info_model_path := self_model_path;
          info_input_file := input_file results;
          processing_time := "unknown";
          info_errors := errors results |} |}.

(** [analyze_audio_file]: the coarse pipeline end to end. *)
Definition analyze_audio_file (E : env) (self_model_path self_temp_dir : option string)
    (audio_file_path : string) (output_dir : option string)
    : result flutter_report :=
  if String.eqb audio_file_path "" then
    raise ValueError "Invalid audio_file_path"
  else if negb (path_exists E audio_file_path) then
    raise FileNotFoundError ("Audio file not found: " ++ audio_file_path)
  else if negb (readable E audio_file_path) then
    raise PermissionError ("Cannot read audio file: " ++ audio_file_path)
  else
    match self_model_path with
    | None => raise ValueError "Model path not set. Cannot perform analysis."
    | Some model_path =>
        if String.eqb model_path "" then
          raise ValueError "Model path not set. Cannot perform analysis."
        else if negb (path_exists E model_path) then
          raise FileNotFoundError ("CNN model not found: " ++ model_path)
        else if negb (readable E model_path) then
          raise PermissionError ("Cannot read model file: " ++ model_path)
        else
          let output_dir :=
            match output_dir with
            | None => self_temp_dir
            | Some d => Some d
            end in
          results <- process_audio_file E audio_file_path model_path
                                        output_dir ;;
          Ok (_format_results_for_flutter self_model_path results)
    end.

End CNNAnalysisService.

(** ** Concrete runs

    A small environment to run the pipeline on: every file exists and is
    readable, the decoder returns [clip], the signal-processing stubs
    return a 3x5 array, and the classifier returns [scores path]. *)
Module Scenario.

Definition clip_of (duration_ms : Z) : AudioSegment :=
  repeat (Sample 1) (Z.to_nat duration_ms).

Definition studio (clip : result AudioSegment)
    (scores : string -> result (list (list Q))) : env :=
  {| path_exists := fun _ => true;
     readable := fun _ => true;
     from_file := fun _ => clip;
     slicing := fun _ => Ok tt;
     export := fun _ _ => Ok tt;
     librosa_load := fun _ _ => Ok [1; 0; -1; 0]%Q;
     preemphasis := fun y => Ok y;
     melspectrogram :=
       fun _ => Ok [[1; 2; 3; 4; 5]; [2; 3; 4; 5; 6]; [0; 1; 0; 1; 0]]%Q;
     power_to_db := fun m => Ok m;
     save_spectrogram_as_image := fun _ _ => Ok tt;
     mkdtemp := Ok "/tmp/run"%string;
     makedirs := fun _ => Ok tt;
     tflite_available := true;
     load_tflite := fun _ => Ok tt;
     load_keras := fun _ => Ok tt;
     Ext.class_names :=
       fun _ => ["blocks"; "prolongations"; "repetitions"]%string;
     model_predict := scores;
     dirname := fun _ => "/data"%string |}.

Definition undecodable : exn :=
  mk_exn OtherException "Decoding failed. ffmpeg returned error code: 1".

(** A classifier that is sure of a block in every window. *)
Definition sure_of_blocks (_ : string) : result (list (list Q)) :=
  Ok [[9 # 10; 1 # 20; 1 # 20]]%Q.

(** Four class scores: confident on the first window, below the
    threshold of 0.3 on every other one. *)
Definition sure_then_unsure (path : string) : result (list (list Q)) :=
  if String.eqb path "/tmp/run/spectrogram_1.png"
  then Ok [[9 # 10; 1 # 20; 1 # 20]]%Q
  else Ok [[2 # 10; 1 # 10; 1 # 10]]%Q.


(** A segment classified as a block with confidence 0.9, the event the
    coarse mode makes of it, and a report with nothing in it. *)
Definition confident_segment : CNNModelPredictor.segment_result :=
  {| CNNModelPredictor.segment_index := 1;
     CNNModelPredictor.image_path := "/tmp/run/spectrogram_1.png";
     CNNModelPredictor.predictions :=
       Some [("blocks"%string, 9 # 10); ("prolongations"%string, 1 # 20);
             ("repetitions"%string, 1 # 20)];
     CNNModelPredictor.predicted_class := Some "blocks"%string;
     CNNModelPredictor.confidence := Some (9 # 10);
     CNNModelPredictor.error := None;
     CNNModelPredictor.timestamp_start := 0;
     CNNModelPredictor.timestamp_end := 5 |}.

Definition confident_event : CNNAnalysisService.event :=
  {| CNNAnalysisService.type := "blocks";
     CNNAnalysisService.event_confidence := 9 # 10;
     CNNAnalysisService.probability := 90;
     CNNAnalysisService.seconds := 0;
     CNNAnalysisService.t0 := 0;
     CNNAnalysisService.t1 := 5000;
     CNNAnalysisService.source := "cnn_model";
     CNNAnalysisService.model_version := "h5_v1" |}.

Definition blank_report : Processing.report :=
  {| Processing.input_file := "a.wav";
     Processing.model_path := "model.h5";
     Processing.output_dir := "/data";
     Processing.segments := [];
     Processing.summary_of := None;
     Processing.errors := [] |}.

(** A model with two outputs, and one with none, for three classes. *)
Definition two_scores (_ : string) : result (list (list Q)) :=
  Ok [[7 # 10; 2 # 10]]%Q.

Definition no_scores (_ : string) : result (list (list Q)) :=
  Ok [[]].

(** A classifier that fails on the second spectrogram. *)
Definition fails_on_second (path : string) : result (list (list Q)) :=
  if String.eqb path "/tmp/run/spectrogram_2.png"
  then raise RuntimeError "Interpreter invoke failed"
  else Ok [[9 # 10; 1 # 20; 1 # 20]]%Q.

Definition three_classes : list string :=
  ["blocks"; "prolongations"; "repetitions"]%string.

Definition loaded_predictor (names : list string) : CNNModelPredictor.t :=
  {| CNNModelPredictor.model_path := "model.h5";
     CNNModelPredictor.class_names := names;
     CNNModelPredictor.model := true;
     CNNModelPredictor.interpreter := false;
     CNNModelPredictor.use_tflite := false |}.

End Scenario.

(** ** The summary as the specification words it

    Not taken from the code: the mean the specification asks of
    [average_confidence], to compare the code with. *)
Module Spec.

Definition total (l : list Q) : Q := fold_right Qplus 0%Q l.

(** The arithmetic mean of a list; 0 for the empty list. *)
Definition mean (l : list Q) : Q :=
  match l with
  | [] => 0%Q
  | _ => (total l / inject_Z (Z.of_nat (length l)))%Q
  end.

End Spec.

(** ** AudioProcessor.extend_audio_to_duration

    Cuts an audio file into files of exactly [duration_ms], or centres a
    shorter audio in silence. [os.path.splitext] is a parameter. The
    result is the list of the files exported so far, in order, and how
    the call ended. *)
Module Extend.

(** The [try] around one export: create the directory of the file when
    it has one that does not exist, then export; a failure is raised
    again. *)
Definition export_to (E : env) (segment : AudioSegment) (path : string)
    : result unit :=
  let output_dir := dirname E path in
  _ <- (if negb (String.eqb output_dir "") && negb (path_exists E output_dir)
        then makedirs E output_dir else Ok tt) ;;
  export E segment path.

(** The segment of the loop for index [i], padded to [duration_ms]. *)
Definition extend_segment (audio : AudioSegment) (duration_ms i : Z)
    : AudioSegment :=
  let start_ms := i * duration_ms in
  let end_ms := Z.min ((i + 1) * duration_ms) (len audio) in
  let segment := slice audio start_ms end_ms in
  if len segment <? duration_ms then
    let silence_needed := duration_ms - len segment in
    segment ++ silent silence_needed
  else segment.

Definition segment_output (splitext : string -> string * string)
    (output_file : string) (i : Z) : string :=
  if i =? 0 then output_file
  else
    let base_name := fst (splitext output_file) in
    let ext := snd (splitext output_file) in
    (base_name ++ "_segment_" ++ Py.str (i + 1) ++ ext)%string.

Fixpoint extend_loop (E : env) (splitext : string -> string * string)
    (audio : AudioSegment) (output_file : string) (duration_ms : Z)
    (indices : list Z) (written : list (string * AudioSegment))
    : list (string * AudioSegment) * result unit :=
  match indices with
  | [] => (written, Ok tt)
  | i :: indices' =>
      let segment := extend_segment audio duration_ms i in
      let segment_output := segment_output splitext output_file i in
      match export_to E segment segment_output with
      | Ok _ =>
          extend_loop E splitext audio output_file duration_ms indices'
                      (written ++ [(segment_output, segment)])
      | Raise e => (written, Raise e)
      end
  end.

Definition extend_audio_to_duration (E : env)
    (splitext : string -> string * string)
    (input_file output_file : string) (duration_ms : Z)
    : list (string * AudioSegment) * result unit :=
  if String.eqb input_file "" then
    ([], raise ValueError "Invalid input_file")
  else if String.eqb output_file "" then
    ([], raise ValueError "Invalid output_file")
  else if duration_ms <=? 0 then
    ([], raise ValueError "duration_ms must be a positive integer")
  else if negb (path_exists E input_file) then
    ([], raise FileNotFoundError ("Input file not found: " ++ input_file))
  else if negb (readable E input_file) then
    ([], raise PermissionError ("Cannot read input file: " ++ input_file))
  else
    match from_file E input_file with
    | Raise e => ([], Raise e)
    | Ok audio =>
        if duration_ms <? len audio then
          let num_segments := (len audio + duration_ms - 1) / duration_ms in
          extend_loop E splitext audio output_file duration_ms
                      (range num_segments) []
        else
          let total_silence_needed := Z.max (duration_ms - len audio) 0 in
          let silence_start := silent (total_silence_needed / 2) in
          let silence_end :=
            silent (total_silence_needed - total_silence_needed / 2) in
          let extended_audio := silence_start ++ audio ++ silence_end in
          match export_to E extended_audio output_file with
          | Ok _ => ([(output_file, extended_audio)], Ok tt)
          | Raise e => ([], Raise e)
          end
    end.

End Extend.

(** ** CNNAnalysisService: severity, default model, precise mode *)
Module Service.

Import CNNModelPredictor Processing.

Definition _calculate_severity (confidence : Q) : string :=
  if Qle_bool (8 # 10) confidence then "high"
  else if Qle_bool (6 # 10) confidence then "medium"
  else if Qle_bool (4 # 10) confidence then "low"
  else "very_low".

(** The order of the tiers. *)
Definition severity_rank (severity : string) : Z :=
  if String.eqb severity "high" then 3
  else if String.eqb severity "medium" then 2
  else if String.eqb severity "low" then 1
  else 0.

(** [os.path.join(a, b)] for a relative [b]. *)
Definition join (a b : string) : string :=
  if String.eqb a "" then b
  else if endswith a "/" then (a ++ b)%string
  else (a ++ "/" ++ b)%string.

(** The candidates of [_find_default_model], for the directory [here]
    of the service's file. *)
Definition possible_paths (here : string) : list string :=
  [ join (join here "models") "cnn_model.h5";
    join here "cnn_model.h5";
    join (join (join here "..") "models") "cnn_model.h5";
    join (join here "models") "cnn_model.tflite";
    join here "cnn_model.tflite";
    join (join (join here "..") "models") "cnn_model.tflite" ]%string.

Fixpoint first_existing (E : env) (paths : list string) : option string :=
  match paths with
  | [] => None
  | path :: paths' =>
      if path_exists E path then Some path else first_existing E paths'
  end.

Definition _find_default_model (E : env) (here : string) : option string :=
  first_existing E (possible_paths here).

(** One sub-event of the localizer: a dict read with [get]. *)
Record sub_event := {
  se_type : option string;
  se_confidence : option Q;
  se_start_time : option Q;
  se_end_time : option Q;
  se_duration : option Q;
  se_severity : option string
}.

(** The localizer, a module that is not part of these files:
    [PreciseStutteringDetector()] and
    [analyze_audio_with_precise_detection(audio_path, predictions)],
    whose result is read with [.get('events', [])]. *)
Record localizer := {
  new_detector : result unit;
  analyze_audio_with_precise_detection :
    string -> Dict.t Q -> result (option (list sub_event))
}.

Record precise_event := {
  pe_type : string;
  pe_confidence : Q;
  pe_probability : Z;
  pe_seconds : Z;
  pe_t0 : Z;
  pe_t1 : Z;
  pe_duration : Q;
  pe_severity : string;
  pe_source : string;
  pe_model_version : string;
  segment_start : Q;
  relative_start : Q;
  relative_end : Q
}.

Definition get_Q (x : option Q) : Q :=
  match x with
  | Some q => q
  | None => 0%Q
  end.

Definition get_string (default : string) (x : option string) : string :=
  match x with
  | Some s => s
  | None => default
  end.

(** The dict built for one sub-event of a segment. *)
Definition precise_event_of (segment : segment_result) (event : sub_event)
    : precise_event :=
  let segment_start := timestamp_start segment in
  let absolute_start := (segment_start + get_Q (se_start_time event))%Q in
  let absolute_end := (segment_start + get_Q (se_end_time event))%Q in
  {| pe_type := get_string "unknown" (se_type event);
     pe_confidence := get_Q (se_confidence event);
     pe_probability := Py.int (Float.mul (get_Q (se_confidence event)) 100);
     pe_seconds := Py.int absolute_start;
     pe_t0 := Py.int (absolute_start * 1000);
     pe_t1 := Py.int (absolute_end * 1000);
     pe_duration := get_Q (se_duration event);
     pe_severity := get_string "low" (se_severity event);
     pe_source := "cnn_model_precise";
     pe_model_version := "h5_v1_precise";
     segment_start := segment_start;
     relative_start := get_Q (se_start_time event);
     relative_end := get_Q (se_end_time event) |}.

Definition default_predictions : Dict.t Q :=
  [("blocks"%string, 0%Q); ("prolongations"%string, 0%Q);
   ("repetitions"%string, 0%Q); ("fluent"%string, 1%Q)].

(** [segment.get('predictions', {})], replaced by the default when it is
    empty. *)
Definition predictions_or_default (segment : segment_result) : Dict.t Q :=
  match predictions segment with
  | Some (kv :: d) => kv :: d
  | _ => default_predictions
  end.

Definition segment_label (segment : segment_result) : string :=
  ("Segment " ++ Py.str (segment_index segment) ++ ": ")%string.

(** The loop over [results['segments']]. The entries have no
    ['audio_path'] key, so the localizer is called with the default
    [''] of [segment.get('audio_path', '')]. *)
Fixpoint precise_loop (L : localizer) (segments : list segment_result)
    (precise_events : list precise_event) (errors : list string)
    : result (list precise_event * list string) :=
  match segments with
  | [] => Ok (precise_events, errors)
  | segment :: rest =>
      match error segment with
      | Some msg =>
          precise_loop L rest precise_events
                       (errors ++ [(segment_label segment ++ msg)%string])
      | None =>
          match analyze_audio_with_precise_detection
                  L "" (predictions_or_default segment) with
          | Raise e =>
              if is_Exception e then
                precise_loop L rest precise_events
                  (errors ++ [(segment_label segment ++ exn_msg e)%string])
              else Raise e
          | Ok segment_analysis =>
              let events :=
                match segment_analysis with
                | Some evs => evs
                | None => []
                end in
              precise_loop L rest
                (precise_events ++ map (precise_event_of segment) events)
                errors
          end
      end
  end.

(** The loop of [_get_class_distribution] and [_get_dominant_type]. *)
Fixpoint count_types (types : list string) (distribution : Dict.t Z)
    : Dict.t Z :=
  match types with
  | [] => distribution
  | event_type :: types' =>
      count_types types'
        (Dict.set event_type (Dict.get_or event_type 0 distribution + 1)
                  distribution)
  end.

Definition _get_class_distribution (events : list precise_event)
    : Dict.t Z :=
  count_types (map pe_type events) [].

Definition _get_dominant_type (events : list precise_event)
    : result string :=
  match events with
  | [] => Ok "none"%string
  | _ => Dict.max_key Z.ltb (count_types (map pe_type events) [])
  end.

Record precise_details := {
  pd_segmentsAnalyzed : Z;
  pd_preciseEventsFound : Z;
  pd_segmentDuration : string;
  pd_overlapRatio : string;
  pd_modelType : string
}.

Record precise_summary := {
  ps_segmentCount : Z;
  ps_totalSegments : Z;
  ps_successfulPredictions : Z;
  ps_preciseEventsDetected : Z;
  ps_averageConfidence : Q;
  ps_dominantType : string;
  ps_classDistribution : Dict.t Z;
  ps_hasEvents : bool;
  ps_processingDetails : option precise_details;
  ps_error : option string
}.

Record precise_report := {
  precise_events_of : list precise_event;
  precise_summary_of : precise_summary;
  precise_model_path : string;
  precise_input_file : string;
  precise_errors : list string
}.

(** [np.mean] of the confidences, 0.0 for no event. *)
Definition mean_confidence (events : list precise_event) : Q :=
  match events with
  | [] => 0%Q
  | _ => (fold_right Qplus 0 (map pe_confidence events)
          / inject_Z (Z.of_nat (length events)))%Q
  end.

(** The summary, with the fallback of its [except Exception] for a
    failing [_get_dominant_type] (which raises nothing else). *)
Definition summarize_precise (results : report)
    (precise_events : list precise_event) : precise_summary :=
  let total_events := Z.of_nat (length precise_events) in
  let total_segments :=
    CNNAnalysisService.summary_get (summary_of results) total_segments 0 in
  let successful_predictions :=
    CNNAnalysisService.summary_get (summary_of results)
                                   successful_predictions 0 in
  match _get_dominant_type precise_events with
  | Ok dominant =>
      {| ps_segmentCount := total_segments;
         ps_totalSegments := total_segments;
         ps_successfulPredictions := successful_predictions;
         ps_preciseEventsDetected := total_events;
         ps_averageConfidence := mean_confidence precise_events;
         ps_dominantType := dominant;
         ps_classDistribution := _get_class_distribution precise_events;
         ps_hasEvents := 0 <? total_events;
         ps_processingDetails :=
           Some {| pd_segmentsAnalyzed := total_segments;
                   pd_preciseEventsFound := total_events;
                   pd_segmentDuration := "3.0 seconds";
                   pd_overlapRatio := "50%";
                   pd_modelType := "H5 CNN with Precise Detection" |};
         ps_error := None |}
  | Raise e =>
      {| ps_segmentCount := 0;
         ps_totalSegments := 0;
         ps_successfulPredictions := 0;
         ps_preciseEventsDetected := total_events;
         ps_averageConfidence := 0;
         ps_dominantType := "none";
         ps_classDistribution := [];
         ps_hasEvents := 0 <? total_events;
         ps_processingDetails := None;
         ps_error := Some (exn_msg e) |}
  end.

Definition analyze_audio_file_precise (E : env) (L : localizer)
    (self_model_path self_temp_dir : option string)
    (audio_file_path : string) (output_dir : option string)
    : result precise_report :=
  if String.eqb audio_file_path "" then
    raise ValueError "Invalid audio_file_path"
  else if negb (path_exists E audio_file_path) then
    raise FileNotFoundError ("Audio file not found: " ++ audio_file_path)
  else if negb (readable E audio_file_path) then
    raise PermissionError ("Cannot read audio file: " ++ audio_file_path)
  else
    match self_model_path with
    | None => raise ValueError "Model path not set. Cannot perform analysis."
    | Some model_path =>
        if String.eqb model_path "" then
          raise ValueError "Model path not set. Cannot perform analysis."
        else if negb (path_exists E model_path) then
          raise FileNotFoundError ("CNN model not found: " ++ model_path)
        else
          let output_dir :=
            match output_dir with
            | None => self_temp_dir
            | Some d => Some d
            end in
          results <- process_audio_file E audio_file_path model_path
                                        output_dir ;;
          _ <- new_detector L ;;
          loop <- precise_loop L (segments results) [] [] ;;
          Ok {| precise_events_of := fst loop;
                precise_summary_of := summarize_precise results (fst loop);
                precise_model_path := model_path;
                precise_input_file := audio_file_path;
                precise_errors := snd loop ++ errors results |}
    end.

End Service.

(** ** flutter_cnn_service.FlutterCNNService

    [PyTorchCNNService] is imported from a module that is not part of
    the sources at hand: its constructor and its [analyze_audio] are
    parameters, an instance is truthy, and [analyze_audio] returns a
    dict (of type [R] here) whose ['events'], when present, has a
    length. [PYTORCH_AVAILABLE] is whether the import succeeded; [here]
    is [os.path.dirname(__file__)]. *)
Module FlutterCNNService.

Section WithPyTorch.

Variable R : Type.
Variable Event : Type.

Record pytorch_service := {
  detector : bool;                             (* truthiness of [.detector] *)
  model_path : string;
  service_analyze_audio : string -> result R
}.

Record t := {
  temp_dir : option string;
  use_pytorch : bool;
  pytorch_service_of : option pytorch_service
}.

Definition model_file : string := "best_repetitions_fluent_logmel_cnn.pt".

Definition possible_paths (here : string) : list string :=
  [ Service.join (Service.join here "models") model_file;
    Service.join here model_file ].

Definition _find_pytorch_model (E : env) (here : string) : option string :=
  Service.first_existing E (possible_paths here).

Definition not_found_message : string :=
  "Required PyTorch model 'best_repetitions_fluent_logmel_cnn.pt' not found. This model is required for the app to function. Please ensure the model file exists in python_services/models/".

(** The body of the [try] of the constructor. *)
Definition start_service (new_service : string -> result pytorch_service)
    (pytorch_model : string) : result pytorch_service :=
  service <- new_service pytorch_model ;;
  if negb (detector service) then
    raise RuntimeError
      "Failed to initialize PyTorch service detector. Model may be corrupted."
  else Ok service.

Definition init (E : env) (PYTORCH_AVAILABLE : bool)
    (new_service : string -> result pytorch_service) (here : string)
    : result t :=
  if negb PYTORCH_AVAILABLE then
    raise RuntimeError
      "PyTorch is not available. The app requires PyTorch to run the 71% accuracy model."
  else
    match _find_pytorch_model E here with
    | None => raise FileNotFoundError not_found_message
    | Some pytorch_model =>
        if String.eqb pytorch_model "" then
          raise FileNotFoundError not_found_message
        else
          match start_service new_service pytorch_model with
          | Ok service =>
              Ok {| temp_dir := None;
                    use_pytorch := true;
                    pytorch_service_of := Some service |}
          | Raise e =>
              if is_Exception e then
                raise RuntimeError
                  ("Failed to initialize PyTorch CNN service: " ++ exn_msg e
                   ++ ". The 71% accuracy model is required.")
              else Raise e
          end
    end.

(** The dict the service builds itself when it has no analysis. *)
Record failure_report := {
  events : list Event;
  segmentCount : Z;
  hasEvents : bool;
  summary_error : string;
  info_error : string;
  info_model_path : option string;
  info_input_file : string
}.

Inductive outcome :=
| Results (results : R)
| Report (report : failure_report).

Definition failure (message : string) (model : option string)
    (audio_file_path : string) : outcome :=
  Report {| events := [];
            segmentCount := 0;
            hasEvents := false;
            summary_error := message;
            info_error := message;
            info_model_path := model;
            info_input_file := audio_file_path |}.

Definition not_available_message : string :=
  "PyTorch model (71% accuracy) not available. This model is required.".

Definition analyze_audio (E : env) (self : t) (audio_file_path : string)
    : result outcome :=
  if negb (path_exists E audio_file_path) then
    Ok (failure ("Audio file not found: " ++ audio_file_path)
                (match pytorch_service_of self with
                 | Some service => Some (model_path service)
                 | None => None
                 end)
                audio_file_path)
  else
    match use_pytorch self, pytorch_service_of self with
    | true, Some service =>
        match service_analyze_audio service audio_file_path with
        | Ok results => Ok (Results results)
        | Raise e =>
            if is_Exception e then
              Ok (failure ("PyTorch CNN analysis failed: " ++ exn_msg e)
                          None audio_file_path)
            else Raise e
        end
    | _, _ => Ok (failure not_available_message None audio_file_path)
    end.

End WithPyTorch.

Arguments detector {R} _.
Arguments model_path {R} _.
Arguments service_analyze_audio {R} _ _.
Arguments temp_dir {R} _.
Arguments use_pytorch {R} _.
Arguments pytorch_service_of {R} _.
Arguments start_service {R} _ _.
Arguments init {R} _ _ _ _.
Arguments events {Event} _.
Arguments segmentCount {Event} _.
Arguments hasEvents {Event} _.
Arguments summary_error {Event} _.
Arguments info_error {Event} _.
Arguments info_model_path {Event} _.
Arguments info_input_file {Event} _.
Arguments Results {R Event} _.
Arguments Report {R Event} _.
Arguments failure {R Event} _ _ _.
Arguments analyze_audio {R} Event _ _ _.

End FlutterCNNService.

(** ** Measures the properties are stated with *)
Module Measures.

(** The sum of the counts of a distribution. *)
Definition total_count (d : Dict.t Z) : Z := fold_right Z.add 0 (map snd d).

(** The entries of a result list carry the five-second stamps of the
    positions [i], [i + 1], ... *)
Fixpoint stamped (i : Z) (rs : list CNNModelPredictor.segment_result)
    : Prop :=
  match rs with
  | [] => True
  | r :: rs' =>
      (CNNModelPredictor.timestamp_start r == inject_Z i * 5)%Q /\
      (CNNModelPredictor.timestamp_end r == (inject_Z i + 1) * 5)%Q /\
      stamped (i + 1) rs'
  end.

(** What the precise mode reports for a segment without events of its
    own: the segment's error, or the message of the exception of the
    localizer. *)
Definition failure_of (L : Service.localizer)
    (segment : CNNModelPredictor.segment_result) : option string :=
  match CNNModelPredictor.error segment with
  | Some msg => Some msg
  | None =>
      match Service.analyze_audio_with_precise_detection
              L "" (Service.predictions_or_default segment) with
      | Raise e => Some (exn_msg e)
      | Ok _ => None
      end
  end.

Definition fails (L : Service.localizer)
    (segment : CNNModelPredictor.segment_result) : bool :=
  match failure_of L segment with
  | Some _ => true
  | None => false
  end.

End Measures.

(** ** More concrete runs *)
Module Cases.

(** The environment [E] with another [export]. *)
Definition with_export (E : env)
    (f : AudioSegment -> string -> result unit) : env :=
  {| path_exists := path_exists E;
     readable := readable E;
     from_file := from_file E;
     slicing := slicing E;
     export := f;
     librosa_load := librosa_load E;
     preemphasis := preemphasis E;
     melspectrogram := melspectrogram E;
     power_to_db := power_to_db E;
     save_spectrogram_as_image := save_spectrogram_as_image E;
     mkdtemp := mkdtemp E;
     makedirs := makedirs E;
     tflite_available := tflite_available E;
     load_tflite := load_tflite E;
     load_keras := load_keras E;
     Ext.class_names := Ext.class_names E;
     model_predict := model_predict E;
     dirname := dirname E |}.

Definition interrupt : exn := mk_exn KeyboardInterrupt "".

(** The user interrupts the export of the second segment. *)
Definition interrupted_on_second : env :=
  with_export
    (Scenario.studio (Ok (Scenario.clip_of 7000)) Scenario.sure_of_blocks)
    (fun _ path =>
       if String.eqb path "/tmp/run/segment_2.wav" then Raise interrupt
       else Ok tt).

(** The disk is full when the second segment is exported. *)
Definition disk_full_on_second : env :=
  with_export
    (Scenario.studio (Ok (Scenario.clip_of 7000)) Scenario.sure_of_blocks)
    (fun _ path =>
       if String.eqb path "/tmp/run/segment_2.wav"
       then raise OSError "No space left on device"
       else Ok tt).

(** The default processor inside its [with] block. *)
Definition entered : AudioProcessor.t :=
  {| AudioProcessor.segment_duration := 3;
     AudioProcessor.target_size := (128, 128);
     AudioProcessor.overlap_ratio := 1 # 2;
     AudioProcessor.min_segment_duration := 1;
     AudioProcessor.temp_dir := Some "/tmp/run"%string |}.

(** Only the TFLite model next to the service exists. *)
Definition only_tflite : env :=
  {| path_exists := fun p => String.eqb p "/app/models/cnn_model.tflite";
     readable := fun _ => true;
     from_file := fun _ => Ok (Scenario.clip_of 7000);
     slicing := fun _ => Ok tt;
     export := fun _ _ => Ok tt;
     librosa_load := fun _ _ => Ok [1; 0; -1; 0]%Q;
     preemphasis := fun y => Ok y;
     melspectrogram := fun _ => Ok [[1; 2]; [3; 4]]%Q;
     power_to_db := fun m => Ok m;
     save_spectrogram_as_image := fun _ _ => Ok tt;
     mkdtemp := Ok "/tmp/run"%string;
     makedirs := fun _ => Ok tt;
     tflite_available := true;
     load_tflite := fun _ => Ok tt;
     load_keras := fun _ => Ok tt;
     Ext.class_names := fun _ => Scenario.three_classes;
     model_predict := Scenario.sure_of_blocks;
     dirname := fun _ => "/data"%string |}.

(** A localizer that finds one block from 0.5 s to 1.25 s in every
    window but fails on the windows predicted at 0.2. *)
Definition one_block : Service.sub_event :=
  {| Service.se_type := Some "blocks"%string;
     Service.se_confidence := Some (8 # 10);
     Service.se_start_time := Some (1 # 2);
     Service.se_end_time := Some (5 # 4);
     Service.se_duration := Some (3 # 4);
     Service.se_severity := Some "high"%string |}.

Definition picky_localizer : Service.localizer :=
  {| Service.new_detector := Ok tt;
     Service.analyze_audio_with_precise_detection :=
       fun _ predictions =>
         if Qle_bool (1 # 2) (Dict.get_or "blocks" 0%Q predictions)
         then Ok (Some [one_block])
         else raise ValueError "Audio file not found" |}.

(** A PyTorch service that returns the number of events it found, and
    one whose inference fails. *)
Definition counting_service : FlutterCNNService.pytorch_service Z :=
  {| FlutterCNNService.detector := true;
     FlutterCNNService.model_path := "/app/models/best_repetitions_fluent_logmel_cnn.pt";
     FlutterCNNService.service_analyze_audio := fun _ => Ok 2 |}.

Definition failing_service : FlutterCNNService.pytorch_service Z :=
  {| FlutterCNNService.detector := true;
     FlutterCNNService.model_path := "/app/models/best_repetitions_fluent_logmel_cnn.pt";
     FlutterCNNService.service_analyze_audio :=
       fun _ => raise RuntimeError "CUDA out of memory" |}.

Definition interrupted_service : FlutterCNNService.pytorch_service Z :=
  {| FlutterCNNService.detector := true;
     FlutterCNNService.model_path := "/app/models/best_repetitions_fluent_logmel_cnn.pt";
     FlutterCNNService.service_analyze_audio := fun _ => Raise interrupt |}.

(** Nothing exists on disk. *)
Definition empty_disk : env :=
  {| path_exists := fun _ => false;
     readable := fun _ => false;
     from_file := fun _ => raise FileNotFoundError "No such file";
     slicing := fun _ => Ok tt;
     export := fun _ _ => Ok tt;
     librosa_load := fun _ _ => Ok [1; 0; -1; 0]%Q;
     preemphasis := fun y => Ok y;
     melspectrogram := fun _ => Ok [[1; 2]; [3; 4]]%Q;
     power_to_db := fun m => Ok m;
     save_spectrogram_as_image := fun _ _ => Ok tt;
     mkdtemp := Ok "/tmp/run"%string;
     makedirs := fun _ => Ok tt;
     tflite_available := true;
     load_tflite := fun _ => Ok tt;
     load_keras := fun _ => Ok tt;
     Ext.class_names := fun _ => Scenario.three_classes;
     model_predict := Scenario.sure_of_blocks;
     dirname := fun _ => "/data"%string |}.

(** The studio with the classifier that is sure of the first window
    only. *)
Definition first_window_only : env :=
  Scenario.studio (Ok (Scenario.clip_of 7000)) Scenario.sure_then_unsure.

(** A window classified below the localizer's bar, and one whose
    classification failed. *)
Definition unsure_segment : CNNModelPredictor.segment_result :=
  {| CNNModelPredictor.segment_index := 2;
     CNNModelPredictor.image_path := "/tmp/run/spectrogram_2.png";
     CNNModelPredictor.predictions :=
       Some [("blocks"%string, 2 # 10); ("prolongations"%string, 1 # 10);
             ("repetitions"%string, 1 # 10)];
     CNNModelPredictor.predicted_class := Some "blocks"%string;
     CNNModelPredictor.confidence := Some (2 # 10);
     CNNModelPredictor.error := None;
     CNNModelPredictor.timestamp_start := 5;
     CNNModelPredictor.timestamp_end := 10 |}.

Definition failed_segment : CNNModelPredictor.segment_result :=
  CNNModelPredictor.error_result 2 "/tmp/run/spectrogram_3.png"
    (mk_exn RuntimeError "Interpreter invoke failed").

(** The environment [E] with another [os.path.exists]. *)
Definition with_exists (E : env) (f : string -> bool) : env :=
  {| path_exists := f;
     readable := readable E;
     from_file := from_file E;
     slicing := slicing E;
     export := export E;
     librosa_load := librosa_load E;
     preemphasis := preemphasis E;
     melspectrogram := melspectrogram E;
     power_to_db := power_to_db E;
     save_spectrogram_as_image := save_spectrogram_as_image E;
     mkdtemp := mkdtemp E;
     makedirs := makedirs E;
     tflite_available := tflite_available E;
     load_tflite := load_tflite E;
     load_keras := load_keras E;
     Ext.class_names := Ext.class_names E;
     model_predict := model_predict E;
     dirname := dirname E |}.

(** [AudioProcessor(segment_duration=2.0, overlap_ratio=0.9)]. *)
Definition nine_tenths : AudioProcessor.t :=
  {| AudioProcessor.segment_duration := 2;
     AudioProcessor.target_size := (128, 128);
     AudioProcessor.overlap_ratio := 9 # 10;
     AudioProcessor.min_segment_duration := 1;
     AudioProcessor.temp_dir := None |}.


(** The environment [E] with another outcome of the cutting and
    padding. *)
Definition with_slicing (E : env) (f : Z -> result unit) : env :=
  {| path_exists := path_exists E;
     readable := readable E;
     from_file := from_file E;
     slicing := f;
     export := export E;
     librosa_load := librosa_load E;
     preemphasis := preemphasis E;
     melspectrogram := melspectrogram E;
     power_to_db := power_to_db E;
     save_spectrogram_as_image := save_spectrogram_as_image E;
     mkdtemp := mkdtemp E;
     makedirs := makedirs E;
     tflite_available := tflite_available E;
     load_tflite := load_tflite E;
     load_keras := load_keras E;
     Ext.class_names := Ext.class_names E;
     model_predict := model_predict E;
     dirname := dirname E |}.

Definition out_of_memory : exn := mk_exn MemoryError "".

(** The memory runs out while the second segment is cut, or while it
    is exported. *)
Definition no_memory_to_cut_second : env :=
  with_slicing
    (Scenario.studio (Ok (Scenario.clip_of 7000)) Scenario.sure_of_blocks)
    (fun i => if i =? 1 then Raise out_of_memory else Ok tt).

Definition no_memory_to_export_second : env :=
  with_export
    (Scenario.studio (Ok (Scenario.clip_of 7000)) Scenario.sure_of_blocks)
    (fun _ path =>
       if String.eqb path "/tmp/run/segment_2.wav" then Raise out_of_memory
       else Ok tt).

(** The entry of a window classified as [class] with confidence
    [c], and a run of six windows: one fluent, two blocks, two
    repetitions, all at 0.7, and one whose classification failed. *)
Definition classified (i : Z) (class : string) (c : Q)
    : CNNModelPredictor.segment_result :=
  {| CNNModelPredictor.segment_index := i + 1;
     CNNModelPredictor.image_path := "/tmp/run/spectrogram.png";
     CNNModelPredictor.predictions := Some [(class, c)];
     CNNModelPredictor.predicted_class := Some class;
     CNNModelPredictor.confidence := Some c;
     CNNModelPredictor.error := None;
     CNNModelPredictor.timestamp_start := inject_Z i * 5;
     CNNModelPredictor.timestamp_end := (inject_Z i + 1) * 5 |}.

Definition mixed_classes : list CNNModelPredictor.segment_result :=
  [ classified 0 "fluent" (7 # 10);
    classified 1 "blocks" (7 # 10);
    CNNModelPredictor.error_result
      2 "/tmp/run/spectrogram.png"
      (mk_exn RuntimeError "Interpreter invoke failed");
    classified 3 "repetitions" (7 # 10);
    classified 4 "blocks" (7 # 10);
    classified 5 "repetitions" (7 # 10) ].

End Cases.

(** * Properties *)

(** ** Python built-ins *)

Lemma int_nonneg (x : Q) : (0 <= x)%Q -> Py.int x = Qfloor x.
Proof.
  destruct x as [n d]; unfold Qle, Py.int, Qfloor; simpl; intros H.
  apply Z.quot_div_nonneg; lia.
Qed.

Lemma int_pos_nonneg (x : Q) : 0 < Py.int x -> (0 <= x)%Q.
Proof.
  destruct x as [n d]; unfold Qle, Py.int; simpl; intros H.
  destruct (Z_lt_le_dec n 0) as [Hn | Hn]; [exfalso | lia].
  assert (Hq : 0 <= Z.quot (- n) (Z.pos d)) by (apply Z.quot_pos; lia).
  rewrite Z.quot_opp_l in Hq by lia. lia.
Qed.

(** [int(a / b)] on two non-negative ints is the floor division. *)
Lemma int_true_division (a b : Z) :
  0 <= a -> 0 < b -> Py.int (inject_Z a / inject_Z b) = a / b.
Proof.
  intros Ha Hb. rewrite int_nonneg.
  - symmetry. apply Zdiv_Qdiv.
  - apply Qle_shift_div_l.
    + change 0%Q with (inject_Z 0). rewrite <- Zlt_Qlt. exact Hb.
    + rewrite Qmult_0_l. change 0%Q with (inject_Z 0).
      rewrite <- Zle_Qle. exact Ha.
Qed.

Lemma range_length (n : Z) : length (range n) = Z.to_nat n.
Proof. unfold range. now rewrite length_map, length_seq. Qed.

Lemma range_nth_error (n : Z) (i : nat) (x : Z) :
  nth_error (range n) i = Some x -> x = Z.of_nat i /\ (i < Z.to_nat n)%nat.
Proof.
  unfold range. intros H.
  assert (Hi : (i < Z.to_nat n)%nat).
  { assert (Hs : nth_error (map Z.of_nat (seq 0 (Z.to_nat n))) i <> None)
      by congruence.
    apply nth_error_Some in Hs. now rewrite length_map, length_seq in Hs. }
  split; [| exact Hi].
  rewrite nth_error_map, (nth_error_nth' _ 0%nat) in H
    by now rewrite length_seq.
  rewrite seq_nth in H by exact Hi. simpl in H. congruence.
Qed.

(** ** pydub *)

Lemma len_app (a b : AudioSegment) : len (a ++ b) = len a + len b.
Proof. unfold len. rewrite length_app. lia. Qed.

Lemma len_silent (d : Z) : len (silent d) = Z.max 0 d.
Proof. unfold len, silent. rewrite repeat_length. lia. Qed.

Lemma len_nonneg (a : AudioSegment) : 0 <= len a.
Proof. unfold len. lia. Qed.

Lemma len_slice (a : AudioSegment) (start stop : Z) :
  0 <= start -> start <= stop -> stop <= len a ->
  len (slice a start stop) = stop - start.
Proof.
  unfold len, slice. intros H0 H1 H2.
  rewrite length_skipn, length_firstn. lia.
Qed.

Lemma len_slice_le (a : AudioSegment) (start stop : Z) :
  len (slice a start stop) <= Z.max 0 (stop - start).
Proof.
  unfold len, slice. rewrite length_skipn, length_firstn. lia.
Qed.

(** ** The segmenter *)
Section Segmenter.

Import AudioProcessor.

Variable p : AudioProcessor.t.

(** For a clip longer than one segment, the list the loop goes over. *)
Lemma windows_long (audio : AudioSegment) :
  segment_duration_ms p < len audio ->
  0 < step_size_ms p ->
  windows p audio =
  Ok (map (make_window p audio (len audio))
          (range (Z.max 1 ((len audio - segment_duration_ms p)
                           / step_size_ms p + 1)))).
Proof.
  intros HD Hstep. unfold windows.
  destruct (Z.leb_spec (len audio) (segment_duration_ms p)) as [Hle | _];
    [lia |].
  destruct (Z.eqb_spec (step_size_ms p) 0) as [H0 | _]; [lia |].
  rewrite int_true_division by lia. reflexivity.
Qed.

(** From the start of each of these windows on, the clip is one segment
    long at least: none of them is cut short by the end of the clip. *)
Lemma long_clip_window_fits (D : Z) (i : nat) :
  segment_duration_ms p < D ->
  0 < step_size_ms p ->
  (i < Z.to_nat (Z.max 1 ((D - segment_duration_ms p)
                          / step_size_ms p + 1)))%nat ->
  Z.of_nat i * step_size_ms p + segment_duration_ms p <= D.
Proof.
  intros HD Hstep Hi.
  set (S := segment_duration_ms p) in *. set (step := step_size_ms p) in *.
  assert (Hq : 0 <= (D - S) / step) by (apply Z.div_pos; lia).
  assert (Hi' : Z.of_nat i <= (D - S) / step) by lia.
  assert (Hm : step * ((D - S) / step) <= D - S)
    by (apply Z.mul_div_le; lia).
  nia.
Qed.

End Segmenter.

(** With a step of zero the quotient has no value: the count of the
    segments raises [ZeroDivisionError]. *)
Lemma windows_zero_step (p : AudioProcessor.t) (audio : AudioSegment) :
  AudioProcessor.segment_duration_ms p < len audio ->
  AudioProcessor.step_size_ms p = 0 ->
  AudioProcessor.windows p audio = raise ZeroDivisionError "division by zero".
Proof.
  intros HD Hstep. unfold AudioProcessor.windows.
  destruct (Z.leb_spec (len audio) (AudioProcessor.segment_duration_ms p));
    [lia |].
  now rewrite Hstep.
Qed.

(** [AudioProcessor()], the processor [process_audio_file] builds: the
    constructor accepts its defaults; segments of 3000 ms every 1500 ms,
    1000 ms at least. *)
Lemma default_processor :
  AudioProcessor.init 3 (128, 128) (1 # 2) 1 = Ok AudioProcessor.default /\
  AudioProcessor.segment_duration_ms AudioProcessor.default = 3000 /\
  AudioProcessor.step_size_ms AudioProcessor.default = 1500 /\
  AudioProcessor.min_segment_duration_ms AudioProcessor.default = 1000.
Proof. repeat split. Qed.

(** Once the input is read, [segment_audio_file] is the loop over
    [windows]. *)
Lemma segment_audio_file_loops_over_windows
    (E : env) (p : AudioProcessor.t) (input_file dir : string)
    (audio : AudioSegment) :
  input_file <> ""%string ->
  path_exists E input_file = true ->
  readable E input_file = true ->
  AudioProcessor.temp_dir p = Some dir ->
  from_file E input_file = Ok audio ->
  audio <> [] ->
  AudioProcessor.segment_audio_file E p input_file
  = (ws <- AudioProcessor.windows p audio ;;
     spectrogram_paths <- AudioProcessor.segment_loop E p dir ws [] ;;
     match spectrogram_paths with
     | [] => raise RuntimeError "No spectrograms were successfully generated"
     | _ => Ok spectrogram_paths
     end).
Proof.
  intros Hin Hex Hrd Hdir Hfile Hne.
  unfold AudioProcessor.segment_audio_file.
  destruct (String.eqb_spec input_file ""); [contradiction |].
  rewrite Hex, Hrd, Hdir, Hfile. cbn [negb Py.bind].
  destruct (Z.eqb_spec (len audio) 0) as [H0 | _]; [| reflexivity].
  destruct audio; [contradiction | discriminate].
Qed.

(** When the three steps succeed on every window, the loop returns one
    spectrogram path per window. *)
Lemma segment_loop_all_windows
    (E : env) (p : AudioProcessor.t) (dir : string)
    (ws : list AudioProcessor.window) :
  (forall w, In w ws ->
             exists path, AudioProcessor.process_window E p dir w
                          = Ok (Some path)) ->
  forall acc,
  exists paths,
    AudioProcessor.segment_loop E p dir ws acc = Ok (acc ++ paths) /\
    length paths = length ws.
Proof.
  induction ws as [| w ws IH]; intros Hall acc.
  - exists []. now rewrite app_nil_r.
  - destruct (Hall w (or_introl eq_refl)) as [path Hw].
    destruct (IH (fun w' Hw' => Hall w' (or_intror Hw')) (acc ++ [path]))
      as (paths & Hloop & Hlen).
    exists (path :: paths). cbn [AudioProcessor.segment_loop].
    rewrite Hw. cbn [Py.bind]. rewrite Hloop, <- app_assoc.
    split; [reflexivity | simpl; now rewrite Hlen].
Qed.

(** C1. A processor for segments of 2 seconds with an overlap of 0.9,
    which the constructor accepts, on a clip of 2199 ms. The segment is
    2000 ms long and [floor(2000 * (1 - 0.9))] is 200, for which the
    count [max(1, floor((D - S) / step) + 1)] is 1. The float product
    [2000 * (1 - 0.9)] is below 200, though, and [int] makes a step of
    199 ms of it: [segment_audio_file] goes through two windows,
    [0, 2000) and [199, 2199), and returns two spectrograms. *)
Theorem segment_audio_file_windows_at_overlap_nine_tenths :
  let E := Scenario.studio (Ok (Scenario.clip_of 2199))
                           Scenario.sure_of_blocks in
  let p := Cases.nine_tenths in
  AudioProcessor.init 2 (128, 128) (9 # 10) 1 = Ok p /\
  AudioProcessor.segment_duration_ms p = 2000 /\
  Qfloor (inject_Z 2000 * (1 - AudioProcessor.overlap_ratio p)) = 200 /\
  Z.max 1 ((len (Scenario.clip_of 2199) - 2000) / 200 + 1) = 1 /\
  AudioProcessor.step_size_ms p = 199 /\
  (exists ws,
      AudioProcessor.windows p (Scenario.clip_of 2199) = Ok ws /\
      map (fun w => (AudioProcessor.start_ms w, AudioProcessor.end_ms w)) ws
      = [(0, 2000); (199, 2199)]) /\
  (p' <- AudioProcessor.enter E p ;;
   AudioProcessor.segment_audio_file E p' "a.wav")
  = Ok ["/tmp/run/spectrogram_1.png"; "/tmp/run/spectrogram_2.png"]%string.
Proof.
  intros E p.
  split; [reflexivity |]. split; [vm_compute; reflexivity |].
  split; [reflexivity |]. split; [reflexivity |].
  split; [vm_compute; reflexivity |].
  split; [eexists; split; vm_compute; reflexivity |].
  vm_compute. reflexivity.
Qed.

(** The windows of a clip of [D] ms that is longer than one segment,
    in terms of the segment length [S] and the step of the processor.
    With a step of 0, which the constructor does not exclude, the count
    of the windows raises [ZeroDivisionError]. With a positive step
    there are [max(1, floor((D - S) / step) + 1)] windows; window [i]
    (0-based) is the slice from [i * step] to [min(i * step + S, D)], so
    no window ends after [D]. *)
Theorem long_clip_window_count_and_spans
    (p : AudioProcessor.t) (audio : AudioSegment) :
  let D := len audio in
  let S := AudioProcessor.segment_duration_ms p in
  let step := AudioProcessor.step_size_ms p in
  S < D ->
  (step = 0 ->
   AudioProcessor.windows p audio
   = raise ZeroDivisionError "division by zero") /\
  (0 < step ->
   exists ws,
     AudioProcessor.windows p audio = Ok ws /\
     Z.of_nat (length ws) = Z.max 1 ((D - S) / step + 1) /\
     forall (i : nat) (w : AudioProcessor.window),
       nth_error ws i = Some w ->
       AudioProcessor.index w = Z.of_nat i /\
       AudioProcessor.start_ms w = Z.of_nat i * step /\
       AudioProcessor.end_ms w = Z.min (Z.of_nat i * step + S) D /\
       AudioProcessor.end_ms w <= D /\
       AudioProcessor.natural w =
         slice audio (AudioProcessor.start_ms w) (AudioProcessor.end_ms w)).
Proof.
  intros D S step HD. split.
  - intros Hstep. apply windows_zero_step; assumption.
  - intros Hstep.
    eexists. split; [apply windows_long; assumption |]. split.
    + rewrite length_map, range_length. fold D S step. lia.
    + intros i w Hw. rewrite nth_error_map in Hw.
      destruct (nth_error (range _) i) as [x |] eqn:Hx; [| discriminate].
      apply range_nth_error in Hx as [-> _].
      injection Hw as <-. simpl. fold D S step.
      repeat split; try reflexivity. apply Z.le_min_r.
Qed.

(** The default processor on a 7-second clip: three windows,
    [0, 3000), [1500, 4500) and [3000, 6000). *)
Lemma long_clip_window_count_and_spans_witness :
  exists ws,
    AudioProcessor.windows AudioProcessor.default (Scenario.clip_of 7000)
    = Ok ws /\
    Z.of_nat (length ws)
    = Z.max 1 ((len (Scenario.clip_of 7000)
                - AudioProcessor.segment_duration_ms AudioProcessor.default)
               / AudioProcessor.step_size_ms AudioProcessor.default + 1) /\
    forall (i : nat) (w : AudioProcessor.window),
      nth_error ws i = Some w ->
      AudioProcessor.index w = Z.of_nat i /\
      AudioProcessor.start_ms w
      = Z.of_nat i * AudioProcessor.step_size_ms AudioProcessor.default /\
      AudioProcessor.end_ms w
      = Z.min (Z.of_nat i * AudioProcessor.step_size_ms AudioProcessor.default
               + AudioProcessor.segment_duration_ms AudioProcessor.default)
              (len (Scenario.clip_of 7000)) /\
      AudioProcessor.end_ms w <= len (Scenario.clip_of 7000) /\
      AudioProcessor.natural w =
        slice (Scenario.clip_of 7000)
              (AudioProcessor.start_ms w) (AudioProcessor.end_ms w).
Proof.
  apply (long_clip_window_count_and_spans
           AudioProcessor.default (Scenario.clip_of 7000)).
  - vm_compute. reflexivity.
  - vm_compute. reflexivity.
Defined.

(** The three branches of the padding rules, by the length of the
    slice. *)
Lemma pad_segment_cases (p : AudioProcessor.t) (s : AudioSegment) :
  let n := len s in
  let m := AudioProcessor.min_segment_duration_ms p in
  let S := AudioProcessor.segment_duration_ms p in
  (n < m /\ AudioProcessor.pad_segment p s = s ++ silent (m - n))
  \/ (m <= n /\ n < S /\ (inject_Z S * (8 # 10) <= inject_Z n)%Q /\
      AudioProcessor.pad_segment p s = s ++ silent (S - n))
  \/ (m <= n /\ ((inject_Z n < inject_Z S * (8 # 10))%Q \/ S <= n) /\
      AudioProcessor.pad_segment p s = s).
Proof.
  intros n m S. unfold AudioProcessor.pad_segment. fold n m S.
  destruct (Z.ltb_spec n m) as [Hm | Hm]; [left; auto |].
  destruct (Z.ltb_spec n S) as [HS | HS].
  - destruct (Qle_bool (inject_Z S * (8 # 10)) (inject_Z n)) eqn:H8.
    + right; left. apply Qle_bool_iff in H8. auto.
    + right; right. repeat split; auto. left.
      apply Qnot_le_lt. intros Hle. apply Qle_bool_iff in Hle. congruence.
  - right; right. auto.
Qed.






(** ** The coarse mode *)

Lemma int_of_Z (x : Q) (z : Z) : (x == inject_Z z)%Q -> Py.int x = z.
Proof.
  intros H. destruct (Z_lt_le_dec z 0) as [Hz | Hz].
  - (* a negative integer: truncation of the opposite *)
    destruct x as [n d]. unfold Py.int, Qeq in *. simpl in *.
    rewrite Z.mul_1_r in H. subst n.
    rewrite Z.quot_mul by lia. reflexivity.
  - rewrite int_nonneg.
    + rewrite (Qfloor_comp _ _ H). apply Qfloor_Z.
    + rewrite H. change 0%Q with (inject_Z 0). now rewrite <- Zle_Qle.
Qed.

(** An event takes its times from the position of the segment in the
    list of spectrograms, five seconds per position. *)
Lemma coarse_event_span_of_position (E : env) (m : CNNModelPredictor.t)
    (i : Z) (path : string) (r : CNNModelPredictor.segment_result)
    (e : CNNAnalysisService.event) :
  CNNModelPredictor.predict_one E m i path = Ok r ->
  CNNAnalysisService.segment_event r = Some e ->
  CNNAnalysisService.t0 e = 5000 * i /\
  CNNAnalysisService.t1 e = 5000 * (i + 1).
Proof.
  unfold CNNModelPredictor.predict_one, Py.bind. intros Hr He.
  destruct (snd _) as [d |]; [| discriminate].
  destruct (Dict.max_key _ d) as [k |]; [| discriminate].
  injection Hr as <-.
  unfold CNNAnalysisService.segment_event in He. cbn in He.
  destruct (_ || _); [discriminate |]. injection He as <-.
  unfold CNNAnalysisService.t0, CNNAnalysisService.t1. split.
  - apply int_of_Z. rewrite inject_Z_mult. ring.
  - apply int_of_Z. rewrite inject_Z_mult, inject_Z_plus. ring.
Qed.

(** C3. A 7-second clip under the default processor, every window
    classified with confidence 0.9. The segmenter's windows are
    [0, 3000), [1500, 4500) and [3000, 6000), and the three events of
    the coarse report span [0, 5000), [5000, 10000) and
    [10000, 15000): an event does not carry the span of its window. *)
Theorem coarse_event_spans_on_seven_seconds :
  let E := Scenario.studio (Ok (Scenario.clip_of 7000))
                           Scenario.sure_of_blocks in
  (exists ws,
      AudioProcessor.windows AudioProcessor.default (Scenario.clip_of 7000)
      = Ok ws /\
      map (fun w => (AudioProcessor.start_ms w, AudioProcessor.end_ms w)) ws
      = [(0, 3000); (1500, 4500); (3000, 6000)]) /\
  (exists report,
      CNNAnalysisService.analyze_audio_file
        E (Some "model.h5"%string) None "a.wav" None = Ok report /\
      map (fun e => (CNNAnalysisService.t0 e, CNNAnalysisService.t1 e))
          (CNNAnalysisService.events report)
      = [(0, 5000); (5000, 10000); (10000, 15000)]).
Proof.
  split; eexists; split; vm_compute; reflexivity.
Qed.

Lemma segment_event_some_iff (segment : CNNModelPredictor.segment_result) :
  (exists e, CNNAnalysisService.segment_event segment = Some e) <->
  (CNNModelPredictor.error segment = None /\
   Processing.get_predicted_class "none" segment <> "none"%string /\
   (3 # 10 <= Processing.get_confidence segment)%Q).
Proof.
  unfold CNNAnalysisService.segment_event, Processing.has_error, Py.Qltb.
  destruct (CNNModelPredictor.error segment) as [msg |].
  { split; [intros [e He]; discriminate | intros [H _]; discriminate]. }
  destruct (String.eqb_spec (Processing.get_predicted_class "none" segment)
                            "none") as [Hc | Hc]; simpl.
  { split; [intros [e He]; discriminate | intros (_ & H & _); contradiction]. }
  destruct (Qle_bool (3 # 10) (Processing.get_confidence segment)) eqn:Hq;
    simpl.
  - apply Qle_bool_iff in Hq. split; [auto | intros _; eauto].
  - split; [intros [e He]; discriminate |].
    intros (_ & _ & H). apply Qle_bool_iff in H. congruence.
Qed.

Lemma format_events_app (xs ys : list CNNModelPredictor.segment_result) :
  CNNAnalysisService.format_events (xs ++ ys) =
  CNNAnalysisService.format_events xs ++ CNNAnalysisService.format_events ys.
Proof.
  induction xs as [| x xs IH]; simpl; [reflexivity |].
  destruct (CNNAnalysisService.segment_event x); simpl; now rewrite IH.
Qed.

Lemma segment_event_below_threshold
    (segment : CNNModelPredictor.segment_result) (c : Q) :
  (c < 3 # 10)%Q ->
  CNNAnalysisService.segment_event
    (CNNModelPredictor.with_confidence c segment) = None.
Proof.
  intros Hc.
  destruct (CNNAnalysisService.segment_event _) as [e |] eqn:He;
    [| reflexivity].
  assert (H : exists e, CNNAnalysisService.segment_event
                          (CNNModelPredictor.with_confidence c segment)
                        = Some e) by eauto.
  apply segment_event_some_iff in H as (_ & _ & H). cbn in H.
  exfalso. eapply Qlt_not_le; eassumption.
Qed.

(** C4. In the coarse mode a segment gives an event exactly when it
    carries no error, its predicted class is not ['none'] and its
    confidence is at least 0.3. When the confidence of a segment that
    gave an event is lowered below 0.3, the report loses that event and
    keeps every other one as it was. *)
Theorem coarse_event_iff_confidence_threshold :
  (forall segment : CNNModelPredictor.segment_result,
      (exists e, CNNAnalysisService.segment_event segment = Some e) <->
      (CNNModelPredictor.error segment = None /\
       Processing.get_predicted_class "none" segment <> "none"%string /\
       (3 # 10 <= Processing.get_confidence segment)%Q)) /\
  (forall (mp : option string) (results : Processing.report)
          (before after : list CNNModelPredictor.segment_result)
          (segment : CNNModelPredictor.segment_result)
          (e : CNNAnalysisService.event) (c : Q),
      CNNAnalysisService.segment_event segment = Some e ->
      (c < 3 # 10)%Q ->
      CNNAnalysisService.events
        (CNNAnalysisService._format_results_for_flutter mp
           (Processing.with_segments (before ++ segment :: after) results))
      = CNNAnalysisService.format_events before
        ++ e :: CNNAnalysisService.format_events after
      /\
      CNNAnalysisService.events
        (CNNAnalysisService._format_results_for_flutter mp
           (Processing.with_segments
              (before ++ CNNModelPredictor.with_confidence c segment :: after)
              results))
      = CNNAnalysisService.format_events before
        ++ CNNAnalysisService.format_events after).
Proof.
  split; [exact segment_event_some_iff |].
  intros mp results before after segment e c He Hc. cbn.
  rewrite !format_events_app. cbn.
  rewrite He, (segment_event_below_threshold segment c Hc). auto.
Qed.

(** One segment at 0.9, and the same segment lowered to 0.2. *)
Lemma coarse_event_iff_confidence_threshold_witness :
  CNNAnalysisService.events
    (CNNAnalysisService._format_results_for_flutter None
       (Processing.with_segments ([] ++ Scenario.confident_segment :: [])
                                 Scenario.blank_report))
  = CNNAnalysisService.format_events []
    ++ Scenario.confident_event :: CNNAnalysisService.format_events []
  /\
  CNNAnalysisService.events
    (CNNAnalysisService._format_results_for_flutter None
       (Processing.with_segments
          ([] ++ CNNModelPredictor.with_confidence (2 # 10)
                   Scenario.confident_segment :: [])
          Scenario.blank_report))
  = CNNAnalysisService.format_events []
    ++ CNNAnalysisService.format_events [].
Proof.
  apply (proj2 coarse_event_iff_confidence_threshold
               None Scenario.blank_report [] []
               Scenario.confident_segment Scenario.confident_event (2 # 10)).
  - vm_compute. reflexivity.
  - reflexivity.
Defined.

(** ** The summary *)

Lemma tally_total (ps : list CNNModelPredictor.segment_result)
    (class_counts : Dict.t Z) (total_confidence : Q) :
  (snd (Processing.tally ps class_counts total_confidence)
   == total_confidence + Spec.total (map Processing.get_confidence ps))%Q.
Proof.
  revert class_counts total_confidence.
  induction ps as [| pred ps IH]; intros cc tc; simpl.
  - ring.
  - rewrite IH. ring.
Qed.

(** What [summarize] stores under ['average_confidence']: the mean
    over the entries without an error. *)
Lemma summarize_average_confidence
    (predictions : list CNNModelPredictor.segment_result) :
  (Processing.average_confidence (Processing.summarize predictions)
   == Spec.mean (map Processing.get_confidence
                     (Processing.successful predictions)))%Q.
Proof.
  unfold Processing.summarize.
  destruct (Processing.successful predictions) as [| x l] eqn:Hs.
  - reflexivity.
  - pose proof (tally_total (x :: l) [] 0%Q) as Ht.
    destruct (Processing.tally (x :: l) [] 0%Q) as [cc tc].
    cbn [snd] in Ht. cbn [Processing.average_confidence].
    change (Spec.mean (map Processing.get_confidence (x :: l)))
      with (Spec.total (map Processing.get_confidence (x :: l))
            / inject_Z (Z.of_nat
                (length (map Processing.get_confidence (x :: l)))))%Q.
    rewrite Ht, length_map, Qplus_0_l. reflexivity.
Qed.

(** Every report [process_audio_file] returns has one of three
    summaries: none, all zeros with no segment, or [summarize] of its
    segments. *)
Lemma process_audio_file_summary (E : env) (input_file model_path : string)
    (output_dir : option string) (r : Processing.report) :
  Processing.process_audio_file E input_file model_path output_dir = Ok r ->
  (Processing.summary_of r = None /\ Processing.segments r = [])
  \/ (Processing.summary_of r = Some Processing.zero_summary /\
      Processing.segments r = [])
  \/ Processing.summary_of r
     = Some (Processing.summarize (Processing.segments r)).
Proof.
  unfold Processing.process_audio_file, Py.bind.
  destruct (String.eqb input_file ""); [discriminate |].
  destruct (String.eqb model_path ""); [discriminate |].
  destruct (Processing.ensure_dir E _) as [[] |]; [| discriminate].
  unfold Processing.run, Processing.guarded, Py.bind.
  destruct (AudioProcessor.enter E _) as [processor | e0].
  2:{ destruct e0 as [[] msg]; cbn; try discriminate;
        intros H; injection H as <-; left; auto. }
  destruct (AudioProcessor.segment_audio_file E processor _) as [paths | e1].
  2:{ destruct (is_Exception e1) eqn:Hcls; cbv beta iota;
        [| rewrite Hcls; discriminate].
      intros H; injection H as <-. left. auto. }
  destruct paths as [| path paths].
  { intros H; injection H as <-. right; left. auto. }
  destruct (CNNModelPredictor.load_model E _) as [predictor | e2].
  2:{ destruct (is_Exception e2) eqn:Hcls; cbv beta iota;
        [| rewrite Hcls; discriminate].
      intros H; injection H as <-. left. auto. }
  destruct (CNNModelPredictor.predict_spectrograms E predictor _)
    as [predictions | e3].
  2:{ destruct (is_Exception e3) eqn:Hcls; cbv beta iota;
        [| rewrite Hcls; discriminate].
      intros H; injection H as <-. left. auto. }
  intros H; injection H as <-. right; right. reflexivity.
Qed.

(** C6, as the code has it. In the coarse mode [averageConfidence] is
    the arithmetic mean of the confidence of the segments that were
    classified without an error, whether or not they gave an event, and
    0 when there is none. *)
Theorem coarse_average_confidence_over_successful
    (E : env) (input_file model_path : string) (output_dir mp : option string)
    (r : Processing.report) :
  Processing.process_audio_file E input_file model_path output_dir = Ok r ->
  (CNNAnalysisService.averageConfidence
     (CNNAnalysisService.summary
        (CNNAnalysisService._format_results_for_flutter mp r))
   == Spec.mean (map Processing.get_confidence
                     (Processing.successful (Processing.segments r))))%Q.
Proof.
  intros H. cbn.
  destruct (process_audio_file_summary _ _ _ _ _ H)
    as [[-> ->] | [[-> ->] | ->]]; cbn [CNNAnalysisService.summary_get].
  - reflexivity.
  - reflexivity.
  - apply summarize_average_confidence.
Qed.

(** Three windows: one at 0.9, two at 0.2. The average is over all
    three. *)
Lemma coarse_average_confidence_over_successful_witness :
  exists r,
    Processing.process_audio_file
      (Scenario.studio (Ok (Scenario.clip_of 7000)) Scenario.sure_then_unsure)
      "a.wav" "model.h5" None = Ok r /\
    (CNNAnalysisService.averageConfidence
       (CNNAnalysisService.summary
          (CNNAnalysisService._format_results_for_flutter None r))
     == Spec.mean (map Processing.get_confidence
                       (Processing.successful (Processing.segments r))))%Q.
Proof.
  eexists. split.
  - vm_compute. reflexivity.
  - apply (coarse_average_confidence_over_successful
             (Scenario.studio (Ok (Scenario.clip_of 7000))
                              Scenario.sure_then_unsure)
             "a.wav" "model.h5" None None).
    vm_compute. reflexivity.
Defined.

(** C6, as specified, fails: with one window at 0.9 and two at
    0.2 the only event has confidence 0.9, and [averageConfidence] is
    not the mean 0.9 of the events. *)
Lemma coarse_average_confidence_counterexample :
  exists report,
    CNNAnalysisService.analyze_audio_file
      (Scenario.studio (Ok (Scenario.clip_of 7000)) Scenario.sure_then_unsure)
      (Some "model.h5"%string) None "a.wav" None = Ok report /\
    map CNNAnalysisService.event_confidence (CNNAnalysisService.events report)
    = [9 # 10] /\
    ~ (CNNAnalysisService.averageConfidence (CNNAnalysisService.summary report)
       == Spec.mean (map CNNAnalysisService.event_confidence
                         (CNNAnalysisService.events report)))%Q.
Proof.
  eexists. split; [vm_compute; reflexivity |]. split; [reflexivity |].
  vm_compute. discriminate.
Qed.

(** ** Failure of the segmentation *)

(** C7, as the code has it. When [segment_audio_file] raises an
    [Exception] (the waveform cannot be loaded or parsed),
    [process_audio_file] returns a report and raises nothing: no
    segment, exactly one error entry that starts with
    "Segmentation error: ", and a summary that is the empty dict. The
    coarse report made of it has no event and reads 0 for every
    count and for the average. *)
Theorem process_audio_file_segmentation_failure
    (E : env) (input_file model_path : string) (output_dir : option string)
    (processor : AudioProcessor.t) (e : exn) :
  input_file <> ""%string ->
  model_path <> ""%string ->
  Processing.ensure_dir E
    (Processing.default_output_dir E input_file output_dir) = Ok tt ->
  AudioProcessor.enter E AudioProcessor.default = Ok processor ->
  AudioProcessor.segment_audio_file E processor input_file = Raise e ->
  is_Exception e = true ->
  exists r,
    Processing.process_audio_file E input_file model_path output_dir = Ok r /\
    Processing.input_file r = input_file /\
    Processing.model_path r = model_path /\
    Processing.segments r = [] /\
    Processing.summary_of r = None /\
    Processing.errors r = [("Segmentation error: " ++ exn_msg e)%string] /\
    let f := CNNAnalysisService._format_results_for_flutter
               (Some model_path) r in
    CNNAnalysisService.events f = [] /\
    CNNAnalysisService.segmentCount (CNNAnalysisService.summary f) = 0 /\
    CNNAnalysisService.totalSegments (CNNAnalysisService.summary f) = 0 /\
    CNNAnalysisService.successfulPredictions (CNNAnalysisService.summary f)
    = 0 /\
    CNNAnalysisService.averageConfidence (CNNAnalysisService.summary f)
    = 0%Q /\
    CNNAnalysisService.classDistribution (CNNAnalysisService.summary f)
    = [] /\
    CNNAnalysisService.hasEvents (CNNAnalysisService.summary f) = false /\
    CNNAnalysisService.info_errors (CNNAnalysisService.info f)
    = Processing.errors r.
Proof.
  intros Hin Hmp Hdir Henter Hseg Hcls.
  unfold Processing.process_audio_file.
  destruct (String.eqb_spec input_file ""); [contradiction |].
  destruct (String.eqb_spec model_path ""); [contradiction |].
  rewrite Hdir. cbv beta iota delta [Py.bind].
  unfold Processing.run. rewrite Henter. cbv beta iota delta [Py.bind].
  cbn [Processing.input_file]. rewrite Hseg.
  unfold Processing.guarded. rewrite Hcls.
  eexists. split; [reflexivity |]. cbn. repeat split; reflexivity.
Qed.

(** An input the decoder rejects. *)
Lemma process_audio_file_segmentation_failure_witness :
  exists r,
    Processing.process_audio_file
      (Scenario.studio (Raise Scenario.undecodable) Scenario.sure_of_blocks)
      "a.wav" "model.h5" None = Ok r /\
    Processing.segments r = [] /\
    Processing.summary_of r = None /\
    Processing.errors r
    = ["Segmentation error: Decoding failed. ffmpeg returned error code: 1"%string].
Proof.
  destruct (process_audio_file_segmentation_failure
              (Scenario.studio (Raise Scenario.undecodable)
                               Scenario.sure_of_blocks)
              "a.wav" "model.h5" None
              {| AudioProcessor.segment_duration := 3;
                 AudioProcessor.target_size := (128, 128);
                 AudioProcessor.overlap_ratio := 1 # 2;
                 AudioProcessor.min_segment_duration := 1;
                 AudioProcessor.temp_dir := Some "/tmp/run"%string |}
              Scenario.undecodable)
    as (r & Hr & _ & _ & Hs & Hsum & Herr & _).
  - discriminate.
  - discriminate.
  - reflexivity.
  - reflexivity.
  - reflexivity.
  - reflexivity.
  - exists r. repeat split; assumption.
Defined.

(** C7, as specified, fails: when the decoder rejects the input
    the report has no summary of zeros, its summary has no field. *)
Lemma process_audio_file_segmentation_failure_counterexample :
  ~ exists r s,
      Processing.process_audio_file
        (Scenario.studio (Raise Scenario.undecodable) Scenario.sure_of_blocks)
        "a.wav" "model.h5" None = Ok r /\
      Processing.summary_of r = Some s /\
      Processing.total_segments s = 0 /\
      Processing.successful_predictions s = 0 /\
      (Processing.average_confidence s == 0)%Q.
Proof.
  intros (r & s & Hr & Hs & _).
  vm_compute in Hr. injection Hr as <-. discriminate Hs.
Qed.

(** ** predict_image: shaping the probability vector *)
Section Dicts.

Context {V : Type}.

Lemma get_set (k k0 : string) (v : V) (d : Dict.t V) :
  Dict.get k (Dict.set k0 v d)
  = if String.eqb k k0 then Some v else Dict.get k d.
Proof.
  induction d as [| [k' v'] d IH]; simpl.
  - reflexivity.
  - destruct (String.eqb_spec k0 k') as [-> | Hne]; simpl.
    + destruct (String.eqb k k'); reflexivity.
    + rewrite IH. destruct (String.eqb_spec k k') as [-> | Hne'].
      * destruct (String.eqb_spec k' k0) as [-> | _];
          [contradiction | reflexivity].
      * reflexivity.
Qed.

Lemma keys_set (k k0 : string) (v : V) (d : Dict.t V) :
  In k (Dict.keys (Dict.set k0 v d)) <-> k = k0 \/ In k (Dict.keys d).
Proof.
  induction d as [| [k' v'] d IH]; simpl.
  - intuition.
  - destruct (String.eqb_spec k0 k') as [-> | Hne]; simpl.
    + intuition.
    + rewrite IH. intuition.
Qed.

Lemma keys_set_NoDup (k0 : string) (v : V) (d : Dict.t V) :
  NoDup (Dict.keys d) -> NoDup (Dict.keys (Dict.set k0 v d)).
Proof.
  induction d as [| [k' v'] d IH]; simpl; intros Hnd.
  - constructor; [intros [] | constructor].
  - destruct (String.eqb_spec k0 k') as [-> | Hne]; simpl.
    + exact Hnd.
    + inversion Hnd as [| ? ? Hnotin Hnd']; subst.
      constructor; [| auto].
      intros Hin. apply keys_set in Hin as [-> | Hin]; contradiction.
Qed.

End Dicts.

Section FillResult.

Import CNNModelPredictor.

Variable p0 : list Q.

Lemma fill_result_keys (names : list string) :
  forall (i : nat) (acc : Dict.t Q) (k : string),
    In k (Dict.keys (fill_result i names p0 acc))
    <-> In k (Dict.keys acc) \/ In k names.
Proof.
  induction names as [| name names IH]; intros i acc k; simpl.
  - intuition.
  - rewrite IH, keys_set. intuition.
Qed.

Lemma fill_result_NoDup (names : list string) :
  forall (i : nat) (acc : Dict.t Q),
    NoDup (Dict.keys acc) -> NoDup (Dict.keys (fill_result i names p0 acc)).
Proof.
  induction names as [| name names IH]; intros i acc Hnd; simpl.
  - exact Hnd.
  - apply IH, keys_set_NoDup, Hnd.
Qed.

Lemma fill_result_app (a b : list string) :
  forall (i : nat) (acc : Dict.t Q),
    fill_result i (a ++ b) p0 acc
    = fill_result (i + length a) b p0 (fill_result i a p0 acc).
Proof.
  induction a as [| name a IH]; intros i acc; simpl.
  - now rewrite Nat.add_0_r.
  - rewrite IH. f_equal. lia.
Qed.

(** A name that does not come again keeps its value. *)
Lemma fill_result_other (names : list string) :
  forall (i : nat) (acc : Dict.t Q) (k : string),
    ~ In k names ->
    Dict.get k (fill_result i names p0 acc) = Dict.get k acc.
Proof.
  induction names as [| name names IH]; intros i acc k Hk; simpl.
  - reflexivity.
  - rewrite IH by (intros H; apply Hk; now right).
    rewrite get_set. destruct (String.eqb_spec k name) as [-> | _].
    + exfalso. apply Hk. now left.
    + reflexivity.
Qed.

(** Past the end of the vector every assignment stores 0.0. *)
Lemma fill_result_past_end (names : list string) :
  forall (i : nat) (acc : Dict.t Q) (k : string),
    (length p0 <= i)%nat ->
    Dict.get k acc = Some 0%Q ->
    Dict.get k (fill_result i names p0 acc) = Some 0%Q.
Proof.
  induction names as [| name names IH]; intros i acc k Hi Hk; simpl.
  - exact Hk.
  - apply IH; [lia |]. rewrite get_set.
    destruct (String.eqb k name); [| exact Hk].
    destruct (Nat.ltb_spec i (length p0)); [lia | reflexivity].
Qed.

Lemma fill_result_missing (names : list string) (j : nat) (name : string) :
  nth_error names j = Some name ->
  (length p0 <= j)%nat ->
  Dict.get name (fill_result 0 names p0 []) = Some 0%Q.
Proof.
  intros Hj Hlen.
  apply nth_error_split in Hj as (pre & post & -> & <-).
  rewrite fill_result_app. simpl.
  apply fill_result_past_end; [lia |].
  rewrite get_set, String.eqb_refl.
  destruct (Nat.ltb_spec (length pre) (length p0)); [lia | reflexivity].
Qed.

Lemma fill_result_present (names : list string) (j : nat) (name : string)
    (v : Q) :
  NoDup names ->
  nth_error names j = Some name ->
  nth_error p0 j = Some v ->
  Dict.get name (fill_result 0 names p0 []) = Some v.
Proof.
  intros Hnd Hj Hv.
  apply nth_error_split in Hj as (pre & post & -> & <-).
  apply NoDup_remove_2 in Hnd.
  rewrite fill_result_app. simpl.
  rewrite fill_result_other by (intros H; apply Hnd, in_or_app; now right).
  rewrite get_set, String.eqb_refl.
  assert (Hlt : (length pre < length p0)%nat)
    by (apply nth_error_Some; congruence).
  destruct (Nat.ltb_spec (length pre) (length p0)); [| lia].
  f_equal. apply nth_error_nth. exact Hv.
Qed.

End FillResult.

(** C8, as the code has it. For a probability vector that is not empty
    and whose length differs from the number of class names,
    [predict_image] returns a dict and raises nothing; it logs the
    mismatch; the keys of the dict are exactly the class names; a class
    at a position past the end of the vector gets 0.0, and (names being
    distinct) a class at a position within the vector gets the entry at
    that position. *)
Theorem predict_image_length_mismatch
    (E : env) (m : CNNModelPredictor.t) (image_path : string)
    (p0 : list Q) (rest : list (list Q)) :
  CNNModelPredictor.backend_ready m = Ok tt ->
  image_path <> ""%string ->
  path_exists E image_path = true ->
  readable E image_path = true ->
  model_predict E image_path = Ok (p0 :: rest) ->
  p0 <> [] ->
  length p0 <> length (CNNModelPredictor.class_names m) ->
  exists d,
    CNNModelPredictor.predict_image E m image_path
    = ([CNNModelPredictor.PredictionLengthMismatch
          (length p0) (length (CNNModelPredictor.class_names m))],
       Ok d) /\
    NoDup (Dict.keys d) /\
    (forall k, In k (Dict.keys d) <-> In k (CNNModelPredictor.class_names m)) /\
    (forall (j : nat) (name : string),
        nth_error (CNNModelPredictor.class_names m) j = Some name ->
        (length p0 <= j)%nat ->
        Dict.get name d = Some 0%Q) /\
    (NoDup (CNNModelPredictor.class_names m) ->
     forall (j : nat) (name : string) (v : Q),
       nth_error (CNNModelPredictor.class_names m) j = Some name ->
       nth_error p0 j = Some v ->
       Dict.get name d = Some v).
Proof.
  intros Hloaded Hpath Hex Hrd Hpred Hne Hlen.
  unfold CNNModelPredictor.predict_image.
  rewrite Hloaded.
  destruct (String.eqb_spec image_path ""); [contradiction |].
  rewrite Hex, Hrd, Hpred. simpl negb. cbv iota.
  destruct (Nat.eqb_spec (length p0) 0) as [H0 | _].
  { destruct p0; [contradiction | discriminate]. }
  destruct (Nat.eqb_spec (length p0)
                         (length (CNNModelPredictor.class_names m)));
    [contradiction |].
  eexists. split; [reflexivity |]. repeat split.
  - apply fill_result_NoDup. constructor.
  - intros H. apply fill_result_keys in H as [[] | H]. exact H.
  - intros H. apply fill_result_keys. now right.
  - intros j name. apply fill_result_missing.
  - intros Hnd j name v. apply fill_result_present. exact Hnd.
Qed.

(** Two scores for three classes: the third class gets 0.0. *)
Lemma predict_image_length_mismatch_witness :
  exists d,
    CNNModelPredictor.predict_image
      (Scenario.studio (Ok (Scenario.clip_of 7000)) Scenario.two_scores)
      (Scenario.loaded_predictor Scenario.three_classes)
      "/tmp/run/spectrogram_1.png"
    = ([CNNModelPredictor.PredictionLengthMismatch 2 3], Ok d) /\
    (forall k, In k (Dict.keys d) <-> In k Scenario.three_classes) /\
    Dict.get "repetitions" d = Some 0%Q.
Proof.
  destruct (predict_image_length_mismatch
              (Scenario.studio (Ok (Scenario.clip_of 7000))
                               Scenario.two_scores)
              (Scenario.loaded_predictor Scenario.three_classes)
              "/tmp/run/spectrogram_1.png" [7 # 10; 2 # 10]%Q [])
    as (d & Hd & _ & Hkeys & Hmissing & _).
  - reflexivity.
  - discriminate.
  - reflexivity.
  - reflexivity.
  - reflexivity.
  - discriminate.
  - simpl. lia.
  - exists d. split; [exact Hd |]. split; [exact Hkeys |].
    apply (Hmissing 2%nat); [reflexivity | simpl; lia].
Defined.

(** C8, as specified, fails on an empty probability vector: its
    length 0 differs from the three classes, and [predict_image] raises
    [ValueError] instead of returning a dict. *)
Lemma predict_image_length_mismatch_counterexample :
  let E := Scenario.studio (Ok (Scenario.clip_of 7000)) Scenario.no_scores in
  let m := Scenario.loaded_predictor Scenario.three_classes in
  model_predict E "/tmp/run/spectrogram_1.png" = Ok [[]] /\
  snd (CNNModelPredictor.predict_image E m "/tmp/run/spectrogram_1.png")
  = Raise (mk_exn ValueError
      "Invalid predictions from model for /tmp/run/spectrogram_1.png") /\
  ~ exists d,
      snd (CNNModelPredictor.predict_image E m "/tmp/run/spectrogram_1.png")
      = Ok d.
Proof.
  split; [reflexivity |]. split; [reflexivity |].
  intros [d Hd]. vm_compute in Hd. discriminate Hd.
Qed.

(** ** predict_spectrograms *)

(** The goal [Raise e0 = Raise e -> is_Exception e = true] for an
    exception that is built on the spot. *)
Ltac raised_here :=
  let H := fresh in intros H; injection H as <-; reflexivity.

Section PredictSpectrograms.

Import CNNModelPredictor.

Variable E : env.
Variable m : CNNModelPredictor.t.

(** The classifier is not interrupted by the user: what it raises is
    an [Exception]. *)
Hypothesis model_raises_exceptions :
  forall path e, model_predict E path = Raise e -> is_Exception e = true.

Lemma predict_image_raises_exceptions (path : string) (e : exn) :
  snd (predict_image E m path) = Raise e -> is_Exception e = true.
Proof.
  unfold predict_image.
  destruct (backend_ready m) as [[] | e0] eqn:Hready.
  2:{ intros H; injection H as <-. revert Hready. unfold backend_ready.
      destruct (use_tflite m), (interpreter m), (model m);
        try discriminate; raised_here. }
  destruct (String.eqb path "");
    [raised_here |].
  destruct (negb (path_exists E path));
    [raised_here |].
  destruct (negb (readable E path));
    [raised_here |].
  destruct (model_predict E path) as [[| p0 rest] | e'] eqn:Hp; simpl.
  - raised_here.
  - destruct (length p0 =? 0)%nat; simpl; [| discriminate].
    raised_here.
  - intros H; injection H as <-. eapply model_raises_exceptions, Hp.
Qed.

Lemma predict_one_raises_exceptions (i : Z) (path : string) (e : exn) :
  predict_one E m i path = Raise e -> is_Exception e = true.
Proof.
  unfold predict_one, Py.bind.
  destruct (snd (predict_image E m path)) as [d | e'] eqn:Hp.
  - destruct d as [| kv d]; simpl; [| discriminate].
    raised_here.
  - intros H; injection H as <-. eapply predict_image_raises_exceptions, Hp.
Qed.

Lemma predict_one_fields (i : Z) (path : string) (r : segment_result) :
  predict_one E m i path = Ok r ->
  segment_index r = i + 1 /\ image_path r = path /\ error r = None.
Proof.
  unfold predict_one, Py.bind.
  destruct (snd (predict_image E m path)) as [d |]; [| discriminate].
  destruct (Dict.max_key Qltb d); [| discriminate].
  intros H; injection H as <-. auto.
Qed.

Lemma predict_loop_entries (paths : list string) :
  forall (i : Z) (results : list segment_result),
  exists rs,
    predict_loop E m i paths results = Ok (results ++ rs) /\
    length rs = length paths /\
    forall (j : nat) (path : string),
      nth_error paths j = Some path ->
      nth_error rs j = Some (entry E m (i + Z.of_nat j) path).
Proof.
  induction paths as [| path paths IH]; intros i results.
  - exists []. rewrite app_nil_r. repeat split; auto.
    intros [| j] path H; discriminate.
  - destruct (IH (i + 1) (results ++ [entry E m i path]))
      as (rs & Hloop & Hlen & Hnth).
    exists (entry E m i path :: rs). repeat split.
    + cbn [predict_loop]. unfold entry at 1.
      destruct (predict_one E m i path) as [r | e] eqn:Hone.
      * unfold entry in Hloop. rewrite Hone in Hloop.
        rewrite Hloop, <- app_assoc. reflexivity.
      * rewrite (predict_one_raises_exceptions _ _ _ Hone).
        unfold entry in Hloop. rewrite Hone in Hloop.
        rewrite Hloop, <- app_assoc. reflexivity.
    + simpl. now rewrite Hlen.
    + intros [| j] q Hq; simpl in Hq |- *.
      * injection Hq as <-. now rewrite Z.add_0_r.
      * rewrite (Hnth j q Hq). do 2 f_equal. lia.
Qed.

End PredictSpectrograms.

Lemma successful_length (predictions : list CNNModelPredictor.segment_result) :
  (length (Processing.successful predictions) <= length predictions)%nat.
Proof. apply filter_length_le. Qed.

Lemma summarize_counts (predictions : list CNNModelPredictor.segment_result) :
  Processing.total_segments (Processing.summarize predictions)
  = Z.of_nat (length predictions) /\
  Processing.successful_predictions (Processing.summarize predictions)
  = Z.of_nat (length (Processing.successful predictions)).
Proof.
  unfold Processing.summarize.
  destruct (Processing.successful predictions) as [| x l]; [auto |].
  destruct (Processing.tally _ _ _). auto.
Qed.

(** C10. As long as the classifier is not interrupted,
    [predict_spectrograms] returns one entry per path, in the order of
    the paths; the entry at 0-based position [j] has [segment_index]
    [j + 1] and the path it was made for; it carries an error exactly
    when the classification of that path raised, and is then the error
    entry instead of being left out. The summary made of the entries has
    [total_segments] equal to the number of paths and
    [successful_predictions] at most that. *)
Theorem predict_spectrograms_one_entry_per_path
    (E : env) (m : CNNModelPredictor.t) (spectrogram_paths : list string) :
  (forall path e, model_predict E path = Raise e -> is_Exception e = true) ->
  exists results,
    CNNModelPredictor.predict_spectrograms E m spectrogram_paths = Ok results /\
    length results = length spectrogram_paths /\
    (forall (j : nat) (path : string),
        nth_error spectrogram_paths j = Some path ->
        exists r,
          nth_error results j = Some r /\
          CNNModelPredictor.segment_index r = Z.of_nat j + 1 /\
          CNNModelPredictor.image_path r = path /\
          (forall r', CNNModelPredictor.predict_one E m (Z.of_nat j) path
                      = Ok r' ->
                      r = r' /\ CNNModelPredictor.error r = None) /\
          (forall e, CNNModelPredictor.predict_one E m (Z.of_nat j) path
                     = Raise e ->
                     r = CNNModelPredictor.error_result (Z.of_nat j) path e /\
                     CNNModelPredictor.error r = Some (exn_msg e))) /\
    Processing.total_segments (Processing.summarize results)
    = Z.of_nat (length spectrogram_paths) /\
    0 <= Processing.successful_predictions (Processing.summarize results)
      <= Processing.total_segments (Processing.summarize results).
Proof.
  intros Hexn.
  destruct (predict_loop_entries E m Hexn spectrogram_paths 0 [])
    as (rs & Hloop & Hlen & Hnth).
  exists rs. split; [exact Hloop |]. split; [exact Hlen |]. split.
  - intros j path Hj. exists (CNNModelPredictor.entry E m (Z.of_nat j) path).
    split; [apply (Hnth j path Hj) |].
    unfold CNNModelPredictor.entry.
    destruct (CNNModelPredictor.predict_one E m (Z.of_nat j) path)
      as [r | e] eqn:Hone.
    + destruct (predict_one_fields E m _ _ _ Hone) as (Hi & Hp & He).
      split; [exact Hi |]. split; [exact Hp |]. split.
      * intros r' Hr'. injection Hr' as <-. auto.
      * intros e' He'. discriminate He'.
    + split; [reflexivity |]. split; [reflexivity |]. split.
      * intros r' Hr'. discriminate Hr'.
      * intros e' He'. injection He' as <-. auto.
  - destruct (summarize_counts rs) as [-> ->]. rewrite Hlen.
    pose proof (successful_length rs). lia.
Qed.

(** Three spectrograms, the classifier failing on the second one. *)
Lemma predict_spectrograms_one_entry_per_path_witness :
  let E := Scenario.studio (Ok (Scenario.clip_of 7000))
                           Scenario.fails_on_second in
  let m := Scenario.loaded_predictor Scenario.three_classes in
  let paths := ["/tmp/run/spectrogram_1.png"; "/tmp/run/spectrogram_2.png";
                "/tmp/run/spectrogram_3.png"]%string in
  exists results,
    CNNModelPredictor.predict_spectrograms E m paths = Ok results /\
    length results = 3%nat /\
    map CNNModelPredictor.segment_index results = [1; 2; 3] /\
    map CNNModelPredictor.error results
    = [None; Some "Interpreter invoke failed"%string; None] /\
    Processing.total_segments (Processing.summarize results) = 3 /\
    Processing.successful_predictions (Processing.summarize results) = 2.
Proof.
  intros E m paths.
  destruct (predict_spectrograms_one_entry_per_path E m paths)
    as (results & Hres & Hlen & _).
  - intros path e. unfold E. cbn [model_predict Scenario.studio].
    unfold Scenario.fails_on_second.
    destruct (String.eqb path _); [| discriminate].
    intros H; injection H as <-; reflexivity.
  - exists results. split; [exact Hres |]. split; [exact Hlen |].
    vm_compute in Hres. injection Hres as <-.
    vm_compute. repeat split; reflexivity.
Defined.

(** ** Resizing a spectrogram *)

Lemma round_of_Z (x : Q) (n : Z) : (x == inject_Z n)%Q -> Py.round x = n.
Proof.
  intros H. unfold Py.round.
  rewrite (Qfloor_comp _ _ H), Qfloor_Z.
  assert (H0 : (x - inject_Z n == 0)%Q) by (rewrite H; ring).
  rewrite (Qcompare_comp _ _ H0 (1 # 2) (1 # 2) (Qeq_refl _)).
  reflexivity.
Qed.

Lemma inject_Z_pos (n : Z) : 0 < n -> (0 < inject_Z n)%Q.
Proof. intros H. change 0%Q with (inject_Z 0). now rewrite <- Zlt_Qlt. Qed.

Lemma inject_Z_nonzero (n : Z) : n <> 0 -> ~ (inject_Z n == 0)%Q.
Proof.
  intros H Heq. apply H. unfold Qeq in Heq. simpl in Heq. lia.
Qed.

Lemma scale_positive (H h : Z) :
  0 < H -> 0 < h -> Qle_bool (inject_Z H / inject_Z h) 0 = false.
Proof.
  intros HH Hh.
  destruct (Qle_bool _ 0) eqn:Hb; [| reflexivity].
  apply Qle_bool_iff in Hb. exfalso.
  apply (Qlt_not_le 0 (inject_Z H / inject_Z h)); [| exact Hb].
  apply Qlt_shift_div_l; [now apply inject_Z_pos |].
  rewrite Qmult_0_l. now apply inject_Z_pos.
Qed.

Lemma scaled_dimension (H h : Z) :
  0 < h -> Py.round (inject_Z h * (inject_Z H / inject_Z h)) = H.
Proof.
  intros Hh. apply round_of_Z. field. apply inject_Z_nonzero. lia.
Qed.

Lemma rect_shape (h w : nat) (m : matrix) :
  (0 < h)%nat -> rect h w m -> shape m = (Z.of_nat h, Z.of_nat w).
Proof.
  intros Hh [Hlen Hrows]. unfold shape. rewrite Hlen.
  destruct m as [| row m]; simpl in *; [lia |].
  inversion Hrows; subst. reflexivity.
Qed.

Lemma rect_range (n k : Z) (f : Z -> Z -> Q) :
  rect (Z.to_nat n) (Z.to_nat k)
       (map (fun i => map (fun j => f i j) (range k)) (range n)).
Proof.
  split.
  - now rewrite length_map, range_length.
  - apply Forall_map, Forall_forall. intros i _.
    now rewrite length_map, range_length.
Qed.

Lemma rect_zoom (m : matrix) (zh zw : Q) :
  let '(h, w) := shape m in
  rect (Z.to_nat (Py.round (inject_Z h * zh)))
       (Z.to_nat (Py.round (inject_Z w * zw)))
       (Scipy.zoom m zh zw).
Proof.
  unfold Scipy.zoom. destruct (shape m) as [h w]. apply rect_range.
Qed.

Lemma crop_exact (h w : nat) (m : matrix) :
  rect h w m ->
  AudioProcessor.crop m (Z.of_nat h) (Z.of_nat w) = m.
Proof.
  intros [Hlen Hrows]. unfold AudioProcessor.crop.
  rewrite !Nat2Z.id, <- Hlen, firstn_all.
  clear Hlen. induction Hrows as [| row m Hrow _ IH]; simpl.
  - reflexivity.
  - rewrite IH, <- Hrow, firstn_all. reflexivity.
Qed.

(** On an array that is not empty and a positive target, the resize
    succeeds and is the zoomed array itself: its shape is already the
    target, the crop takes nothing away. *)
Lemma resize_spectrogram_zoom (m : matrix) (h w : nat) (H W : Z) :
  (0 < h)%nat -> (0 < w)%nat -> rect h w m -> 0 < H -> 0 < W ->
  AudioProcessor.resize_spectrogram m (H, W)
  = Ok (Scipy.zoom m (inject_Z H / inject_Z (Z.of_nat h))
                     (inject_Z W / inject_Z (Z.of_nat w))) /\
  rect (Z.to_nat H) (Z.to_nat W)
       (Scipy.zoom m (inject_Z H / inject_Z (Z.of_nat h))
                     (inject_Z W / inject_Z (Z.of_nat w))).
Proof.
  intros Hh Hw Hrect HH HW.
  pose proof (rect_shape h w m Hh Hrect) as Hshape.
  assert (Hz : rect (Z.to_nat H) (Z.to_nat W)
                 (Scipy.zoom m (inject_Z H / inject_Z (Z.of_nat h))
                               (inject_Z W / inject_Z (Z.of_nat w)))).
  { pose proof (rect_zoom m (inject_Z H / inject_Z (Z.of_nat h))
                            (inject_Z W / inject_Z (Z.of_nat w))) as Hr.
    rewrite Hshape in Hr.
    rewrite !scaled_dimension in Hr by lia. exact Hr. }
  split; [| exact Hz].
  unfold AudioProcessor.resize_spectrogram, size. rewrite Hshape.
  cbn [fst snd].
  destruct (Z.eqb_spec (Z.of_nat h * Z.of_nat w) 0) as [H0 | _]; [nia |].
  destruct (Z.leb_spec (Z.of_nat h) 0); [lia |].
  destruct (Z.leb_spec (Z.of_nat w) 0); [lia |].
  rewrite !scale_positive by lia. cbn [orb].
  f_equal.
  pose proof (crop_exact _ _ _ Hz) as Hcrop.
  rewrite !Z2Nat.id in Hcrop by lia. exact Hcrop.
Qed.

(** C5. Whatever the length of the window, as long as the signal read
    from it is not empty and librosa returns arrays that are not empty,
    [generate_mel_spectrogram] (which ends with [resize_spectrogram])
    returns a 2-D array whose shape is exactly the target size. *)
Theorem generate_mel_spectrogram_shape
    (E : env) (p : AudioProcessor.t) (audio_path : string)
    (target_size_arg : option (Z * Z)) (y : list Q) :
  let target_size :=
    match target_size_arg with
    | None => AudioProcessor.target_size p
    | Some ts => ts
    end in
  librosa_contract E ->
  audio_path <> ""%string ->
  path_exists E audio_path = true ->
  librosa_load E audio_path (AudioProcessor.segment_duration p) = Ok y ->
  y <> [] ->
  0 < fst target_size ->
  0 < snd target_size ->
  exists spectrogram,
    AudioProcessor.generate_mel_spectrogram E p audio_path target_size_arg
    = Ok spectrogram /\
    shape spectrogram = target_size /\
    rect (Z.to_nat (fst target_size)) (Z.to_nat (snd target_size)) spectrogram.
Proof.
  intros ts HE Hpath Hex Hload Hy HH HW.
  unfold AudioProcessor.generate_mel_spectrogram. fold ts.
  destruct (String.eqb_spec audio_path ""); [contradiction |].
  rewrite Hex, Hload. cbn [negb Py.bind].
  destruct (Z.eqb_spec (Z.of_nat (length y)) 0) as [H0 | _].
  { destruct y; [contradiction | discriminate]. }
  assert (Hy1 : exists y1,
             match preemphasis E y with
             | Ok y' => Ok y'
             | Raise e => if is_Exception e then Ok y else Raise e
             end = Ok y1 /\ y1 <> []).
  { destruct (preemphasis E y) as [y' | e] eqn:Hpre.
    - exists y'. split; [reflexivity |].
      apply (preemphasis_length E HE) in Hpre.
      destruct y', y; simpl in Hpre; congruence.
    - rewrite (preemphasis_raises_exceptions E HE _ _ Hpre). eauto. }
  destruct Hy1 as (y1 & -> & Hy1). cbn [Py.bind].
  destruct (melspectrogram_shape E HE y1 Hy1) as (mel & h & w & -> & Hmel).
  cbn [Py.bind]. unfold size. rewrite (rect_shape _ _ _ (Nat.lt_0_succ h) Hmel).
  cbn [fst snd].
  destruct (Z.eqb_spec (Z.of_nat (S h) * Z.of_nat (S w)) 0); [nia |].
  destruct (power_to_db_shape E HE mel _ _ Hmel) as (db & -> & Hdb).
  cbn [Py.bind].
  destruct ts as [H W]. cbn [fst snd] in *.
  destruct (resize_spectrogram_zoom db (S h) (S w) H W)
    as [-> Hz]; try lia; [exact Hdb |].
  eexists. split; [reflexivity |]. split; [| exact Hz].
  assert (Hpos : (0 < Z.to_nat H)%nat) by lia.
  rewrite (rect_shape _ _ _ Hpos Hz). f_equal; lia.
Qed.

(** The environment of the concrete runs keeps this contract. *)
Lemma studio_contract (clip : result AudioSegment)
    (scores : string -> result (list (list Q))) :
  librosa_contract (Scenario.studio clip scores).
Proof.
  constructor; cbn.
  - intros y y' H. now injection H as <-.
  - discriminate.
  - intros y _. eexists. exists 2%nat, 4%nat. split; [reflexivity |].
    split; [reflexivity | repeat constructor].
  - intros m h w Hm. eauto.
Qed.

(** The default processor on an exported segment: a 128 x 128 array. *)
Lemma generate_mel_spectrogram_shape_witness :
  exists spectrogram,
    AudioProcessor.generate_mel_spectrogram
      (Scenario.studio (Ok (Scenario.clip_of 7000)) Scenario.sure_of_blocks)
      AudioProcessor.default "/tmp/run/segment_1.wav" None
    = Ok spectrogram /\
    shape spectrogram = (128, 128) /\
    rect 128 128 spectrogram.
Proof.
  apply (generate_mel_spectrogram_shape
           (Scenario.studio (Ok (Scenario.clip_of 7000))
                            Scenario.sure_of_blocks)
           AudioProcessor.default "/tmp/run/segment_1.wav" None
           [1; 0; -1; 0]%Q).
  - apply studio_contract.
  - discriminate.
  - reflexivity.
  - reflexivity.
  - discriminate.
  - reflexivity.
  - reflexivity.
Defined.

(** ** Resizing at the target size *)

Lemma coord_same_size (n i : Z) :
  0 < n -> (Scipy.coord n n i == inject_Z i)%Q.
Proof.
  intros Hn. unfold Scipy.coord.
  destruct (Z.eqb_spec (n - 1) 0) as [_ | Hne].
  - ring.
  - field. apply inject_Z_nonzero. exact Hne.
Qed.

(** With as many output points as input points, each output point is
    the input point at the same place. *)
Lemma zoom_pixel_same_size (m : matrix) (h w : Z) (i j : nat) :
  0 < h -> 0 < w ->
  (Scipy.zoom_pixel m h w h w (Z.of_nat i) (Z.of_nat j)
   == nth j (nth i m []) 0)%Q.
Proof.
  intros Hh Hw. unfold Scipy.zoom_pixel.
  pose proof (coord_same_size h (Z.of_nat i) Hh) as Hi.
  pose proof (coord_same_size w (Z.of_nat j) Hw) as Hj.
  rewrite (Qfloor_comp _ _ Hi), (Qfloor_comp _ _ Hj), !Qfloor_Z.
  rewrite Hi, Hj.
  unfold Scipy.at2 at 1. rewrite !Nat2Z.id. ring.
Qed.

Lemma Forall2_map_seq {A B : Type} (R : B -> A -> Prop) (f : Z -> B)
    (d : A) (l : list A) :
  forall start : nat,
    (forall i, (i < length l)%nat ->
               R (f (Z.of_nat (start + i))) (nth i l d)) ->
    Forall2 R (map f (map Z.of_nat (seq start (length l)))) l.
Proof.
  induction l as [| a l IH]; intros start Hall; simpl.
  - constructor.
  - constructor.
    + specialize (Hall 0%nat). rewrite Nat.add_0_r in Hall.
      apply Hall. simpl. lia.
    + apply IH. intros i Hi.
      replace (S start + i)%nat with (start + S i)%nat by lia.
      apply (Hall (S i)). simpl. lia.
Qed.

Lemma Forall2_map_range {A B : Type} (R : B -> A -> Prop) (f : Z -> B)
    (d : A) (l : list A) (n : Z) :
  n = Z.of_nat (length l) ->
  (forall i, (i < length l)%nat -> R (f (Z.of_nat i)) (nth i l d)) ->
  Forall2 R (map f (range n)) l.
Proof.
  intros -> Hall. unfold range. rewrite Nat2Z.id.
  apply (Forall2_map_seq R f d l 0). exact Hall.
Qed.

(** C9. An array whose shape is already the target [(H, W)] comes back
    from [resize_spectrogram] with every entry equal, as a rational, to
    the entry it had. *)
Theorem resize_spectrogram_at_target_size (m : matrix) (H W : Z) :
  0 < H ->
  0 < W ->
  rect (Z.to_nat H) (Z.to_nat W) m ->
  exists resized,
    AudioProcessor.resize_spectrogram m (H, W) = Ok resized /\
    shape resized = (H, W) /\
    Forall2 (Forall2 Qeq) resized m.
Proof.
  intros HH HW Hrect.
  assert (Hh : (0 < Z.to_nat H)%nat) by lia.
  assert (Hw : (0 < Z.to_nat W)%nat) by lia.
  destruct (resize_spectrogram_zoom m _ _ H W Hh Hw Hrect HH HW)
    as [Hres Hz].
  eexists. split; [exact Hres |]. split.
  { rewrite (rect_shape _ _ _ Hh Hz). f_equal; lia. }
  unfold Scipy.zoom.
  rewrite (rect_shape _ _ _ Hh Hrect), !Z2Nat.id by lia.
  rewrite !scaled_dimension by lia.
  destruct Hrect as [Hlen Hrows].
  apply (Forall2_map_range _ _ []); [lia |]. intros i Hi.
  assert (Hrow : length (nth i m []) = Z.to_nat W).
  { rewrite Forall_forall in Hrows. apply Hrows, nth_In, Hi. }
  apply (Forall2_map_range _ _ 0%Q); [lia |]. intros j Hj.
  apply zoom_pixel_same_size; assumption.
Qed.

(** A 2 x 3 array resized to 2 x 3. *)
Lemma resize_spectrogram_at_target_size_witness :
  exists resized,
    AudioProcessor.resize_spectrogram [[1; 2; 3]; [4; 5; 6]]%Q (2, 3)
    = Ok resized /\
    shape resized = (2, 3) /\
    Forall2 (Forall2 Qeq) resized [[1; 2; 3]; [4; 5; 6]]%Q.
Proof.
  apply (resize_spectrogram_at_target_size [[1; 2; 3]; [4; 5; 6]]%Q 2 3).
  - reflexivity.
  - reflexivity.
  - split; [reflexivity | repeat constructor].
Defined.

(** * Further properties of the code *)

(** ** The constructor of the processor *)

Lemma Qltb_true (x y : Q) : Qltb x y = true <-> (x < y)%Q.
Proof.
  unfold Qltb. rewrite negb_true_iff. split.
  - intros H. apply Qnot_le_lt. intros Hle.
    apply Qle_bool_iff in Hle. congruence.
  - intros H. destruct (Qle_bool y x) eqn:Hb; [| reflexivity].
    apply Qle_bool_iff in Hb. exfalso. eapply Qlt_not_le; eassumption.
Qed.

Lemma Qle_bool_false (x y : Q) : Qle_bool x y = false <-> (y < x)%Q.
Proof.
  rewrite <- Qltb_true. unfold Qltb. now rewrite negb_true_iff.
Qed.

Lemma int_monotone (x y : Q) :
  (0 <= x)%Q -> (x <= y)%Q -> 0 <= Py.int x <= Py.int y.
Proof.
  intros Hx Hxy.
  rewrite !int_nonneg by (try assumption; eapply Qle_trans; eassumption).
  split.
  - change 0 with (Qfloor 0). now apply Qfloor_resp_le.
  - now apply Qfloor_resp_le.
Qed.

(** ** Rounding to a double *)

Lemma pow2_pos (k : Z) : (0 < Float.pow2 k)%Q.
Proof. apply Qpower_0_lt. reflexivity. Qed.

Lemma pow2_plus (a b : Z) :
  (Float.pow2 (a + b) == Float.pow2 a * Float.pow2 b)%Q.
Proof. apply Qpower_plus. discriminate. Qed.

Lemma pow2_le (a b : Z) : a <= b -> (Float.pow2 a <= Float.pow2 b)%Q.
Proof. intros H. apply Qpower_le_compat_l; [exact H | discriminate]. Qed.

Lemma pow2_lt_inv (a b : Z) : (Float.pow2 a < Float.pow2 b)%Q -> a < b.
Proof. intros H. eapply Qpower_lt_compat_l_inv; [exact H | reflexivity]. Qed.

Lemma pow2_Z (k : Z) : 0 <= k -> (Float.pow2 k == inject_Z (2 ^ k))%Q.
Proof. intros H. symmetry. apply (Zpower_Qpower 2 k H). Qed.

Lemma pow2_split (a b : Z) :
  (Float.pow2 a == Float.pow2 (a - b) * Float.pow2 b)%Q.
Proof. rewrite <- pow2_plus. now replace (a - b + b) with a by lia. Qed.

Lemma ilog2_spec (x : Q) :
  (0 < x)%Q ->
  (Float.pow2 (Float.ilog2 x) <= x)%Q /\
  (x < Float.pow2 (Float.ilog2 x + 1))%Q.
Proof.
  intros Hx. unfold Float.ilog2.
  destruct x as [n d]. cbn [Qnum Qden].
  assert (Hn : 0 < n) by (unfold Qlt in Hx; simpl in Hx; lia).
  set (a := Z.log2 n). set (b := Z.log2 (Z.pos d)).
  destruct (Z.log2_spec n Hn) as [Hn1 Hn2].
  destruct (Z.log2_spec (Z.pos d) eq_refl) as [Hd1 Hd2].
  fold a in Hn1, Hn2. fold b in Hd1, Hd2.
  assert (Ha : 0 <= a) by apply Z.log2_nonneg.
  assert (Hb : 0 <= b) by apply Z.log2_nonneg.
  assert (Hdq : (0 < inject_Z (Z.pos d))%Q) by reflexivity.
  assert (Hxq : (n # d == inject_Z n / inject_Z (Z.pos d))%Q)
    by apply Qmake_Qdiv.
  assert (Hup : (n # d < Float.pow2 (a - b + 1))%Q).
  { rewrite Hxq. apply Qlt_shift_div_r; [exact Hdq |].
    apply Qlt_le_trans with (Float.pow2 (a - b + 1) * Float.pow2 b)%Q.
    - rewrite <- pow2_plus. replace (a - b + 1 + b) with (Z.succ a) by lia.
      rewrite pow2_Z by lia. rewrite <- Zlt_Qlt. exact Hn2.
    - apply Qmult_le_l; [apply pow2_pos |].
      rewrite pow2_Z by lia. rewrite <- Zle_Qle. exact Hd1. }
  assert (Hlow : (Float.pow2 (a - b - 1) <= n # d)%Q).
  { rewrite Hxq. apply Qle_shift_div_l; [exact Hdq |].
    apply Qle_trans with (Float.pow2 (a - b - 1) * Float.pow2 (Z.succ b))%Q.
    - apply Qmult_le_l; [apply pow2_pos |].
      rewrite pow2_Z by lia. rewrite <- Zle_Qle. lia.
    - rewrite <- pow2_plus. replace (a - b - 1 + Z.succ b) with a by lia.
      rewrite pow2_Z by lia. rewrite <- Zle_Qle. exact Hn1. }
  destruct (Qle_bool (Float.pow2 (a - b)) (n # d)) eqn:Hle.
  - apply Qle_bool_iff in Hle. split; [exact Hle | exact Hup].
  - split; [exact Hlow |].
    replace (a - b - 1 + 1) with (a - b) by lia.
    apply Qnot_le_lt. intros H. apply Qle_bool_iff in H. congruence.
Qed.

Lemma ilog2_below (x : Q) (e : Z) :
  (0 < x)%Q -> (x < Float.pow2 (e + 1))%Q -> Float.ilog2 x <= e.
Proof.
  intros Hx Hlt. destruct (ilog2_spec x Hx) as [Hlow _].
  assert (H : Float.ilog2 x < e + 1)
    by (apply pow2_lt_inv; eapply Qle_lt_trans; eassumption).
  lia.
Qed.

Lemma ilog2_above (x : Q) (e : Z) :
  (0 < x)%Q -> (Float.pow2 e <= x)%Q -> e <= Float.ilog2 x.
Proof.
  intros Hx Hle. destruct (ilog2_spec x Hx) as [_ Hup].
  assert (H : e < Float.ilog2 x + 1)
    by (apply pow2_lt_inv; eapply Qle_lt_trans; eassumption).
  lia.
Qed.

Lemma ilog2_mono (x y : Q) :
  (0 < x)%Q -> (x <= y)%Q -> Float.ilog2 x <= Float.ilog2 y.
Proof.
  intros Hx Hxy. apply ilog2_above.
  - eapply Qlt_le_trans; eassumption.
  - eapply Qle_trans; [apply (ilog2_spec x Hx) | exact Hxy].
Qed.

(** [round] to the nearest int is monotone. *)
Lemma round_floor (x : Q) : Qfloor x <= Py.round x <= Qfloor x + 1.
Proof.
  unfold Py.round.
  destruct (Qcompare _ _); [destruct (Z.even _) | |]; lia.
Qed.

Lemma round_mono (x y : Q) : (x <= y)%Q -> Py.round x <= Py.round y.
Proof.
  intros Hxy.
  pose proof (Qfloor_resp_le x y Hxy) as Hf.
  destruct (Z.eq_dec (Qfloor x) (Qfloor y)) as [Heq | Hne].
  - pose proof (round_floor x) as Hx. pose proof (round_floor y) as Hy.
    unfold Py.round in *. rewrite <- Heq in *.
    set (f := Qfloor x) in *.
    destruct (Qcompare_spec (x - inject_Z f) (1 # 2)) as [Hx1 | Hx1 | Hx1].
    + destruct (Qcompare_spec (y - inject_Z f) (1 # 2)) as [Hy1 | Hy1 | Hy1].
      * lia.
      * exfalso. apply (Qlt_irrefl (1 # 2)).
        rewrite <- Hx1 at 1. eapply Qle_lt_trans; [| exact Hy1].
        apply Qplus_le_l with (z := inject_Z f). ring_simplify. exact Hxy.
      * destruct (Z.even f); lia.
    + lia.
    + destruct (Qcompare_spec (y - inject_Z f) (1 # 2)) as [Hy1 | Hy1 | Hy1].
      * exfalso. apply (Qlt_irrefl (1 # 2)).
        eapply Qlt_le_trans; [exact Hx1 |]. rewrite <- Hy1.
        apply Qplus_le_l with (z := inject_Z f). ring_simplify. exact Hxy.
      * exfalso. apply (Qlt_irrefl (1 # 2)).
        eapply Qlt_trans; [exact Hx1 |].
        eapply Qle_lt_trans; [| exact Hy1].
        apply Qplus_le_l with (z := inject_Z f). ring_simplify. exact Hxy.
      * lia.
  - pose proof (round_floor x). pose proof (round_floor y). lia.
Qed.

Lemma round_le_Z (x : Q) (z : Z) : (x <= inject_Z z)%Q -> Py.round x <= z.
Proof.
  intros H. rewrite <- (round_of_Z (inject_Z z) z) by reflexivity.
  apply round_mono, H.
Qed.

Lemma round_ge_Z (x : Q) (z : Z) : (inject_Z z <= x)%Q -> z <= Py.round x.
Proof.
  intros H. rewrite <- (round_of_Z (inject_Z z) z) at 1 by reflexivity.
  apply round_mono, H.
Qed.

(** The significand of a rounded positive number. *)
Lemma exponent_min (x : Q) : - 1074 <= Float.exponent x.
Proof. unfold Float.exponent. lia. Qed.

Lemma significand_bounds (x : Q) :
  (0 < x)%Q ->
  0 <= Py.round (x / Float.pow2 (Float.exponent x)) <= 2 ^ 53.
Proof.
  intros Hx. set (k := Float.exponent x).
  destruct (ilog2_spec x Hx) as [_ Hup].
  split.
  - apply round_ge_Z. apply Qle_shift_div_l; [apply pow2_pos |].
    rewrite Qmult_0_l. apply Qlt_le_weak, Hx.
  - apply round_le_Z. apply Qle_shift_div_r; [apply pow2_pos |].
    rewrite <- (pow2_Z 53) by lia. rewrite <- pow2_plus.
    apply Qlt_le_weak. eapply Qlt_le_trans; [exact Hup |].
    apply pow2_le. unfold k, Float.exponent. lia.
Qed.

Lemma significand_normal (x : Q) :
  (0 < x)%Q ->
  Float.exponent x = Float.ilog2 x - 52 ->
  2 ^ 52 <= Py.round (x / Float.pow2 (Float.exponent x)).
Proof.
  intros Hx Hk. destruct (ilog2_spec x Hx) as [Hlow _].
  apply round_ge_Z. apply Qle_shift_div_l; [apply pow2_pos |].
  rewrite <- (pow2_Z 52) by lia. rewrite <- pow2_plus.
  eapply Qle_trans; [| exact Hlow].
  apply pow2_le. lia.
Qed.

Lemma round_positive_nonneg (x : Q) :
  (0 < x)%Q -> (0 <= Float.round_positive x)%Q.
Proof.
  intros Hx. unfold Float.round_positive.
  apply Qmult_le_0_compat; [| apply Qlt_le_weak, pow2_pos].
  change 0%Q with (inject_Z 0). rewrite <- Zle_Qle.
  apply (significand_bounds x Hx).
Qed.

Lemma round_positive_mono (x y : Q) :
  (0 < x)%Q -> (x <= y)%Q ->
  (Float.round_positive x <= Float.round_positive y)%Q.
Proof.
  intros Hx Hxy.
  assert (Hy : (0 < y)%Q) by (eapply Qlt_le_trans; eassumption).
  pose proof (ilog2_mono x y Hx Hxy) as He.
  unfold Float.round_positive.
  destruct (Z.eq_dec (Float.exponent x) (Float.exponent y)) as [Heq | Hne].
  - rewrite Heq. apply Qmult_le_compat_r; [| apply Qlt_le_weak, pow2_pos].
    rewrite <- Zle_Qle. apply round_mono.
    apply Qmult_le_compat_r; [exact Hxy |].
    apply Qlt_le_weak, Qinv_lt_0_compat, pow2_pos.
  - assert (Hky : Float.exponent y = Float.ilog2 y - 52)
      by (unfold Float.exponent in *; lia).
    assert (Hlt : Float.exponent x + 1 <= Float.exponent y)
      by (unfold Float.exponent in *; lia).
    pose proof (significand_bounds x Hx) as [_ Hmx].
    pose proof (significand_normal y Hy Hky) as Hmy.
    apply Qle_trans with (Float.pow2 (Float.exponent x + 53)).
    + replace (Float.exponent x + 53) with (53 + Float.exponent x) by lia.
      rewrite pow2_plus.
      apply Qmult_le_compat_r; [| apply Qlt_le_weak, pow2_pos].
      rewrite (pow2_Z 53) by lia. rewrite <- Zle_Qle. exact Hmx.
    + apply Qle_trans with (Float.pow2 (52 + Float.exponent y)).
      * apply pow2_le. lia.
      * rewrite pow2_plus.
        apply Qmult_le_compat_r; [| apply Qlt_le_weak, pow2_pos].
        rewrite (pow2_Z 52) by lia. rewrite <- Zle_Qle. exact Hmy.
Qed.

Lemma Qnum_pos (x : Q) (n : positive) : Qnum x = Z.pos n -> (0 < x)%Q.
Proof. destruct x as [a d]. simpl. intros ->. reflexivity. Qed.

Lemma Qnum_neg (x : Q) (n : positive) :
  Qnum x = Z.neg n -> (x < 0)%Q /\ (0 < - x)%Q.
Proof. destruct x as [a d]. simpl. intros ->. split; reflexivity. Qed.

Lemma Qnum_zero (x : Q) : Qnum x = 0 -> (x == 0)%Q.
Proof. destruct x as [a d]. simpl. intros ->. reflexivity. Qed.

Lemma float_round_pos (x : Q) :
  (0 < x)%Q -> Float.round x = Float.round_positive x.
Proof.
  destruct x as [[| n | n] d]; unfold Qlt; simpl; intros H;
    [lia | reflexivity | lia].
Qed.

Lemma float_round_mono (x y : Q) :
  (x <= y)%Q -> (Float.round x <= Float.round y)%Q.
Proof.
  intros Hxy. unfold Float.round.
  destruct (Qnum x) as [| nx | nx] eqn:Hx;
    destruct (Qnum y) as [| ny | ny] eqn:Hy.
  - apply Qle_refl.
  - apply round_positive_nonneg, (Qnum_pos _ _ Hy).
  - exfalso. apply Qnum_zero in Hx. apply Qnum_neg in Hy as [Hy _].
    rewrite Hx in Hxy. exact (Qlt_irrefl _ (Qle_lt_trans _ _ _ Hxy Hy)).
  - exfalso. apply Qnum_pos in Hx. apply Qnum_zero in Hy.
    rewrite Hy in Hxy. exact (Qlt_irrefl _ (Qlt_le_trans _ _ _ Hx Hxy)).
  - apply round_positive_mono; [apply (Qnum_pos _ _ Hx) | exact Hxy].
  - exfalso. apply Qnum_pos in Hx. apply Qnum_neg in Hy as [Hy _].
    apply (Qlt_irrefl 0).
    eapply Qlt_trans; [exact Hx |]. eapply Qle_lt_trans; eassumption.
  - apply Qnum_neg in Hx as [_ Hx].
    apply (Qopp_le_compat 0), round_positive_nonneg, Hx.
  - apply Qnum_neg in Hx as [_ Hx]. apply Qnum_pos in Hy.
    apply Qle_trans with 0%Q.
    + apply (Qopp_le_compat 0), round_positive_nonneg, Hx.
    + apply round_positive_nonneg, Hy.
  - apply Qnum_neg in Hy as [_ Hy].
    apply Qopp_le_compat, round_positive_mono; [exact Hy |].
    apply Qopp_le_compat, Hxy.
Qed.

Lemma float_round_comp (x y : Q) :
  (x == y)%Q -> (Float.round x == Float.round y)%Q.
Proof.
  intros H. apply Qle_antisym; apply float_round_mono; rewrite H;
    apply Qle_refl.
Qed.

#[global] Instance float_round_proper : Proper (Qeq ==> Qeq) Float.round.
Proof. intros x y H. apply float_round_comp, H. Qed.

Lemma float_round_zero (x : Q) : (x == 0)%Q -> (Float.round x == 0)%Q.
Proof. intros H. rewrite (float_round_comp x 0 H). reflexivity. Qed.

Lemma float_round_nonneg (x : Q) : (0 <= x)%Q -> (0 <= Float.round x)%Q.
Proof.
  intros H. change 0%Q with (Float.round 0) at 1.
  apply float_round_mono, H.
Qed.

(** A number with a significand of 53 bits at most, and no bit below
    [2^-1074], is its own rounding. *)
Lemma representable_small (m j : Z) :
  0 < m < 2 ^ 53 -> - 1074 <= j ->
  (Float.round (inject_Z m * Float.pow2 j) == inject_Z m * Float.pow2 j)%Q.
Proof.
  intros Hm Hj.
  set (x := (inject_Z m * Float.pow2 j)%Q).
  assert (Hx : (0 < x)%Q).
  { apply Qmult_lt_0_compat; [| apply pow2_pos].
    change 0%Q with (inject_Z 0). rewrite <- Zlt_Qlt. lia. }
  rewrite (float_round_pos x Hx). unfold Float.round_positive.
  set (k := Float.exponent x).
  assert (Hk : k <= j).
  { unfold k, Float.exponent.
    assert (He : Float.ilog2 x <= 52 + j).
    { apply ilog2_below; [exact Hx |]. unfold x.
      replace (52 + j + 1) with (53 + j) by lia. rewrite pow2_plus.
      apply Qmult_lt_compat_r; [apply pow2_pos |].
      rewrite pow2_Z by lia. rewrite <- Zlt_Qlt. lia. }
    lia. }
  assert (Hq : (x / Float.pow2 k == inject_Z (m * 2 ^ (j - k)))%Q).
  { unfold x. rewrite (pow2_split j k). rewrite inject_Z_mult.
    rewrite <- (pow2_Z (j - k)) by lia.
    field. intros H0. pose proof (pow2_pos k) as Hp.
    rewrite H0 in Hp. discriminate. }
  rewrite (round_of_Z _ _ Hq). unfold x.
  rewrite inject_Z_mult, <- (pow2_Z (j - k)) by lia.
  rewrite (pow2_split j k). ring.
Qed.

Lemma representable (m j : Z) :
  0 <= m <= 2 ^ 53 -> - 1074 <= j ->
  (Float.round (inject_Z m * Float.pow2 j) == inject_Z m * Float.pow2 j)%Q.
Proof.
  intros Hm Hj.
  destruct (Z.eq_dec m 0) as [-> | H0].
  - rewrite float_round_zero; ring.
  - destruct (Z.eq_dec m (2 ^ 53)) as [-> | H53].
    + assert (H : (inject_Z (2 ^ 53) * Float.pow2 j
                   == inject_Z (2 ^ 52) * Float.pow2 (j + 1))%Q).
      { rewrite (Z.add_comm j 1), pow2_plus.
        change (Float.pow2 1) with 2%Q.
        change (inject_Z (2 ^ 53)) with (inject_Z (2 ^ 52) * 2)%Q. ring. }
      rewrite (float_round_comp _ _ H), H.
      apply representable_small; lia.
    + apply representable_small; lia.
Qed.

Lemma float_round_Z (z : Z) :
  0 <= z <= 2 ^ 53 -> (Float.round (inject_Z z) == inject_Z z)%Q.
Proof.
  intros Hz.
  assert (H : (inject_Z z == inject_Z z * Float.pow2 0)%Q)
    by (change (Float.pow2 0) with 1%Q; ring).
  rewrite H at 1. rewrite representable by lia. symmetry. exact H.
Qed.

Lemma float_round_idempotent_nonneg (x : Q) :
  (0 <= x)%Q -> (Float.round (Float.round x) == Float.round x)%Q.
Proof.
  intros Hx. destruct (Qnum x) as [| n | n] eqn:Hn.
  - assert (H0 : (Float.round x == 0)%Q)
      by (apply float_round_zero, Qnum_zero, Hn).
    rewrite (float_round_comp _ _ H0), H0. reflexivity.
  - apply Qnum_pos in Hn. rewrite (float_round_pos x Hn).
    unfold Float.round_positive.
    apply representable; [apply significand_bounds, Hn | apply exponent_min].
  - exfalso. apply Qnum_neg in Hn as [Hn _].
    exact (Qlt_irrefl _ (Qle_lt_trans _ _ _ Hx Hn)).
Qed.

(** The integer part of a double is a double. *)
Lemma int_of_float_representable (x : Q) :
  (0 <= x)%Q ->
  (Float.round (inject_Z (Py.int (Float.round x)))
   == inject_Z (Py.int (Float.round x)))%Q.
Proof.
  intros Hx. destruct (Qnum x) as [| n | n] eqn:Hn.
  - assert (H0 : (Float.round x == 0)%Q)
      by (apply float_round_zero, Qnum_zero, Hn).
    rewrite (int_of_Z _ 0 H0). reflexivity.
  - apply Qnum_pos in Hn. rewrite (float_round_pos x Hn).
    unfold Float.round_positive.
    set (k := Float.exponent x).
    set (m := Py.round (x / Float.pow2 k)).
    pose proof (significand_bounds x Hn) as Hm. fold k m in Hm.
    pose proof (exponent_min x) as Hk. fold k in Hk.
    destruct (Z_le_gt_dec 0 k) as [Hk0 | Hk0].
    + assert (H : (inject_Z m * Float.pow2 k == inject_Z (m * 2 ^ k))%Q)
        by (rewrite inject_Z_mult, pow2_Z by lia; reflexivity).
      rewrite (int_of_Z _ _ H).
      rewrite <- (float_round_comp _ _ H), <- H.
      apply representable; lia.
    + apply float_round_Z.
      assert (Hle : (inject_Z m * Float.pow2 k <= inject_Z m)%Q).
      { rewrite <- (Qmult_1_l (inject_Z m)) at 2.
        rewrite (Qmult_comm (inject_Z m)).
        apply Qmult_le_compat_r.
        - change 1%Q with (Float.pow2 0). apply pow2_le. lia.
        - change 0%Q with (inject_Z 0). rewrite <- Zle_Qle. lia. }
      assert (H0 : (0 <= inject_Z m * Float.pow2 k)%Q).
      { apply Qmult_le_0_compat; [| apply Qlt_le_weak, pow2_pos].
        change 0%Q with (inject_Z 0). rewrite <- Zle_Qle. lia. }
      pose proof (int_monotone _ _ H0 Hle) as Hi.
      rewrite (int_of_Z (inject_Z m) m) in Hi by reflexivity. lia.
  - exfalso. apply Qnum_neg in Hn as [Hn _].
    exact (Qlt_irrefl _ (Qle_lt_trans _ _ _ Hx Hn)).
Qed.

Lemma float_round_unit (x : Q) :
  (0 <= x)%Q -> (x <= 1)%Q ->
  (0 <= Float.round x)%Q /\ (Float.round x <= 1)%Q.
Proof.
  intros H0 H1. split; [apply float_round_nonneg, H0 |].
  rewrite <- (float_round_Z 1) by lia. apply float_round_mono, H1.
Qed.

Lemma float_mul_nonneg (x y : Q) :
  (0 <= x)%Q -> (0 <= y)%Q -> (0 <= Float.mul x y)%Q.
Proof.
  intros Hx Hy. unfold Float.mul. apply float_round_nonneg.
  apply Qmult_le_0_compat; apply float_round_nonneg; assumption.
Qed.

Lemma float_mul_mono (x x' y y' : Q) :
  (0 <= x)%Q -> (x <= x')%Q -> (0 <= y)%Q -> (y <= y')%Q ->
  (Float.mul x y <= Float.mul x' y')%Q.
Proof.
  intros Hx Hxx Hy Hyy. unfold Float.mul. apply float_round_mono.
  apply Qle_trans with (Float.round x' * Float.round y)%Q.
  - apply Qmult_le_compat_r;
      [apply float_round_mono, Hxx | apply float_round_nonneg, Hy].
  - rewrite !(Qmult_comm (Float.round x')).
    apply Qmult_le_compat_r; [apply float_round_mono, Hyy |].
    apply float_round_nonneg. exact (Qle_trans _ _ _ Hx Hxx).
Qed.

Lemma float_sub_unit (r : Q) :
  (0 <= r)%Q -> (r <= 1)%Q ->
  (0 <= Float.sub 1 r)%Q /\ (Float.sub 1 r <= 1)%Q.
Proof.
  intros H0 H1. destruct (float_round_unit r H0 H1) as [Hr0 Hr1].
  unfold Float.sub. rewrite (float_round_Z 1) by lia.
  apply float_round_unit.
  - apply Qle_minus_iff in Hr1. exact Hr1.
  - apply Qle_minus_iff. ring_simplify. exact Hr0.
Qed.

(** A product by a factor between 0 and 1 does not exceed the
    integer it scales, when that integer is the integer part of a
    double. *)
Lemma int_scaled_down (x t : Q) :
  (0 <= x)%Q -> (0 <= t)%Q -> (t <= 1)%Q ->
  0 <= Py.int (Float.mul (inject_Z (Py.int (Float.round x))) t)
    <= Py.int (Float.round x).
Proof.
  intros Hx Ht0 Ht1.
  set (S := Py.int (Float.round x)).
  assert (HS : 0 <= S).
  { apply (int_monotone 0 (Float.round x)); [apply Qle_refl |].
    apply float_round_nonneg, Hx. }
  assert (HSq : (0 <= inject_Z S)%Q)
    by (change 0%Q with (inject_Z 0); rewrite <- Zle_Qle; exact HS).
  pose proof (int_of_float_representable x Hx) as Hrep. fold S in Hrep.
  destruct (float_round_unit t Ht0 Ht1) as [Hr0 Hr1].
  rewrite <- (int_of_Z (inject_Z S) S (Qeq_refl _)) at 3.
  apply int_monotone; [apply float_mul_nonneg; assumption |].
  unfold Float.mul. rewrite <- Hrep at 2. apply float_round_mono.
  rewrite Hrep. rewrite <- (Qmult_1_r (inject_Z S)) at 2.
  rewrite !(Qmult_comm (inject_Z S)).
  apply Qmult_le_compat_r; assumption.
Qed.

(** The constructor accepts its arguments exactly when the duration is
    positive, both target dimensions are positive, the overlap is in
    [0, 1) and the minimum is positive and at most the duration. An
    accepted processor has, in milliseconds, a minimum between 0 and
    the segment duration and a step between 0 and the segment
    duration. *)
Theorem init_accepts_valid_parameters
    (segment_duration : Q) (target_size : Z * Z)
    (overlap_ratio min_segment_duration : Q) :
  ((exists p, AudioProcessor.init segment_duration target_size overlap_ratio
                                  min_segment_duration = Ok p)
   <->
   ((0 < segment_duration)%Q /\
    0 < fst target_size /\ 0 < snd target_size /\
    (0 <= overlap_ratio)%Q /\ (overlap_ratio < 1)%Q /\
    (0 < min_segment_duration)%Q /\
    (min_segment_duration <= segment_duration)%Q))
  /\
  (forall p,
      AudioProcessor.init segment_duration target_size overlap_ratio
                          min_segment_duration = Ok p ->
      0 <= AudioProcessor.min_segment_duration_ms p
        <= AudioProcessor.segment_duration_ms p /\
      0 <= AudioProcessor.step_size_ms p
        <= AudioProcessor.segment_duration_ms p /\
      AudioProcessor.temp_dir p = None).
Proof.
  unfold AudioProcessor.init.
  destruct (Qle_bool segment_duration 0) eqn:H1.
  { apply Qle_bool_iff in H1. split; [split |]; try discriminate.
    - intros [p Hp]; discriminate.
    - intros (H & _). exfalso. eapply Qlt_not_le; eassumption. }
  apply Qle_bool_false in H1.
  destruct (Z.leb_spec (fst target_size) 0) as [H2 | H2]; cbn [orb].
  { split; [split |]; try discriminate.
    - intros [p Hp]; discriminate.
    - intros (_ & H & _). lia. }
  destruct (Z.leb_spec (snd target_size) 0) as [H3 | H3]; cbn [orb].
  { split; [split |]; try discriminate.
    - intros [p Hp]; discriminate.
    - intros (_ & _ & H & _). lia. }
  destruct (Qle_bool 0 overlap_ratio) eqn:H4; cbn [andb negb].
  2:{ apply Qle_bool_false in H4. split; [split |]; try discriminate.
      - intros [p Hp]; discriminate.
      - intros (_ & _ & _ & H & _). exfalso. eapply Qlt_not_le; eassumption. }
  apply Qle_bool_iff in H4.
  destruct (Qltb overlap_ratio 1) eqn:H5; cbn [negb].
  2:{ split; [split |]; try discriminate.
      - intros [p Hp]; discriminate.
      - intros (_ & _ & _ & _ & H & _). apply Qltb_true in H. congruence. }
  apply Qltb_true in H5.
  destruct (Qle_bool min_segment_duration 0) eqn:H6.
  { apply Qle_bool_iff in H6. split; [split |]; try discriminate.
    - intros [p Hp]; discriminate.
    - intros (_ & _ & _ & _ & _ & H & _).
      exfalso. eapply Qlt_not_le; eassumption. }
  apply Qle_bool_false in H6.
  destruct (Qltb segment_duration min_segment_duration) eqn:H7.
  { apply Qltb_true in H7. split; [split |]; try discriminate.
    - intros [p Hp]; discriminate.
    - intros (_ & _ & _ & _ & _ & _ & H).
      exfalso. eapply Qlt_not_le; eassumption. }
  assert (H7' : (min_segment_duration <= segment_duration)%Q).
  { apply Qnot_lt_le. intros H. apply Qltb_true in H. congruence. }
  split; [split; [tauto | eauto] |].
  intros p Hp. injection Hp as <-.
  unfold AudioProcessor.min_segment_duration_ms,
    AudioProcessor.segment_duration_ms, AudioProcessor.step_size_ms.
  cbn [AudioProcessor.min_segment_duration AudioProcessor.segment_duration
       AudioProcessor.overlap_ratio AudioProcessor.temp_dir].
  assert (Hmin : 0 <= Py.int (Float.mul min_segment_duration 1000)
                   <= Py.int (Float.mul segment_duration 1000)).
  { apply int_monotone.
    - apply float_mul_nonneg; [now apply Qlt_le_weak | discriminate].
    - apply float_mul_mono;
        [now apply Qlt_le_weak | assumption | discriminate | apply Qle_refl]. }
  split; [exact Hmin |]. split; [| reflexivity].
  unfold Float.mul at 2 3.
  apply int_scaled_down.
  - apply Qmult_le_0_compat; apply float_round_nonneg;
      [now apply Qlt_le_weak | discriminate].
  - apply float_sub_unit; [exact H4 | now apply Qlt_le_weak].
  - apply float_sub_unit; [exact H4 | now apply Qlt_le_weak].
Qed.

(** The defaults of the constructor. *)
Lemma init_accepts_valid_parameters_witness :
  0 <= AudioProcessor.min_segment_duration_ms AudioProcessor.default
    <= AudioProcessor.segment_duration_ms AudioProcessor.default /\
  0 <= AudioProcessor.step_size_ms AudioProcessor.default
    <= AudioProcessor.segment_duration_ms AudioProcessor.default /\
  AudioProcessor.temp_dir AudioProcessor.default = None.
Proof.
  apply (proj2 (init_accepts_valid_parameters 3 (128, 128) (1 # 2) 1)).
  reflexivity.
Defined.

(** ** The windows of short and long clips *)

Lemma range_In (n x : Z) : In x (range n) <-> 0 <= x < n.
Proof.
  unfold range. rewrite in_map_iff. split.
  - intros (i & <- & Hi). apply in_seq in Hi. lia.
  - intros Hx. exists (Z.to_nat x). split; [lia |]. apply in_seq. lia.
Qed.

Lemma slice_all (a : AudioSegment) : slice a 0 (len a) = a.
Proof.
  unfold slice, len. rewrite Nat2Z.id, firstn_all. reflexivity.
Qed.

(** A clip that is no longer than one segment gives exactly one window,
    from 0 to the clip's length (the minimum, when the clip is shorter
    than that: silence is added after the clip, nothing of it is cut).
    The exported segment has that length, or the full segment length
    when that length reaches 0.8 of it. *)
Theorem short_clip_single_window (p : AudioProcessor.t) (audio : AudioSegment) :
  let D := len audio in
  let m := AudioProcessor.min_segment_duration_ms p in
  let S := AudioProcessor.segment_duration_ms p in
  D <= S ->
  m <= S ->
  exists w,
    AudioProcessor.windows p audio = Ok [w] /\
    AudioProcessor.index w = 0 /\
    AudioProcessor.start_ms w = 0 /\
    AudioProcessor.end_ms w = Z.max D m /\
    AudioProcessor.natural w = audio ++ silent (m - D) /\
    ((Z.max D m < S /\ (inject_Z S * (8 # 10) <= inject_Z (Z.max D m))%Q ->
      len (AudioProcessor.segment w) = S) /\
     (~ (Z.max D m < S /\ (inject_Z S * (8 # 10) <= inject_Z (Z.max D m))%Q) ->
      AudioProcessor.segment w = AudioProcessor.natural w /\
      len (AudioProcessor.segment w) = Z.max D m)).
Proof.
  intros D m S HD Hm.
  set (audio' := audio ++ silent (m - D)).
  assert (Hlen : len audio' = Z.max D m).
  { unfold audio'. rewrite len_app, len_silent. fold D. lia. }
  assert (Hpad : (if D <? m then audio ++ silent (m - D) else audio) = audio').
  { unfold audio'. destruct (Z.ltb_spec D m); [reflexivity |].
    unfold silent. replace (Z.to_nat (m - D)) with 0%nat by lia.
    simpl. now rewrite app_nil_r. }
  assert (Hnat : slice audio' (0 * AudioProcessor.step_size_ms p)
                   (Z.min (0 * AudioProcessor.step_size_ms p + S) (len audio'))
                 = audio').
  { rewrite Z.mul_0_l, Z.add_0_l, Z.min_r by lia. apply slice_all. }
  eexists. split.
  - unfold AudioProcessor.windows. fold D S m.
    destruct (Z.leb_spec D S); [| lia]. rewrite Hpad. reflexivity.
  - change (Z.of_nat 0) with 0. unfold AudioProcessor.make_window.
    cbn [AudioProcessor.index AudioProcessor.start_ms AudioProcessor.end_ms
         AudioProcessor.natural AudioProcessor.segment].
    fold S. rewrite Hnat.
    split; [reflexivity |]. split; [reflexivity |].
    split; [rewrite Z.mul_0_l, Z.add_0_l; lia |]. split; [reflexivity |].
    pose proof (pad_segment_cases p audio') as Hc. cbv zeta in Hc.
    rewrite Hlen in Hc. fold m S in Hc.
    destruct Hc as [(H1 & _) | [(H1 & H2 & H3 & ->) | (H1 & H2 & ->)]].
    + lia.
    + split.
      * intros _. rewrite len_app, len_silent, Hlen. lia.
      * intros Hn. exfalso. apply Hn. auto.
    + split.
      * intros (Ha & Hb). destruct H2 as [H2 | H2]; [| lia].
        exfalso. eapply Qlt_not_le; eassumption.
      * intros _. auto.
Qed.

(** Half a second of audio under the default processor: one window of
    1000 ms, the audio and then 500 ms of silence. *)
Lemma short_clip_single_window_witness :
  exists w,
    AudioProcessor.windows AudioProcessor.default (Scenario.clip_of 500)
    = Ok [w] /\
    AudioProcessor.end_ms w = 1000 /\
    AudioProcessor.natural w = Scenario.clip_of 500 ++ silent 500 /\
    len (AudioProcessor.segment w) = 1000.
Proof.
  destruct (short_clip_single_window AudioProcessor.default
                                     (Scenario.clip_of 500))
    as (w & Hw & _ & _ & Hend & Hnat & _ & Hseg).
  - vm_compute. discriminate.
  - vm_compute. discriminate.
  - exists w. split; [exact Hw |]. split; [exact Hend |].
    split; [exact Hnat |]. apply Hseg.
    intros [_ H]. vm_compute in H. apply H. reflexivity.
Defined.

(** In a clip longer than one segment every window is a full segment:
    nothing is padded, no window reaches past the end of the clip, and
    what the windows leave unread at the end of the clip is shorter than
    one step. *)
Theorem long_clip_full_windows (p : AudioProcessor.t) (audio : AudioSegment) :
  let D := len audio in
  let m := AudioProcessor.min_segment_duration_ms p in
  let S := AudioProcessor.segment_duration_ms p in
  let step := AudioProcessor.step_size_ms p in
  S < D ->
  0 < step ->
  0 <= S ->
  m <= S ->
  exists ws,
    AudioProcessor.windows p audio = Ok ws /\
    (forall w, In w ws ->
       AudioProcessor.end_ms w = AudioProcessor.start_ms w + S /\
       AudioProcessor.end_ms w <= D /\
       len (AudioProcessor.natural w) = S /\
       AudioProcessor.segment w = AudioProcessor.natural w) /\
    (exists w, In w ws /\ D - step < AudioProcessor.end_ms w).
Proof.
  intros D m S step HD Hstep HS Hm.
  eexists. split; [apply windows_long; assumption |]. fold D S step.
  assert (Hq : 0 <= (D - S) / step) by (apply Z.div_pos; lia).
  split.
  - intros w Hw. apply in_map_iff in Hw as (x & <- & Hx).
    apply range_In in Hx.
    assert (Hfit : x * step + S <= D).
    { pose proof (long_clip_window_fits p D (Z.to_nat x) HD Hstep) as Hf.
      fold S step in Hf. rewrite Z2Nat.id in Hf by lia. apply Hf. lia. }
    unfold AudioProcessor.make_window.
    cbn [AudioProcessor.end_ms AudioProcessor.start_ms AudioProcessor.natural
         AudioProcessor.segment]. fold S step.
    rewrite Z.min_l by lia.
    assert (Hlen : len (slice audio (x * step) (x * step + S)) = S).
    { rewrite len_slice; [lia | nia | lia | fold D; lia]. }
    repeat split; try lia. 
    pose proof (pad_segment_cases p (slice audio (x * step) (x * step + S)))
      as Hc. cbv zeta in Hc. rewrite Hlen in Hc. fold m S in Hc.
    destruct Hc as [(H1 & _) | [(_ & H2 & _) | (_ & _ & ->)]];
      [lia | lia | reflexivity].
  - exists (AudioProcessor.make_window p audio D ((D - S) / step)). split.
    + apply in_map. apply range_In. lia.
    + unfold AudioProcessor.make_window.
      cbn [AudioProcessor.end_ms]. fold S step.
      pose proof (Z.mul_div_le (D - S) step Hstep).
      pose proof (Z.mul_succ_div_gt (D - S) step Hstep). lia.
Qed.

(** Seven seconds under the default processor: the last second is not
    in any window. *)
Lemma long_clip_full_windows_witness :
  exists ws,
    AudioProcessor.windows AudioProcessor.default (Scenario.clip_of 7000)
    = Ok ws /\
    (forall w, In w ws ->
       AudioProcessor.end_ms w = AudioProcessor.start_ms w + 3000 /\
       AudioProcessor.end_ms w <= 7000 /\
       len (AudioProcessor.natural w) = 3000 /\
       AudioProcessor.segment w = AudioProcessor.natural w) /\
    (exists w, In w ws /\ 7000 - 1500 < AudioProcessor.end_ms w).
Proof.
  apply (long_clip_full_windows AudioProcessor.default (Scenario.clip_of 7000));
    vm_compute; (reflexivity || discriminate).
Defined.

(** ** The loop of segment_audio_file *)

Lemma or_continue_raises {A} (r : result A)
    (k : A -> result (option string)) (e : exn) :
  (forall a e', k a = Raise e' -> is_Exception e' = false) ->
  AudioProcessor.or_continue r k = Raise e -> is_Exception e = false.
Proof.
  intros Hk. unfold AudioProcessor.or_continue.
  destruct r as [a | e0]; [apply Hk |].
  destruct (is_Exception e0) eqn:Hcls; [discriminate |].
  intros H; injection H as <-. exact Hcls.
Qed.

(** The three steps let no [Exception] out. *)
Lemma feature_steps_raises (E : env) (p : AudioProcessor.t) (dir : string)
    (i : Z) (segment : AudioSegment) (e : exn) :
  AudioProcessor.feature_steps E p dir i segment = Raise e ->
  is_Exception e = false.
Proof.
  unfold AudioProcessor.feature_steps.
  apply or_continue_raises. intros _ e1.
  apply or_continue_raises. intros spectrogram e2.
  apply or_continue_raises. intros _ e3. discriminate.
Qed.

(** What one window lets out of the loop body: what is no
    [Exception], or a [MemoryError] of the cutting and padding. *)
Lemma process_window_raises (E : env) (p : AudioProcessor.t) (dir : string)
    (w : AudioProcessor.window) (e : exn) :
  AudioProcessor.process_window E p dir w = Raise e ->
  is_Exception e = false \/
  (is_MemoryError e = true /\
   slicing E (AudioProcessor.index w) = Raise e).
Proof.
  unfold AudioProcessor.process_window, AudioProcessor.or_skip, Py.bind.
  destruct (slicing E (AudioProcessor.index w)) as [[] | e0].
  - destruct (AudioProcessor.feature_steps E p dir _ _) as [r | e1] eqn:Hs;
      [discriminate |].
    pose proof (feature_steps_raises _ _ _ _ _ _ Hs) as Hcls.
    destruct (is_MemoryError e1); [intros H; injection H as <-; auto |].
    rewrite Hcls. intros H; injection H as <-. auto.
  - destruct (is_MemoryError e0) eqn:Hmem;
      [intros H; injection H as <-; auto |].
    destruct (is_Exception e0) eqn:Hcls; [discriminate |].
    intros H; injection H as <-. auto.
Qed.

(** The path a window adds to the result, if any. *)
Lemma segment_loop_ok (E : env) (p : AudioProcessor.t) (dir : string)
    (ws : list AudioProcessor.window) :
  forall acc paths,
    AudioProcessor.segment_loop E p dir ws acc = Ok paths ->
    paths = acc ++ flat_map
                     (fun w => match AudioProcessor.process_window E p dir w with
                               | Ok (Some path) => [path]
                               | _ => []
                               end) ws.
Proof.
  induction ws as [| w ws IH]; intros acc paths; simpl.
  - intros H; injection H as <-. now rewrite app_nil_r.
  - destruct (AudioProcessor.process_window E p dir w) as [[path |] | e];
      cbn [Py.bind]; [| | discriminate].
    + intros H. apply IH in H. now rewrite <- app_assoc in H.
    + apply IH.
Qed.

Lemma segment_loop_raise (E : env) (p : AudioProcessor.t) (dir : string)
    (ws : list AudioProcessor.window) :
  forall acc e,
    AudioProcessor.segment_loop E p dir ws acc = Raise e ->
    exists w, In w ws /\ AudioProcessor.process_window E p dir w = Raise e.
Proof.
  induction ws as [| w ws IH]; intros acc e; simpl; [discriminate |].
  destruct (AudioProcessor.process_window E p dir w) as [[path |] | e0] eqn:Hw;
    cbn [Py.bind].
  - intros H. apply IH in H as (w' & Hin & Hw'). eauto.
  - intros H. apply IH in H as (w' & Hin & Hw'). eauto.
  - intros H; injection H as <-. eauto.
Qed.

Lemma flat_map_length_le {A B} (f : A -> list B) (l : list A) :
  (forall a, (length (f a) <= 1)%nat) ->
  (length (flat_map f l) <= length l)%nat.
Proof.
  intros Hf. induction l as [| a l IH]; simpl; [lia |].
  rewrite length_app. specialize (Hf a). lia.
Qed.

(** When [segment_audio_file] returns, it returns at least one path:
    the spectrogram paths of exactly the windows on which export,
    spectrogram and image all succeeded, in the order of the windows.
    A window on which a step fails is left out and does not stop the
    others. *)
Theorem segment_audio_file_returns_successful_windows
    (E : env) (p : AudioProcessor.t) (input_file : string)
    (paths : list string) :
  AudioProcessor.segment_audio_file E p input_file = Ok paths ->
  paths <> [] /\
  exists dir audio ws,
    AudioProcessor.temp_dir p = Some dir /\
    from_file E input_file = Ok audio /\
    AudioProcessor.windows p audio = Ok ws /\
    paths = flat_map
              (fun w => match AudioProcessor.process_window E p dir w with
                        | Ok (Some path) => [path]
                        | _ => []
                        end) ws /\
    (length paths <= length ws)%nat.
Proof.
  unfold AudioProcessor.segment_audio_file.
  destruct (String.eqb input_file ""); [discriminate |].
  destruct (negb (path_exists E input_file)); [discriminate |].
  destruct (negb (readable E input_file)); [discriminate |].
  destruct (AudioProcessor.temp_dir p) as [dir |] eqn:Hdir; [| discriminate].
  destruct (from_file E input_file) as [audio |] eqn:Hfile; [| discriminate].
  cbn [Py.bind].
  destruct (len audio =? 0); [discriminate |].
  destruct (AudioProcessor.windows p audio) as [ws |] eqn:Hws;
    [| discriminate].
  cbn [Py.bind].
  destruct (AudioProcessor.segment_loop E p dir ws []) as [ps |] eqn:Hloop;
    [| discriminate].
  cbn [Py.bind]. destruct ps as [| path ps]; [discriminate |].
  intros H; injection H as <-. split; [discriminate |].
  exists dir, audio, ws.
  split; [reflexivity |]. split; [reflexivity |]. split; [exact Hws |].
  split.
  - apply segment_loop_ok in Hloop. exact Hloop.
  - apply segment_loop_ok in Hloop. rewrite Hloop. cbn [app].
    apply flat_map_length_le. intros w.
    destruct (AudioProcessor.process_window E p dir w) as [[q |] |];
      simpl; lia.
Qed.

(** Seven seconds, the disk full at the second segment: the first and
    the third spectrogram. *)
Lemma segment_audio_file_returns_successful_windows_witness :
  [("/tmp/run/spectrogram_1.png")%string; ("/tmp/run/spectrogram_3.png")%string]
  <> [] /\
  exists dir audio ws,
    AudioProcessor.temp_dir Cases.entered = Some dir /\
    from_file Cases.disk_full_on_second "a.wav" = Ok audio /\
    AudioProcessor.windows Cases.entered audio = Ok ws /\
    [("/tmp/run/spectrogram_1.png")%string; ("/tmp/run/spectrogram_3.png")%string]
    = flat_map
        (fun w => match AudioProcessor.process_window
                          Cases.disk_full_on_second Cases.entered dir w with
                  | Ok (Some path) => [path]
                  | _ => []
                  end) ws /\
    (length [("/tmp/run/spectrogram_1.png")%string;
             ("/tmp/run/spectrogram_3.png")%string] <= length ws)%nat.
Proof.
  apply (segment_audio_file_returns_successful_windows
           Cases.disk_full_on_second Cases.entered "a.wav").
  vm_compute. reflexivity.
Defined.

(** What the loop lets out was raised in one of the windows, and it
    is either no [Exception] (an interruption by the user) or a
    [MemoryError] of the cutting and padding of that window, which the
    loop raises again. An [Exception] of the export, of the spectrogram
    or of the image of a window never stops the segmentation, a
    [MemoryError] among them included. *)
Theorem segment_loop_lets_out
    (E : env) (p : AudioProcessor.t) (dir : string)
    (ws : list AudioProcessor.window) (acc : list string) (e : exn) :
  AudioProcessor.segment_loop E p dir ws acc = Raise e ->
  exists w,
    In w ws /\
    AudioProcessor.process_window E p dir w = Raise e /\
    (is_Exception e = false \/
     (is_MemoryError e = true /\
      slicing E (AudioProcessor.index w) = Raise e)) /\
    (is_Exception e = true ->
     forall segment,
       AudioProcessor.feature_steps E p dir (AudioProcessor.index w) segment
       <> Raise e).
Proof.
  intros H. apply segment_loop_raise in H as (w & Hin & Hw).
  exists w. split; [exact Hin |]. split; [exact Hw |].
  split; [eapply process_window_raises, Hw |].
  intros Hcls segment Hsteps.
  apply feature_steps_raises in Hsteps. congruence.
Qed.

(** The memory runs out while the second of three segments is cut,
    and in another run while it is exported: the first run stops, the
    second goes on without that segment. *)
Lemma segment_loop_lets_out_witness :
  let ws := map (AudioProcessor.make_window Cases.entered
                   (Scenario.clip_of 7000) 7000) (range 3) in
  (exists w,
      In w ws /\
      AudioProcessor.index w = 1 /\
      is_MemoryError Cases.out_of_memory = true /\
      slicing Cases.no_memory_to_cut_second (AudioProcessor.index w)
      = Raise Cases.out_of_memory) /\
  AudioProcessor.segment_loop Cases.no_memory_to_export_second
                              Cases.entered "/tmp/run" ws []
  = Ok ["/tmp/run/spectrogram_1.png"; "/tmp/run/spectrogram_3.png"]%string.
Proof.
  intros ws. split; [| vm_compute; reflexivity].
  assert (Hrun : AudioProcessor.segment_loop
                   Cases.no_memory_to_cut_second Cases.entered "/tmp/run"
                   ws [] = Raise Cases.out_of_memory)
    by (vm_compute; reflexivity).
  destruct (segment_loop_lets_out
              Cases.no_memory_to_cut_second Cases.entered "/tmp/run"
              ws [] Cases.out_of_memory Hrun)
    as (w & Hin & _ & [Hcls | [Hmem Hcut]] & _).
  - discriminate Hcls.
  - exists w. split; [exact Hin |].
    split; [| split; [exact Hmem | exact Hcut]].
    destruct Hin as [<- | [<- | [<- | []]]];
      vm_compute in Hcut; try discriminate Hcut; reflexivity.
Defined.

(** ** When the resize fails *)

Lemma scale_not_positive (H h : Z) :
  H <= 0 -> 0 < h -> Qle_bool (inject_Z H / inject_Z h) 0 = true.
Proof.
  intros HH Hh. apply Qle_bool_iff.
  apply Qle_shift_div_r; [now apply inject_Z_pos |].
  rewrite Qmult_0_l. change 0%Q with (inject_Z 0). now rewrite <- Zle_Qle.
Qed.

(** [resize_spectrogram] succeeds exactly when the array is not empty
    and both target dimensions are positive; every failure is a
    [ValueError]. *)
Theorem resize_spectrogram_succeeds_iff
    (m : matrix) (h w : nat) (H W : Z) :
  rect h w m ->
  ((exists resized, AudioProcessor.resize_spectrogram m (H, W) = Ok resized)
   <-> ((0 < h)%nat /\ (0 < w)%nat /\ 0 < H /\ 0 < W))
  /\
  (forall e, AudioProcessor.resize_spectrogram m (H, W) = Raise e ->
             exn_cls e = ValueError).
Proof.
  intros Hrect.
  destruct (Nat.eq_dec h 0) as [-> | Hh].
  { destruct Hrect as [Hlen _]. apply length_zero_iff_nil in Hlen. subst m.
    cbn. split; [split |].
    - intros [r Hr]; discriminate.
    - intros (Hn & _). lia.
    - intros e He. injection He as <-. reflexivity. }
  assert (Hshape : shape m = (Z.of_nat h, Z.of_nat w))
    by (apply rect_shape; [lia | exact Hrect]).
  destruct (Nat.eq_dec w 0) as [-> | Hw].
  { unfold AudioProcessor.resize_spectrogram, size. rewrite Hshape.
    cbn [fst snd]. rewrite Z.mul_0_r. cbn. split; [split |].
    - intros [r Hr]; discriminate.
    - intros (_ & Hn & _). lia.
    - intros e He. injection He as <-. reflexivity. }
  destruct (Z_lt_le_dec 0 H) as [HH | HH];
    [destruct (Z_lt_le_dec 0 W) as [HW | HW] |].
  - destruct (resize_spectrogram_zoom m h w H W) as [Hres _];
      try lia; try assumption.
    rewrite Hres. split; [split |].
    + intros _. lia.
    + eauto.
    + discriminate.
  - unfold AudioProcessor.resize_spectrogram, size. rewrite Hshape.
    cbn [fst snd].
    destruct (Z.eqb_spec (Z.of_nat h * Z.of_nat w) 0); [nia |].
    destruct (Z.leb_spec (Z.of_nat h) 0); [lia |].
    destruct (Z.leb_spec (Z.of_nat w) 0); [lia |]. cbn [orb].
    rewrite (scale_not_positive W) by lia. rewrite orb_true_r.
    split; [split |].
    + intros [r Hr]; discriminate.
    + intros (_ & _ & _ & Hn). lia.
    + intros e He. injection He as <-. reflexivity.
  - unfold AudioProcessor.resize_spectrogram, size. rewrite Hshape.
    cbn [fst snd].
    destruct (Z.eqb_spec (Z.of_nat h * Z.of_nat w) 0); [nia |].
    destruct (Z.leb_spec (Z.of_nat h) 0); [lia |].
    destruct (Z.leb_spec (Z.of_nat w) 0); [lia |]. cbn [orb].
    rewrite (scale_not_positive H) by lia. cbn [orb].
    split; [split |].
    + intros [r Hr]; discriminate.
    + intros (_ & _ & Hn & _). lia.
    + intros e He. injection He as <-. reflexivity.
Qed.

(** A 2 x 3 array and a target with a width of 0. *)
Lemma resize_spectrogram_succeeds_iff_witness :
  ((exists resized,
       AudioProcessor.resize_spectrogram [[1; 2; 3]; [4; 5; 6]]%Q (4, 0)
       = Ok resized)
   <-> ((0 < 2)%nat /\ (0 < 3)%nat /\ 0 < 4 /\ 0 < 0))
  /\
  (forall e,
      AudioProcessor.resize_spectrogram [[1; 2; 3]; [4; 5; 6]]%Q (4, 0)
      = Raise e ->
      exn_cls e = ValueError).
Proof.
  apply (resize_spectrogram_succeeds_iff [[1; 2; 3]; [4; 5; 6]]%Q 2 3 4 0).
  split; [reflexivity | repeat constructor].
Defined.

(** ** The dict of predict_image and the arg-max over it *)

Lemma set_fresh {V} (k : string) (v : V) (d : Dict.t V) :
  ~ In k (Dict.keys d) -> Dict.set k v d = d ++ [(k, v)].
Proof.
  induction d as [| [k' v'] d IH]; simpl; intros Hk; [reflexivity |].
  destruct (String.eqb_spec k k') as [-> | _].
  - exfalso. apply Hk. now left.
  - rewrite IH by (intros H; apply Hk; now right). reflexivity.
Qed.

Lemma fill_result_zip (p0 : list Q) (names : list string) :
  forall (i : nat) (acc : Dict.t Q),
    NoDup names ->
    (forall k, In k names -> ~ In k (Dict.keys acc)) ->
    CNNModelPredictor.fill_result i names p0 acc
    = acc ++ combine names (map (fun j => nth j p0 0%Q)
                                (seq i (length names))).
Proof.
  induction names as [| name names IH]; intros i acc Hnd Hfresh; simpl.
  - now rewrite app_nil_r.
  - inversion Hnd as [| ? ? Hnotin Hnd']; subst.
    rewrite set_fresh by (apply Hfresh; now left).
    rewrite IH; [| exact Hnd' |].
    + rewrite <- app_assoc. simpl. do 3 f_equal.
      destruct (Nat.ltb_spec i (length p0)); [reflexivity |].
      symmetry. now apply nth_overflow.
    + intros k Hk Hin. unfold Dict.keys in Hin.
      rewrite map_app, in_app_iff in Hin. destruct Hin as [Hin | Hin].
      * apply (Hfresh k); [now right | exact Hin].
      * simpl in Hin. destruct Hin as [<- | []]. contradiction.
Qed.

(** With distinct class names, the dict [predict_image] returns is the
    class names, in their order, each paired with the probability at its
    position, 0.0 past the end of the vector; entries of the vector past
    the last class are not used. A warning is logged exactly when the
    two lengths differ. *)
Theorem predict_image_in_class_order
    (E : env) (m : CNNModelPredictor.t) (image_path : string)
    (p0 : list Q) (rest : list (list Q)) :
  CNNModelPredictor.backend_ready m = Ok tt ->
  image_path <> ""%string ->
  path_exists E image_path = true ->
  readable E image_path = true ->
  model_predict E image_path = Ok (p0 :: rest) ->
  p0 <> [] ->
  NoDup (CNNModelPredictor.class_names m) ->
  snd (CNNModelPredictor.predict_image E m image_path)
  = Ok (combine (CNNModelPredictor.class_names m)
                (map (fun j => nth j p0 0%Q)
                     (seq 0 (length (CNNModelPredictor.class_names m)))))
  /\
  (fst (CNNModelPredictor.predict_image E m image_path) = []
   <-> length p0 = length (CNNModelPredictor.class_names m)).
Proof.
  intros Hready Hpath Hex Hrd Hpred Hne Hnd.
  unfold CNNModelPredictor.predict_image. rewrite Hready.
  destruct (String.eqb_spec image_path ""); [contradiction |].
  rewrite Hex, Hrd, Hpred. cbn [negb].
  destruct (Nat.eqb_spec (length p0) 0) as [H0 | _].
  { destruct p0; [contradiction | discriminate]. }
  cbn [fst snd]. split.
  - rewrite fill_result_zip; [reflexivity | exact Hnd | intros k _ []].
  - destruct (Nat.eqb_spec (length p0)
                           (length (CNNModelPredictor.class_names m)));
      cbn [negb]; split; intros H; congruence.
Qed.

(** Four scores for three classes: the fourth is not used. *)
Lemma predict_image_in_class_order_witness :
  let E := Scenario.studio (Ok (Scenario.clip_of 7000))
             (fun _ => Ok [[1 # 10; 6 # 10; 2 # 10; 1 # 10]]%Q) in
  let m := Scenario.loaded_predictor Scenario.three_classes in
  snd (CNNModelPredictor.predict_image E m "/tmp/run/spectrogram_1.png")
  = Ok (combine Scenario.three_classes
                (map (fun j => nth j [1 # 10; 6 # 10; 2 # 10; 1 # 10]%Q 0%Q)
                     (seq 0 3)))
  /\
  (fst (CNNModelPredictor.predict_image E m "/tmp/run/spectrogram_1.png") = []
   <-> 4%nat = 3%nat).
Proof.
  intros E m.
  apply (predict_image_in_class_order E m "/tmp/run/spectrogram_1.png"
           [1 # 10; 6 # 10; 2 # 10; 1 # 10]%Q []).
  - reflexivity.
  - discriminate.
  - reflexivity.
  - reflexivity.
  - reflexivity.
  - discriminate.
  - repeat constructor; simpl; intuition discriminate.
Defined.

Lemma max_from_first_maximum (d : Dict.t Q) :
  forall (best : string * Q) (before after : Dict.t Q),
    Forall (fun x => (snd x < snd best)%Q) before ->
    Forall (fun x => (snd x <= snd best)%Q) after ->
    exists pre v post,
      before ++ best :: after ++ d
      = pre ++ (Dict.max_from Qltb best d, v) :: post /\
      Forall (fun x => (snd x < v)%Q) pre /\
      Forall (fun x => (snd x <= v)%Q) post.
Proof.
  induction d as [| [k' v'] d IH]; intros [k v] before after Hb Ha; simpl.
  - exists before, v, after. rewrite app_nil_r. auto.
  - destruct (Qltb v v') eqn:Hlt.
    + apply Qltb_true in Hlt.
      destruct (IH (k', v') (before ++ (k, v) :: after) [])
        as (pre & w & post & Heq & Hpre & Hpost).
      * apply Forall_app. split; [| constructor].
        -- eapply Forall_impl; [| exact Hb]. simpl. intros x Hx.
           eapply Qlt_trans; eassumption.
        -- simpl. exact Hlt.
        -- eapply Forall_impl; [| exact Ha]. simpl. intros x Hx.
           eapply Qle_lt_trans; eassumption.
      * constructor.
      * exists pre, w, post. split; [| auto].
        rewrite <- Heq. simpl. now rewrite <- !app_assoc.
    + assert (Hle : (v' <= v)%Q).
      { apply Qnot_lt_le. intros H. apply Qltb_true in H. congruence. }
      destruct (IH (k, v) before (after ++ [(k', v')]))
        as (pre & w & post & Heq & Hpre & Hpost).
      * exact Hb.
      * apply Forall_app. split; [exact Ha | now constructor].
      * exists pre, w, post. split; [| auto].
        rewrite <- Heq. simpl. now rewrite <- !app_assoc.
Qed.

Lemma get_of_entry {V} (d : Dict.t V) (k : string) (v : V) :
  NoDup (Dict.keys d) -> In (k, v) d -> Dict.get k d = Some v.
Proof.
  induction d as [| [k' v'] d IH]; simpl; intros Hnd Hin; [contradiction |].
  inversion Hnd as [| ? ? Hnotin Hnd']; subst.
  destruct Hin as [Heq | Hin].
  - injection Heq as -> ->. now rewrite String.eqb_refl.
  - destruct (String.eqb_spec k k') as [-> | _]; [| auto].
    exfalso. apply Hnotin. apply (in_map fst) in Hin. exact Hin.
Qed.

Lemma predict_image_ok (E : env) (m : CNNModelPredictor.t) (path : string)
    (d : Dict.t Q) :
  snd (CNNModelPredictor.predict_image E m path) = Ok d ->
  exists p0, d = CNNModelPredictor.fill_result
                   0 (CNNModelPredictor.class_names m) p0 [].
Proof.
  unfold CNNModelPredictor.predict_image.
  destruct (CNNModelPredictor.backend_ready m) as [[] |]; [| discriminate].
  destruct (String.eqb path ""); [discriminate |].
  destruct (negb (path_exists E path)); [discriminate |].
  destruct (negb (readable E path)); [discriminate |].
  destruct (model_predict E path) as [[| p0 rest] |]; try discriminate.
  destruct (length p0 =? 0)%nat; [discriminate |].
  cbn [snd]. intros H; injection H as <-. eauto.
Qed.

(** In an entry without an error, [confidence] is the largest of the
    probabilities of the window and [predicted_class] is the first class,
    in the order of the class names, that has it: every class before it
    has a smaller probability, no class after it a larger one. *)
Theorem predict_one_first_maximum
    (E : env) (m : CNNModelPredictor.t) (i : Z) (path : string)
    (r : CNNModelPredictor.segment_result) :
  CNNModelPredictor.predict_one E m i path = Ok r ->
  exists d k c pre post,
    CNNModelPredictor.predictions r = Some d /\
    CNNModelPredictor.predicted_class r = Some k /\
    CNNModelPredictor.confidence r = Some c /\
    d = pre ++ (k, c) :: post /\
    Forall (fun x => (snd x < c)%Q) pre /\
    Forall (fun x => (snd x <= c)%Q) post /\
    In k (CNNModelPredictor.class_names m).
Proof.
  unfold CNNModelPredictor.predict_one, Py.bind.
  destruct (snd (CNNModelPredictor.predict_image E m path)) as [d |] eqn:Hd;
    [| discriminate].
  destruct (predict_image_ok E m path d Hd) as [p0 Hfill].
  assert (Hnd : NoDup (Dict.keys d)).
  { rewrite Hfill. apply fill_result_NoDup. constructor. }
  destruct d as [| best d']; [discriminate |].
  cbn [Dict.max_key].
  destruct (max_from_first_maximum d' best [] [])
    as (pre & c & post & Heq & Hpre & Hpost); [constructor | constructor |].
  cbn [app] in Heq.
  intros H; injection H as <-.
  set (k := Dict.max_from Qltb best d') in *.
  assert (Hin : In (k, c) (best :: d')).
  { rewrite Heq. apply in_or_app. right. now left. }
  exists (best :: d'), k, c, pre, post.
  cbn [CNNModelPredictor.predictions CNNModelPredictor.predicted_class
       CNNModelPredictor.confidence].
  split; [reflexivity |]. split; [reflexivity |].
  split; [apply (get_of_entry (best :: d')); assumption |].
  split; [exact Heq |]. split; [exact Hpre |]. split; [exact Hpost |].
  assert (Hk : In k (Dict.keys (best :: d')))
    by (apply (in_map fst) in Hin; exact Hin).
  rewrite Hfill in Hk. apply fill_result_keys in Hk as [[] | Hk]. exact Hk.
Qed.

(** Scores 0.2, 0.5, 0.5: the second class, the first of the two at
    0.5. *)
Lemma predict_one_first_maximum_witness :
  exists d k c pre post,
    Some [("blocks"%string, 2 # 10); ("prolongations"%string, 5 # 10);
          ("repetitions"%string, 5 # 10)] = Some d /\
    Some "prolongations"%string = Some k /\
    Some (5 # 10) = Some c /\
    d = pre ++ (k, c) :: post /\
    Forall (fun x => (snd x < c)%Q) pre /\
    Forall (fun x => (snd x <= c)%Q) post /\
    In k Scenario.three_classes.
Proof.
  apply (predict_one_first_maximum
           (Scenario.studio (Ok (Scenario.clip_of 7000))
                            (fun _ => Ok [[2 # 10; 5 # 10; 5 # 10]]%Q))
           (Scenario.loaded_predictor Scenario.three_classes)
           0 "/tmp/run/spectrogram_1.png"
           {| CNNModelPredictor.segment_index := 1;
              CNNModelPredictor.image_path := "/tmp/run/spectrogram_1.png";
              CNNModelPredictor.predictions :=
                Some [("blocks"%string, 2 # 10);
                      ("prolongations"%string, 5 # 10);
                      ("repetitions"%string, 5 # 10)];
              CNNModelPredictor.predicted_class := Some "prolongations"%string;
              CNNModelPredictor.confidence := Some (5 # 10);
              CNNModelPredictor.error := None;
              CNNModelPredictor.timestamp_start := inject_Z 0 * 5;
              CNNModelPredictor.timestamp_end := (inject_Z 0 + 1) * 5 |}).
  reflexivity.
Defined.

(** ** Loading the model *)

Lemma substring_all (s : string) : substring 0 (String.length s) s = s.
Proof. induction s as [| a s IH]; simpl; [reflexivity | now rewrite IH]. Qed.

Lemma substring_split (s : string) :
  forall n, (n <= String.length s)%nat ->
  (substring 0 n s ++ substring n (String.length s - n) s)%string = s.
Proof.
  induction s as [| a s IH]; intros [| n] Hn; simpl in *; try lia.
  - reflexivity.
  - now rewrite substring_all.
  - rewrite IH by lia. reflexivity.
Qed.

(** [endswith] holds of the strings that are a prefix followed by the
    suffix. *)
Lemma endswith_suffix (s suffix : string) :
  CNNModelPredictor.endswith s suffix = true ->
  exists prefix, s = (prefix ++ suffix)%string.
Proof.
  unfold CNNModelPredictor.endswith. intros H.
  apply andb_true_iff in H as [Hle Heq].
  apply Nat.leb_le in Hle. apply String.eqb_eq in Heq.
  exists (substring 0 (String.length s - String.length suffix) s).
  pose proof (substring_split s (String.length s - String.length suffix))
    as Hsplit.
  replace (String.length s - (String.length s - String.length suffix))%nat
    with (String.length suffix) in Hsplit by lia.
  rewrite Heq in Hsplit. symmetry. apply Hsplit. lia.
Qed.

(** [load_model] takes the TensorFlow Lite interpreter exactly for a
    path that ends in ".tflite" when TensorFlow Lite is there, the Keras
    loader otherwise, and leaves the predictor ready for the backend it
    took, with its class names untouched. A predictor on which
    [load_model] was not called makes [predict_image] raise
    [RuntimeError] for every image. *)
Theorem load_model_makes_predictor_ready
    (E : env) (model_path : string) (names : list string)
    (m : CNNModelPredictor.t) :
  CNNModelPredictor.load_model E (CNNModelPredictor.init E model_path names)
  = Ok m ->
  CNNModelPredictor.backend_ready m = Ok tt /\
  CNNModelPredictor.use_tflite m
  = (CNNModelPredictor.endswith model_path ".tflite" && tflite_available E) /\
  CNNModelPredictor.class_names m
  = CNNModelPredictor.class_names (CNNModelPredictor.init E model_path names) /\
  path_exists E model_path = true /\
  (forall image_path,
      exists msg,
        snd (CNNModelPredictor.predict_image
               E (CNNModelPredictor.init E model_path names) image_path)
        = Raise (mk_exn RuntimeError msg)).
Proof.
  unfold CNNModelPredictor.load_model.
  cbn [CNNModelPredictor.model_path CNNModelPredictor.init
       CNNModelPredictor.class_names CNNModelPredictor.model
       CNNModelPredictor.interpreter].
  destruct (String.eqb model_path ""); [discriminate |].
  destruct (path_exists E model_path); [| discriminate]. cbn [negb].
  destruct (negb (readable E model_path)); [discriminate |].
  assert (Hnot : forall image_path,
             exists msg,
               snd (CNNModelPredictor.predict_image
                      E (CNNModelPredictor.init E model_path names) image_path)
               = Raise (mk_exn RuntimeError msg)).
  { intros image_path. eexists. reflexivity. }
  destruct (CNNModelPredictor.endswith model_path ".tflite"
            && tflite_available E).
  - destruct (load_tflite E model_path) as [[] |]; [| discriminate].
    intros H; injection H as <-. repeat split; auto.
  - destruct (load_keras E model_path) as [[] |]; [| discriminate].
    intros H; injection H as <-. repeat split; auto.
Qed.

(** A Keras model file. *)
Lemma load_model_makes_predictor_ready_witness :
  let E := Scenario.studio (Ok (Scenario.clip_of 7000))
                           Scenario.sure_of_blocks in
  exists m,
    CNNModelPredictor.load_model E (CNNModelPredictor.init E "model.h5" [])
    = Ok m /\
    CNNModelPredictor.backend_ready m = Ok tt /\
    CNNModelPredictor.use_tflite m = false.
Proof.
  intros E. eexists. split; [reflexivity |].
  destruct (load_model_makes_predictor_ready E "model.h5" []
              _ eq_refl) as (Hready & Htf & _).
  split; [exact Hready | exact Htf].
Defined.

(** ** The summary of process_audio_file *)

Lemma total_count_set (k : string) (d : Dict.t Z) :
  Measures.total_count (Dict.set k (Dict.get_or k 0 d + 1) d)
  = Measures.total_count d + 1.
Proof.
  unfold Measures.total_count, Dict.get_or.
  induction d as [| [k' v'] d IH]; simpl; [reflexivity |].
  destruct (String.eqb_spec k k') as [-> | Hne]; simpl; [lia |].
  rewrite IH. lia.
Qed.

Lemma counts_positive_set (k : string) (d : Dict.t Z) :
  Forall (fun kv => 1 <= snd kv) d ->
  Forall (fun kv => 1 <= snd kv) (Dict.set k (Dict.get_or k 0 d + 1) d).
Proof.
  unfold Dict.get_or.
  induction d as [| [k' v'] d IH]; simpl; intros Hd.
  - constructor; [simpl; lia | constructor].
  - inversion Hd as [| ? ? Hv Hd']; subst. simpl in Hv.
    destruct (String.eqb_spec k k') as [-> | Hne].
    + constructor; [simpl; lia | exact Hd'].
    + constructor; [exact Hv | apply IH, Hd'].
Qed.

Lemma tally_counts (ps : list CNNModelPredictor.segment_result) :
  forall (cc : Dict.t Z) (tc : Q),
    NoDup (Dict.keys cc) ->
    Forall (fun kv => 1 <= snd kv) cc ->
    let cc' := fst (Processing.tally ps cc tc) in
    Measures.total_count cc' = Measures.total_count cc + Z.of_nat (length ps) /\
    NoDup (Dict.keys cc') /\
    Forall (fun kv => 1 <= snd kv) cc' /\
    (forall k, In k (Dict.keys cc') <->
               In k (Dict.keys cc) \/
               In k (map (Processing.get_predicted_class "unknown") ps)).
Proof.
  induction ps as [| pred ps IH]; intros cc tc Hnd Hpos; cbn zeta.
  - simpl. repeat split; auto; try lia. intuition.
  - cbn [Processing.tally length map].
    destruct (IH (Dict.set (Processing.get_predicted_class "unknown" pred)
                    (Dict.get_or (Processing.get_predicted_class "unknown" pred)
                                 0 cc + 1) cc)
                 (tc + Processing.get_confidence pred)%Q)
      as (Hsum & Hnd' & Hpos' & Hkeys).
    + apply keys_set_NoDup, Hnd.
    + apply counts_positive_set, Hpos.
    + cbv zeta in *. split; [rewrite Hsum, total_count_set; lia |].
      split; [exact Hnd' |]. split; [exact Hpos' |].
      intros k. rewrite Hkeys, keys_set. simpl. intuition.
Qed.

(** In a summary, the counts of [class_distribution] add up to
    [successful_predictions]; every class in it has a count of at least
    one and appears once; its classes are exactly the predicted classes
    of the entries without an error. *)
Theorem summary_class_distribution_counts
    (predictions : list CNNModelPredictor.segment_result) :
  let s := Processing.summarize predictions in
  Measures.total_count (Processing.class_distribution s)
  = Processing.successful_predictions s /\
  NoDup (Dict.keys (Processing.class_distribution s)) /\
  Forall (fun kv => 1 <= snd kv) (Processing.class_distribution s) /\
  (forall k,
      In k (Dict.keys (Processing.class_distribution s)) <->
      In k (map (Processing.get_predicted_class "unknown")
                (Processing.successful predictions))).
Proof.
  unfold Processing.summarize.
  destruct (Processing.successful predictions) as [| x l] eqn:Hs.
  - cbn. repeat split; auto; try constructor; intuition.
  - pose proof (tally_counts (x :: l) [] 0%Q (NoDup_nil _) (Forall_nil _))
      as Ht.
    cbv zeta in Ht.
    destruct (Processing.tally (x :: l) [] 0%Q) as [cc tc].
    cbn [fst] in Ht. destruct Ht as (Hsum & Hnd & Hpos & Hkeys).
    cbn [Processing.class_distribution Processing.successful_predictions].
    split; [rewrite Hsum; reflexivity |].
    split; [exact Hnd |]. split; [exact Hpos |].
    intros k. rewrite Hkeys. simpl. intuition.
Qed.

Lemma max_from_first_maximum_Z (d : Dict.t Z) :
  forall (best : string * Z) (before after : Dict.t Z),
    Forall (fun x => snd x < snd best) before ->
    Forall (fun x => snd x <= snd best) after ->
    exists pre v post,
      before ++ best :: after ++ d
      = pre ++ (Dict.max_from Z.ltb best d, v) :: post /\
      Forall (fun x => snd x < v) pre /\
      Forall (fun x => snd x <= v) post.
Proof.
  induction d as [| [k' v'] d IH]; intros [k v] before after Hb Ha; simpl.
  - exists before, v, after. rewrite app_nil_r. auto.
  - destruct (Z.ltb_spec v v') as [Hlt | Hle].
    + destruct (IH (k', v') (before ++ (k, v) :: after) [])
        as (pre & w & post & Heq & Hpre & Hpost).
      * apply Forall_app. split; [| constructor].
        -- eapply Forall_impl; [| exact Hb]. simpl in *. intros x Hx. lia.
        -- simpl. exact Hlt.
        -- eapply Forall_impl; [| exact Ha]. simpl in *. intros x Hx. lia.
      * constructor.
      * exists pre, w, post. split; [| auto].
        rewrite <- Heq. simpl. now rewrite <- !app_assoc.
    + destruct (IH (k, v) before (after ++ [(k', v')]))
        as (pre & w & post & Heq & Hpre & Hpost).
      * exact Hb.
      * apply Forall_app. split; [exact Ha | now constructor].
      * exists pre, w, post. split; [| auto].
        rewrite <- Heq. simpl. now rewrite <- !app_assoc.
Qed.

(** [dominant_class] is [None] exactly when no entry is without an
    error. Otherwise it is a class of the distribution with the largest
    count, and among the classes with that count the one that was
    predicted first: every class before it in the distribution has a
    smaller count. *)
Theorem summary_dominant_class
    (predictions : list CNNModelPredictor.segment_result) :
  let s := Processing.summarize predictions in
  (Processing.successful predictions = [] ->
   Processing.dominant_class s = None) /\
  (Processing.successful predictions <> [] ->
   exists k n pre post,
     Processing.dominant_class s = Some k /\
     Processing.class_distribution s = pre ++ (k, n) :: post /\
     Forall (fun x => snd x < n) pre /\
     Forall (fun x => snd x <= n) post).
Proof.
  unfold Processing.summarize.
  destruct (Processing.successful predictions) as [| x l] eqn:Hs.
  - cbn. split; [reflexivity | intros H; contradiction].
  - split; [discriminate |]. intros _.
    pose proof (tally_counts (x :: l) [] 0%Q (NoDup_nil _) (Forall_nil _))
      as Ht.
    cbv zeta in Ht.
    destruct (Processing.tally (x :: l) [] 0%Q) as [cc tc].
    cbn [fst] in Ht. destruct Ht as (Hsum & _).
    cbn [Processing.class_distribution Processing.dominant_class].
    destruct cc as [| best cc].
    { unfold Measures.total_count in Hsum. simpl in Hsum. lia. }
    cbn [Dict.max_key].
    destruct (max_from_first_maximum_Z cc best [] [])
      as (pre & n & post & Heq & Hpre & Hpost); [constructor | constructor |].
    cbn [app] in Heq. eauto 10.
Qed.

(** Five windows and one failure: one fluent window, then two blocks
    and two repetitions. The blocks and the repetitions tie at the
    largest count; the blocks were predicted first and are the dominant
    class, after the fluent class with its smaller count. *)
Lemma summary_dominant_class_witness :
  let s := Processing.summarize Cases.mixed_classes in
  Processing.class_distribution s
  = [("fluent"%string, 1); ("blocks"%string, 2); ("repetitions"%string, 2)] /\
  Processing.dominant_class s = Some "blocks"%string /\
  exists k n pre post,
    Processing.dominant_class s = Some k /\
    Processing.class_distribution s = pre ++ (k, n) :: post /\
    Forall (fun x => snd x < n) pre /\
    Forall (fun x => snd x <= n) post.
Proof.
  intros s. split; [reflexivity |]. split; [reflexivity |].
  apply (proj2 (summary_dominant_class Cases.mixed_classes)).
  discriminate.
Defined.

Lemma total_bounds (lo hi : Q) (l : list Q) :
  Forall (fun c => (lo <= c)%Q /\ (c <= hi)%Q) l ->
  (inject_Z (Z.of_nat (length l)) * lo <= Spec.total l)%Q /\
  (Spec.total l <= inject_Z (Z.of_nat (length l)) * hi)%Q.
Proof.
  induction 1 as [| c l [Hlo Hhi] _ [IHlo IHhi]].
  - simpl. split; rewrite Qmult_0_l; apply Qle_refl.
  - cbn [length Spec.total fold_right].
    rewrite Nat2Z.inj_succ, <- Z.add_1_r, inject_Z_plus.
    split.
    + setoid_replace ((inject_Z (Z.of_nat (length l)) + inject_Z 1) * lo)%Q
        with (lo + inject_Z (Z.of_nat (length l)) * lo)%Q by ring.
      now apply Qplus_le_compat.
    + setoid_replace ((inject_Z (Z.of_nat (length l)) + inject_Z 1) * hi)%Q
        with (hi + inject_Z (Z.of_nat (length l)) * hi)%Q by ring.
      now apply Qplus_le_compat.
Qed.

(** When the confidence of every entry without an error is a
    probability, between 0 and 1, so is [average_confidence]. *)
Theorem summary_average_confidence_bounds
    (predictions : list CNNModelPredictor.segment_result) :
  Forall (fun p => (0 <= Processing.get_confidence p)%Q /\
                   (Processing.get_confidence p <= 1)%Q)
         (Processing.successful predictions) ->
  (0 <= Processing.average_confidence (Processing.summarize predictions))%Q /\
  (Processing.average_confidence (Processing.summarize predictions) <= 1)%Q.
Proof.
  intros Hall.
  rewrite summarize_average_confidence.
  set (l := map Processing.get_confidence (Processing.successful predictions)).
  assert (Hl : Forall (fun c => (0 <= c)%Q /\ (c <= 1)%Q) l).
  { unfold l. apply Forall_map. exact Hall. }
  destruct (total_bounds 0 1 l Hl) as [Hlo Hhi].
  unfold Spec.mean. destruct l as [| c l']; [split; discriminate |].
  assert (Hn : (0 < inject_Z (Z.of_nat (length (c :: l'))))%Q)
    by (apply inject_Z_pos; simpl; lia).
  split.
  - apply Qle_shift_div_l; [exact Hn |]. now rewrite Qmult_comm.
  - apply Qle_shift_div_r; [exact Hn |]. now rewrite Qmult_comm.
Qed.

(** Five windows classified with confidence 0.7 and one failure: the
    average over the five is 0.7. *)
Lemma summary_average_confidence_bounds_witness :
  let s := Processing.summarize Cases.mixed_classes in
  Processing.successful_predictions s = 5 /\
  (Processing.average_confidence s == 7 # 10)%Q /\
  (0 <= Processing.average_confidence s)%Q /\
  (Processing.average_confidence s <= 1)%Q.
Proof.
  intros s. split; [reflexivity |]. split; [reflexivity |].
  apply (summary_average_confidence_bounds Cases.mixed_classes).
  repeat constructor; discriminate.
Defined.

(** ** The reports of process_audio_file *)

Lemma predict_loop_ok (E : env) (m : CNNModelPredictor.t)
    (paths : list string) :
  forall (i : Z) (acc rs : list CNNModelPredictor.segment_result),
    CNNModelPredictor.predict_loop E m i paths acc = Ok rs ->
    exists new,
      rs = acc ++ new /\ length new = length paths /\
      Measures.stamped i new.
Proof.
  induction paths as [| path paths IH]; intros i acc rs; simpl.
  - intros H; injection H as <-. exists []. now rewrite app_nil_r.
  - destruct (CNNModelPredictor.predict_one E m i path) as [r | e] eqn:Hone.
    + intros H. apply IH in H as (new & -> & Hlen & Hst).
      exists (r :: new). rewrite <- app_assoc. split; [reflexivity |].
      split; [simpl; now rewrite Hlen |].
      unfold CNNModelPredictor.predict_one, Py.bind in Hone.
      destruct (snd _) as [d |]; [| discriminate].
      destruct (Dict.max_key _ d); [| discriminate].
      injection Hone as <-. simpl. repeat split; try reflexivity. exact Hst.
    + destruct (is_Exception e); [| discriminate].
      intros H. apply IH in H as (new & -> & Hlen & Hst).
      exists (CNNModelPredictor.error_result i path e :: new).
      rewrite <- app_assoc. split; [reflexivity |].
      split; [simpl; now rewrite Hlen |].
      simpl. repeat split; try reflexivity. exact Hst.
Qed.

Lemma segment_audio_file_not_empty (E : env) (p : AudioProcessor.t)
    (input_file : string) (paths : list string) :
  AudioProcessor.segment_audio_file E p input_file = Ok paths -> paths <> [].
Proof.
  unfold AudioProcessor.segment_audio_file, Py.bind.
  destruct (String.eqb input_file ""); [discriminate |].
  destruct (negb (path_exists E input_file)); [discriminate |].
  destruct (negb (readable E input_file)); [discriminate |].
  destruct (AudioProcessor.temp_dir p) as [dir |]; [| discriminate].
  destruct (from_file E input_file) as [audio |]; [| discriminate].
  destruct (len audio =? 0); [discriminate |].
  destruct (AudioProcessor.windows p audio) as [ws |]; [| discriminate].
  destruct (AudioProcessor.segment_loop E p dir ws []) as [[| q ps] |];
    try discriminate.
  intros H; injection H as <-. discriminate.
Qed.

(** The two ways [process_audio_file] returns: before the predictions,
    with one error entry, or after them, with the stamped entries of
    [predict_spectrograms]. *)
Lemma process_audio_file_ok_cases
    (E : env) (input_file model_path : string) (output_dir : option string)
    (r : Processing.report) :
  Processing.process_audio_file E input_file model_path output_dir = Ok r ->
  Processing.input_file r = input_file /\
  Processing.model_path r = model_path /\
  ((Processing.segments r = [] /\ Processing.summary_of r = None /\
    exists msg, Processing.errors r = [msg])
   \/
   (Processing.segments r <> [] /\
    Processing.summary_of r
    = Some (Processing.summarize (Processing.segments r)) /\
    Processing.errors r = [] /\
    Measures.stamped 0 (Processing.segments r))).
Proof.
  unfold Processing.process_audio_file, Py.bind.
  destruct (String.eqb input_file ""); [discriminate |].
  destruct (String.eqb model_path ""); [discriminate |].
  destruct (Processing.ensure_dir E _) as [[] |]; [| discriminate].
  unfold Processing.run, Processing.guarded, Py.bind.
  destruct (AudioProcessor.enter E _) as [processor | e0].
  2:{ destruct e0 as [[] msg]; cbn; try discriminate;
        intros H; injection H as <-; cbn; eauto 10. }
  cbn [Processing.input_file].
  destruct (AudioProcessor.segment_audio_file E processor input_file)
    as [paths | e1] eqn:Hseg.
  2:{ destruct (is_Exception e1) eqn:Hcls; cbv beta iota;
        [| rewrite Hcls; discriminate].
      intros H; injection H as <-. cbn. eauto 10. }
  apply segment_audio_file_not_empty in Hseg.
  destruct paths as [| path paths]; [contradiction |].
  destruct (CNNModelPredictor.load_model E _) as [predictor | e2].
  2:{ destruct (is_Exception e2) eqn:Hcls; cbv beta iota;
        [| rewrite Hcls; discriminate].
      intros H; injection H as <-. cbn. eauto 10. }
  destruct (CNNModelPredictor.predict_spectrograms E predictor _)
    as [predictions | e3] eqn:Hpred.
  2:{ destruct (is_Exception e3) eqn:Hcls; cbv beta iota;
        [| rewrite Hcls; discriminate].
      intros H; injection H as <-. cbn. eauto 10. }
  intros H; injection H as <-. cbn.
  apply predict_loop_ok in Hpred as (new & -> & Hlen & Hst).
  split; [reflexivity |]. split; [reflexivity |]. right.
  cbn [app]. repeat split; auto.
  destruct new; [discriminate | discriminate].
Qed.

(** A report that [process_audio_file] returns is of one of two kinds.
    Either it has no segment, no summary and exactly one error entry, or
    it has at least one segment, the summary of its segments and no
    error entry. The branch for an empty list of spectrograms is never
    taken: [segment_audio_file] raises instead of returning an empty
    list. *)
Theorem process_audio_file_report_kinds
    (E : env) (input_file model_path : string) (output_dir : option string)
    (r : Processing.report) :
  Processing.process_audio_file E input_file model_path output_dir = Ok r ->
  Processing.input_file r = input_file /\
  Processing.model_path r = model_path /\
  ((Processing.segments r = [] /\ Processing.summary_of r = None /\
    exists msg, Processing.errors r = [msg])
   \/
   (Processing.segments r <> [] /\
    Processing.summary_of r
    = Some (Processing.summarize (Processing.segments r)) /\
    Processing.errors r = [])).
Proof.
  intros H.
  destruct (process_audio_file_ok_cases _ _ _ _ _ H)
    as (Hi & Hm & [Hfail | (Hs & Hsum & Herr & _)]); auto 10.
Qed.

(** Seven seconds, every window classified. *)
Lemma process_audio_file_report_kinds_witness :
  exists r,
    Processing.process_audio_file
      (Scenario.studio (Ok (Scenario.clip_of 7000)) Scenario.sure_of_blocks)
      "a.wav" "model.h5" None = Ok r /\
    Processing.segments r <> [] /\
    Processing.errors r = [].
Proof.
  eexists. split; [vm_compute; reflexivity |].
  destruct (process_audio_file_report_kinds
              (Scenario.studio (Ok (Scenario.clip_of 7000))
                               Scenario.sure_of_blocks)
              "a.wav" "model.h5" None _ ltac:(vm_compute; reflexivity))
    as (_ & _ & [(Hs & _) | (Hs & _ & He)]).
  - discriminate Hs.
  - split; [exact Hs | exact He].
Defined.

(** What [process_audio_file] raises: [ValueError] for an empty input or
    model path, what creating the output directory raised, an
    interruption by the user, or a [MemoryError] from creating the
    temporary directory. No failure of the segmentation, of the model
    loading or of a classification is raised to the caller. *)
Theorem process_audio_file_raises_only
    (E : env) (input_file model_path : string) (output_dir : option string)
    (e : exn) :
  Processing.process_audio_file E input_file model_path output_dir = Raise e ->
  ((input_file = ""%string \/ model_path = ""%string) /\
   exn_cls e = ValueError)
  \/ Processing.ensure_dir E
       (Processing.default_output_dir E input_file output_dir) = Raise e
  \/ is_Exception e = false
  \/ (mkdtemp E = Raise e /\ is_MemoryError e = true).
Proof.
  unfold Processing.process_audio_file, Py.bind.
  destruct (String.eqb_spec input_file "").
  { intros H; injection H as <-. left. auto. }
  destruct (String.eqb_spec model_path "").
  { intros H; injection H as <-. left. auto. }
  destruct (Processing.ensure_dir E _) as [[] | e0].
  2:{ intros H; injection H as <-. right; left. reflexivity. }
  unfold Processing.run, Processing.guarded, AudioProcessor.enter, Py.bind.
  destruct (mkdtemp E) as [dir | e0].
  2:{ destruct (is_Exception e0) eqn:Hcls; cbn [negb].
      - destruct (is_MemoryError e0) eqn:Hmem; [| discriminate].
        intros H; injection H as <-. do 3 right. auto.
      - intros H; injection H as <-. right; right; left. exact Hcls. }
  cbn [Processing.input_file].
  destruct (AudioProcessor.segment_audio_file E _ input_file) as [paths | e1].
  2:{ destruct (is_Exception e1) eqn:Hcls; cbv beta iota; [discriminate |].
      rewrite Hcls. cbn [negb]. intros H; injection H as <-. auto. }
  destruct paths as [| path paths]; [discriminate |].
  destruct (CNNModelPredictor.load_model E _) as [predictor | e2].
  2:{ destruct (is_Exception e2) eqn:Hcls; cbv beta iota; [discriminate |].
      rewrite Hcls. cbn [negb]. intros H; injection H as <-. auto. }
  destruct (CNNModelPredictor.predict_spectrograms E predictor _)
    as [predictions | e3].
  2:{ destruct (is_Exception e3) eqn:Hcls; cbv beta iota; [discriminate |].
      rewrite Hcls. cbn [negb]. intros H; injection H as <-. auto. }
  discriminate.
Qed.

(** The user interrupts the export of the second segment. *)
Lemma process_audio_file_raises_only_witness :
  ((("a.wav" = "")%string \/ ("model.h5" = "")%string) /\
   exn_cls Cases.interrupt = ValueError)
  \/ Processing.ensure_dir Cases.interrupted_on_second
       (Processing.default_output_dir Cases.interrupted_on_second
                                      "a.wav" None)
     = Raise Cases.interrupt
  \/ is_Exception Cases.interrupt = false
  \/ (mkdtemp Cases.interrupted_on_second = Raise Cases.interrupt /\
      is_MemoryError Cases.interrupt = true).
Proof.
  apply (process_audio_file_raises_only
           Cases.interrupted_on_second "a.wav" "model.h5" None).
  vm_compute. reflexivity.
Defined.

(** ** The events of the coarse report *)

Lemma stamped_events (rs : list CNNModelPredictor.segment_result) :
  forall i,
    Measures.stamped i rs ->
    Forall (fun e => 5000 * i <= CNNAnalysisService.t0 e /\
                     CNNAnalysisService.t1 e = CNNAnalysisService.t0 e + 5000 /\
                     CNNAnalysisService.seconds e * 1000
                     = CNNAnalysisService.t0 e /\
                     30 <= CNNAnalysisService.probability e)
           (CNNAnalysisService.format_events rs) /\
    StronglySorted Z.lt
      (map CNNAnalysisService.t0 (CNNAnalysisService.format_events rs)).
Proof.
  induction rs as [| r rs IH]; intros i Hst.
  - split; constructor.
  - cbn [CNNAnalysisService.format_events].
    destruct Hst as (Hstart & Hend & Hst).
    destruct (IH (i + 1) Hst) as [Hall Hsorted].
    assert (Hweak :
      Forall (fun e => 5000 * i <= CNNAnalysisService.t0 e /\
                       CNNAnalysisService.t1 e = CNNAnalysisService.t0 e + 5000 /\
                       CNNAnalysisService.seconds e * 1000
                       = CNNAnalysisService.t0 e /\
                       30 <= CNNAnalysisService.probability e)
             (CNNAnalysisService.format_events rs)).
    { eapply Forall_impl; [| exact Hall]. cbv beta. intros e He. lia. }
    destruct (CNNAnalysisService.segment_event r) as [e |] eqn:He;
      [| split; assumption].
    assert (Hex : exists e', CNNAnalysisService.segment_event r = Some e')
      by eauto.
    apply segment_event_some_iff in Hex as (_ & _ & Hconf).
    unfold CNNAnalysisService.segment_event in He.
    destruct (Processing.has_error r); [discriminate |].
    destruct (_ || _); [discriminate |]. injection He as <-.
    assert (Ht0 : Py.int (CNNModelPredictor.timestamp_start r * 1000)
                  = 5000 * i).
    { apply int_of_Z. rewrite Hstart, inject_Z_mult. ring. }
    assert (Ht1 : Py.int (CNNModelPredictor.timestamp_end r * 1000)
                  = 5000 * i + 5000).
    { apply int_of_Z. rewrite Hend, inject_Z_plus, inject_Z_mult. ring. }
    assert (Hsec : Py.int (CNNModelPredictor.timestamp_start r) = 5 * i).
    { apply int_of_Z. rewrite Hstart, inject_Z_mult. ring. }
    assert (Hprob : 30 <= Py.int (Float.mul (Processing.get_confidence r)
                                            100)).
    { assert (H30 : Py.int (Float.mul (3 # 10) 100) = 30)
        by (vm_compute; reflexivity).
      rewrite <- H30.
      apply int_monotone; [apply float_mul_nonneg; discriminate |].
      apply float_mul_mono;
        [discriminate | exact Hconf | discriminate | apply Qle_refl]. }
    split.
    + constructor; [| exact Hweak].
      cbn [CNNAnalysisService.t0 CNNAnalysisService.t1
           CNNAnalysisService.seconds CNNAnalysisService.probability].
      rewrite Ht0, Ht1, Hsec. lia.
    + cbn [map CNNAnalysisService.t0]. constructor; [exact Hsorted |].
      rewrite Ht0. apply Forall_map.
      eapply Forall_impl; [| exact Hall]. cbv beta. intros e He. lia.
Qed.

Lemma format_events_length (rs : list CNNModelPredictor.segment_result) :
  (length (CNNAnalysisService.format_events rs)
   <= length (Processing.successful rs))%nat.
Proof.
  induction rs as [| r rs IH]; simpl; [lia |].
  unfold CNNAnalysisService.segment_event.
  destruct (Processing.has_error r); simpl; [exact IH |].
  destruct (_ || _); simpl; lia.
Qed.

(** In the coarse report made of any report of [process_audio_file],
    the events are in strictly increasing order of [t0]; each one starts
    at a non-negative multiple of five seconds (its [seconds] field),
    lasts five seconds and has a [probability] of 30 at least; and there
    are at most as many events as successful predictions, which are at
    most the total number of segments. *)
Theorem coarse_events_in_time_order
    (E : env) (input_file model_path : string) (output_dir mp : option string)
    (r : Processing.report) :
  Processing.process_audio_file E input_file model_path output_dir = Ok r ->
  let f := CNNAnalysisService._format_results_for_flutter mp r in
  StronglySorted Z.lt
    (map CNNAnalysisService.t0 (CNNAnalysisService.events f)) /\
  Forall (fun e => 0 <= CNNAnalysisService.t0 e /\
                   CNNAnalysisService.t1 e = CNNAnalysisService.t0 e + 5000 /\
                   CNNAnalysisService.seconds e * 1000
                   = CNNAnalysisService.t0 e /\
                   30 <= CNNAnalysisService.probability e)
         (CNNAnalysisService.events f) /\
  CNNAnalysisService.segmentCount (CNNAnalysisService.summary f)
  <= CNNAnalysisService.successfulPredictions (CNNAnalysisService.summary f)
  <= CNNAnalysisService.totalSegments (CNNAnalysisService.summary f) /\
  CNNAnalysisService.hasEvents (CNNAnalysisService.summary f)
  = negb (CNNAnalysisService.segmentCount (CNNAnalysisService.summary f) =? 0).
Proof.
  intros H f.
  destruct (process_audio_file_ok_cases _ _ _ _ _ H)
    as (_ & _ & [(Hs & Hsum & _) | (_ & Hsum & _ & Hst)]);
    unfold f; cbn; rewrite ?Hs, Hsum; cbn.
  - repeat split; try constructor; lia.
  - destruct (stamped_events _ 0 Hst) as [Hall Hsorted].
    split; [exact Hsorted |]. split; [exact Hall |].
    destruct (summarize_counts (Processing.segments r)) as [-> ->].
    pose proof (format_events_length (Processing.segments r)).
    pose proof (successful_length (Processing.segments r)).
    split; [lia |].
    destruct (CNNAnalysisService.format_events (Processing.segments r));
      reflexivity.
Qed.

(** Seven seconds, confident on the first window only. *)
Lemma coarse_events_in_time_order_witness :
  exists r,
    Processing.process_audio_file
      (Scenario.studio (Ok (Scenario.clip_of 7000)) Scenario.sure_then_unsure)
      "a.wav" "model.h5" None = Ok r /\
    StronglySorted Z.lt
      (map CNNAnalysisService.t0
           (CNNAnalysisService.events
              (CNNAnalysisService._format_results_for_flutter None r))) /\
    CNNAnalysisService.segmentCount
      (CNNAnalysisService.summary
         (CNNAnalysisService._format_results_for_flutter None r))
    <= CNNAnalysisService.successfulPredictions
         (CNNAnalysisService.summary
            (CNNAnalysisService._format_results_for_flutter None r)).
Proof.
  eexists. split; [vm_compute; reflexivity |].
  destruct (coarse_events_in_time_order
              (Scenario.studio (Ok (Scenario.clip_of 7000))
                               Scenario.sure_then_unsure)
              "a.wav" "model.h5" None None _
              ltac:(vm_compute; reflexivity))
    as (Hsorted & _ & Hcount & _).
  split; [exact Hsorted | apply Hcount].
Defined.

(** ** extend_audio_to_duration *)

Lemma extend_segment_len (audio : AudioSegment) (d i : Z) :
  0 < d -> len (Extend.extend_segment audio d i) = d.
Proof.
  intros Hd. unfold Extend.extend_segment.
  pose proof (len_slice_le audio (i * d) (Z.min ((i + 1) * d) (len audio)))
    as Hle.
  pose proof (len_nonneg
                (slice audio (i * d) (Z.min ((i + 1) * d) (len audio)))).
  destruct (Z.ltb_spec
              (len (slice audio (i * d) (Z.min ((i + 1) * d) (len audio)))) d).
  - rewrite len_app, len_silent. lia.
  - lia.
Qed.

Lemma extend_loop_exact (E : env) (splitext : string -> string * string)
    (audio : AudioSegment) (output_file : string) (d : Z)
    (indices : list Z) :
  0 < d ->
  forall written,
    Forall (fun f => len (snd f) = d) written ->
    Forall (fun f => len (snd f) = d)
           (fst (Extend.extend_loop E splitext audio output_file d indices
                                    written)).
Proof.
  intros Hd. induction indices as [| i indices IH]; intros written Hw; simpl.
  - exact Hw.
  - destruct (Extend.export_to E _ _) as [[] | e]; simpl; [| exact Hw].
    apply IH. apply Forall_app. split; [exact Hw |].
    constructor; [| constructor]. now apply extend_segment_len.
Qed.

Lemma extend_loop_ok (E : env) (splitext : string -> string * string)
    (audio : AudioSegment) (output_file : string) (d : Z)
    (indices : list Z) :
  forall written files,
    Extend.extend_loop E splitext audio output_file d indices written
    = (files, Ok tt) ->
    files = written
            ++ map (fun i => (Extend.segment_output splitext output_file i,
                              Extend.extend_segment audio d i)) indices.
Proof.
  induction indices as [| i indices IH]; intros written files; simpl.
  - intros H; injection H as <-. now rewrite app_nil_r.
  - destruct (Extend.export_to E _ _) as [[] | e]; [| discriminate].
    intros H. apply IH in H. now rewrite <- app_assoc in H.
Qed.

(** Whatever the length of the audio and however the call ends, every
    file that [extend_audio_to_duration] has exported is exactly
    [duration_ms] long. *)
Theorem extend_audio_to_duration_exact_length
    (E : env) (splitext : string -> string * string)
    (input_file output_file : string) (duration_ms : Z)
    (written : list (string * AudioSegment)) (outcome : result unit) :
  Extend.extend_audio_to_duration E splitext input_file output_file
                                  duration_ms = (written, outcome) ->
  Forall (fun f => len (snd f) = duration_ms) written.
Proof.
  unfold Extend.extend_audio_to_duration.
  destruct (String.eqb input_file "");
    [intros Heq; injection Heq as <- _; constructor |].
  destruct (String.eqb output_file "");
    [intros Heq; injection Heq as <- _; constructor |].
  destruct (Z.leb_spec duration_ms 0) as [| Hd];
    [intros Heq; injection Heq as <- _; constructor |].
  destruct (negb (path_exists E input_file));
    [intros Heq; injection Heq as <- _; constructor |].
  destruct (negb (readable E input_file));
    [intros Heq; injection Heq as <- _; constructor |].
  destruct (from_file E input_file) as [audio | e];
    [| intros Heq; injection Heq as <- _; constructor].
  destruct (Z.ltb_spec duration_ms (len audio)) as [Hlong | Hshort].
  - intros Heq.
    pose proof (extend_loop_exact E splitext audio output_file duration_ms
                  (range ((len audio + duration_ms - 1) / duration_ms))
                  Hd [] (Forall_nil _)) as Hall.
    rewrite Heq in Hall. exact Hall.
  - destruct (Extend.export_to E _ output_file) as [[] | e];
      intros Heq; injection Heq as <- _; constructor; [| constructor].
    cbn [snd]. rewrite !len_app, !len_silent.
    pose proof (len_nonneg audio).
    assert (Hhalf : 0 <= Z.max (duration_ms - len audio) 0 / 2
                      <= Z.max (duration_ms - len audio) 0).
    { split; [apply Z.div_pos; lia |].
      apply Z.div_le_upper_bound; lia. }
    lia.
Qed.

(** Seven seconds cut into files of three seconds. *)
Lemma extend_audio_to_duration_exact_length_witness :
  Forall (fun f => len (snd f) = 3000)
    (fst (Extend.extend_audio_to_duration
            (Scenario.studio (Ok (Scenario.clip_of 7000))
                             Scenario.sure_of_blocks)
            (fun _ => ("/data/out"%string, ".wav"%string))
            "a.wav" "/data/out.wav" 3000)).
Proof.
  apply (extend_audio_to_duration_exact_length
           (Scenario.studio (Ok (Scenario.clip_of 7000))
                            Scenario.sure_of_blocks)
           (fun _ => ("/data/out"%string, ".wav"%string))
           "a.wav" "/data/out.wav" 3000 _
           (snd (Extend.extend_audio_to_duration
                   (Scenario.studio (Ok (Scenario.clip_of 7000))
                                    Scenario.sure_of_blocks)
                   (fun _ => ("/data/out"%string, ".wav"%string))
                   "a.wav" "/data/out.wav" 3000))).
  apply surjective_pairing.
Defined.

Lemma concat_slices (a : AudioSegment) (d : Z) (k : nat) :
  0 <= d ->
  concat (map (fun i => slice a (i * d) ((i + 1) * d))
              (map Z.of_nat (seq 0 k)))
  = firstn (Z.to_nat (Z.of_nat k * d)) a.
Proof.
  intros Hd. induction k as [| k IH].
  - reflexivity.
  - rewrite seq_S, !map_app, concat_app, IH. cbn [map concat Nat.add].
    rewrite app_nil_r. unfold slice.
    replace (Z.to_nat (Z.of_nat (S k) * d))
      with (Z.to_nat ((Z.of_nat k + 1) * d)) by (f_equal; lia).
    rewrite <- (firstn_skipn (Z.to_nat (Z.of_nat k * d))
                  (firstn (Z.to_nat ((Z.of_nat k + 1) * d)) a)) at 2.
    rewrite firstn_firstn. f_equal. f_equal. nia.
Qed.

Lemma extend_segment_of_padded (audio : AudioSegment) (d n i : Z) :
  0 < d -> (n - 1) * d < len audio -> len audio <= n * d -> 0 <= i < n ->
  Extend.extend_segment audio d i
  = slice (audio ++ silent (n * d - len audio)) (i * d) ((i + 1) * d).
Proof.
  intros Hd Hlo Hhi Hi. unfold Extend.extend_segment, slice.
  pose proof (len_nonneg audio) as HL. unfold len in *.
  destruct (Z_le_gt_dec ((i + 1) * d) (Z.of_nat (length audio))) as [Hfull | Hlast].
  - rewrite Z.min_l by lia.
    rewrite length_skipn, length_firstn.
    destruct (Z.ltb_spec
                (Z.of_nat (Init.Nat.min (Z.to_nat ((i + 1) * d)) (length audio)
                           - Z.to_nat (i * d))) d); [nia |].
    rewrite firstn_app.
    replace (Z.to_nat ((i + 1) * d) - length audio)%nat with 0%nat by lia.
    simpl. now rewrite app_nil_r.
  - assert (Hin : i = n - 1) by nia. subst i.
    rewrite Z.min_r by lia. rewrite Nat2Z.id, firstn_all.
    rewrite length_skipn.
    destruct (Z.ltb_spec (Z.of_nat (length audio - Z.to_nat ((n - 1) * d))) d);
      [| nia].
    rewrite firstn_all2.
    + rewrite skipn_app.
      replace (Z.to_nat ((n - 1) * d) - length audio)%nat with 0%nat by lia.
      simpl. do 2 f_equal. nia.
    + rewrite length_app. unfold silent. rewrite repeat_length. nia.
Qed.

(** When an audio longer than [duration_ms] is cut and every export
    succeeds, the files are the audio itself followed by less than one
    [duration_ms] of silence: no part of the audio is lost or repeated,
    silence is only added at the very end, and there are
    ceil(length / duration_ms) files, the first of them the output file
    itself. *)
Theorem extend_audio_to_duration_keeps_the_audio
    (E : env) (splitext : string -> string * string)
    (input_file output_file : string) (duration_ms : Z)
    (audio : AudioSegment) (written : list (string * AudioSegment)) :
  from_file E input_file = Ok audio ->
  duration_ms < len audio ->
  Extend.extend_audio_to_duration E splitext input_file output_file
                                  duration_ms = (written, Ok tt) ->
  let n := (len audio + duration_ms - 1) / duration_ms in
  Z.of_nat (length written) = n /\
  concat (map snd written) = audio ++ silent (n * duration_ms - len audio) /\
  0 <= n * duration_ms - len audio < duration_ms /\
  (exists first rest, written = (output_file, first) :: rest).
Proof.
  intros Hfile Hlong. unfold Extend.extend_audio_to_duration.
  destruct (String.eqb input_file ""); [discriminate |].
  destruct (String.eqb output_file ""); [discriminate |].
  destruct (Z.leb_spec duration_ms 0) as [| Hd]; [discriminate |].
  destruct (negb (path_exists E input_file)); [discriminate |].
  destruct (negb (readable E input_file)); [discriminate |].
  rewrite Hfile.
  destruct (Z.ltb_spec duration_ms (len audio)); [| lia].
  intros Hloop. apply extend_loop_ok in Hloop. cbn [app] in Hloop.
  set (n := (len audio + duration_ms - 1) / duration_ms) in *.
  assert (Hn : (n - 1) * duration_ms < len audio <= n * duration_ms).
  { unfold n.
    pose proof (Z.mul_div_le (len audio + duration_ms - 1) duration_ms Hd).
    pose proof (Z.mul_succ_div_gt (len audio + duration_ms - 1)
                                  duration_ms Hd).
    lia. }
  assert (Hn1 : 1 <= n) by (pose proof (len_nonneg audio); nia).
  subst written. split; [| split; [| split]].
  - rewrite length_map, range_length. lia.
  - rewrite map_map. cbn [snd].
    rewrite (map_ext_in _
               (fun i => slice (audio ++ silent (n * duration_ms - len audio))
                               (i * duration_ms) ((i + 1) * duration_ms))).
    + unfold range. rewrite concat_slices by lia.
      rewrite Z2Nat.id by lia. apply firstn_all2.
      rewrite length_app. unfold silent, len. rewrite repeat_length.
      unfold len in Hn. lia.
    + intros i Hi. apply range_In in Hi.
      apply extend_segment_of_padded; lia.
  - lia.
  - unfold range. destruct (Z.to_nat n) as [| k] eqn:Hk; [lia |].
    simpl. eexists. eexists. reflexivity.
Qed.

(** Seven seconds cut into three files of three seconds. *)
Lemma extend_audio_to_duration_keeps_the_audio_witness :
  let E := Scenario.studio (Ok (Scenario.clip_of 7000))
                           Scenario.sure_of_blocks in
  let written :=
    fst (Extend.extend_audio_to_duration
           E (fun _ => ("/data/out"%string, ".wav"%string))
           "a.wav" "/data/out.wav" 3000) in
  Z.of_nat (length written) = 3 /\
  concat (map snd written) = Scenario.clip_of 7000 ++ silent 2000.
Proof.
  intros E written.
  destruct (extend_audio_to_duration_keeps_the_audio
              E (fun _ => ("/data/out"%string, ".wav"%string))
              "a.wav" "/data/out.wav" 3000 (Scenario.clip_of 7000) written)
    as (Hlen & Hcat & _).
  - reflexivity.
  - vm_compute. reflexivity.
  - vm_compute. reflexivity.
  - split; [exact Hlen | exact Hcat].
Defined.

(** ** Severity tiers *)

(** The severity never goes down when the confidence goes up, and the
    tiers are cut at 0.4, 0.6 and 0.8. *)
Theorem calculate_severity_monotone (c1 c2 : Q) :
  (c1 <= c2)%Q ->
  Service.severity_rank (Service._calculate_severity c1)
  <= Service.severity_rank (Service._calculate_severity c2)
  /\
  (Service._calculate_severity c2 = "high"%string <-> (8 # 10 <= c2)%Q) /\
  (Service._calculate_severity c2 = "very_low"%string <-> (c2 < 4 # 10)%Q).
Proof.
  intros Hle. unfold Service._calculate_severity.
  assert (Hmono : forall t, Qle_bool t c1 = true -> Qle_bool t c2 = true).
  { intros t H. apply Qle_bool_iff in H. apply Qle_bool_iff.
    eapply Qle_trans; eassumption. }
  split; [| split].
  - destruct (Qle_bool (8 # 10) c1) eqn:H8.
    { rewrite (Hmono _ H8). reflexivity. }
    destruct (Qle_bool (6 # 10) c1) eqn:H6.
    { rewrite (Hmono _ H6). destruct (Qle_bool (8 # 10) c2); cbn; lia. }
    destruct (Qle_bool (4 # 10) c1) eqn:H4.
    { rewrite (Hmono _ H4).
      destruct (Qle_bool (8 # 10) c2), (Qle_bool (6 # 10) c2); cbn; lia. }
    destruct (Qle_bool (8 # 10) c2), (Qle_bool (6 # 10) c2),
      (Qle_bool (4 # 10) c2); cbn; lia.
  - destruct (Qle_bool (8 # 10) c2) eqn:H8.
    + apply Qle_bool_iff in H8. tauto.
    + split.
      * destruct (Qle_bool (6 # 10) c2), (Qle_bool (4 # 10) c2); discriminate.
      * intros H. apply Qle_bool_iff in H. congruence.
  - destruct (Qle_bool (8 # 10) c2) eqn:H8.
    { split; [discriminate |]. intros H. apply Qle_bool_iff in H8.
      exfalso. apply (Qlt_not_le _ _ H).
      eapply Qle_trans; [| exact H8]. discriminate. }
    destruct (Qle_bool (6 # 10) c2) eqn:H6.
    { split; [discriminate |]. intros H. apply Qle_bool_iff in H6.
      exfalso. apply (Qlt_not_le _ _ H).
      eapply Qle_trans; [| exact H6]. discriminate. }
    destruct (Qle_bool (4 # 10) c2) eqn:H4.
    { split; [discriminate |]. intros H. apply Qle_bool_iff in H4.
      exfalso. apply (Qlt_not_le _ _ H). exact H4. }
    apply Qle_bool_false in H4. tauto.
Qed.

(** From 0.55 to 0.65: from low to medium. *)
Lemma calculate_severity_monotone_witness :
  Service.severity_rank (Service._calculate_severity (55 # 100))
  <= Service.severity_rank (Service._calculate_severity (65 # 100))
  /\
  (Service._calculate_severity (65 # 100) = "high"%string
   <-> (8 # 10 <= 65 # 100)%Q) /\
  (Service._calculate_severity (65 # 100) = "very_low"%string
   <-> (65 # 100 < 4 # 10)%Q).
Proof.
  apply (calculate_severity_monotone (55 # 100) (65 # 100)). discriminate.
Defined.

(** ** The default model *)

Lemma first_existing_spec (E : env) (paths : list string) :
  match Service.first_existing E paths with
  | Some p =>
      exists pre post,
        paths = pre ++ p :: post /\ path_exists E p = true /\
        Forall (fun q => path_exists E q = false) pre
  | None => Forall (fun q => path_exists E q = false) paths
  end.
Proof.
  induction paths as [| path paths IH]; simpl; [constructor |].
  destruct (path_exists E path) eqn:Hex.
  - exists [], paths. auto.
  - destruct (Service.first_existing E paths) as [p |].
    + destruct IH as (pre & post & -> & Hp & Hpre).
      exists (path :: pre), post. auto.
    + constructor; assumption.
Qed.

Lemma Forall_firstn_of {A} (P : A -> Prop) (k : nat) (l : list A) :
  Forall P l -> Forall P (firstn k l).
Proof.
  intros H. revert k. induction H as [| x l Hx _ IH]; intros [| k]; simpl;
    constructor; auto.
Qed.

(** Where an element sits relative to the first [k] places. *)
Lemma split_at_prefix {A} (P : A -> Prop) (k : nat)
    (pre post : list A) (p : A) :
  Forall P pre ->
  In p (firstn k (pre ++ p :: post)) \/
  (In p (skipn k (pre ++ p :: post)) /\
   Forall P (firstn k (pre ++ p :: post))).
Proof.
  intros Hpre. destruct (Nat.lt_ge_cases (length pre) k) as [Hlt | Hge].
  - left. rewrite firstn_app, firstn_all2 by lia.
    apply in_or_app. right.
    destruct (k - length pre)%nat as [| j] eqn:Hj; [lia |]. now left.
  - right. split.
    + rewrite skipn_app.
      replace (k - length pre)%nat with 0%nat by lia.
      apply in_or_app. right. now left.
    + rewrite firstn_app.
      replace (k - length pre)%nat with 0%nat by lia.
      simpl. rewrite app_nil_r. now apply Forall_firstn_of.
Qed.

(** [_find_default_model] returns the first of its six candidates that
    exists, and [None] exactly when none does. The three H5 candidates
    come first: a TFLite file is returned only when none of the three H5
    files exists. *)
Theorem find_default_model_prefers_h5 (E : env) (here : string) :
  (Service._find_default_model E here = None <->
   Forall (fun q => path_exists E q = false) (Service.possible_paths here))
  /\
  (forall p,
      Service._find_default_model E here = Some p ->
      path_exists E p = true /\
      (In p (firstn 3 (Service.possible_paths here)) \/
       (In p (skipn 3 (Service.possible_paths here)) /\
        Forall (fun q => path_exists E q = false)
               (firstn 3 (Service.possible_paths here))))).
Proof.
  unfold Service._find_default_model.
  pose proof (first_existing_spec E (Service.possible_paths here)) as Hspec.
  destruct (Service.first_existing E (Service.possible_paths here))
    as [p |] eqn:Hfind.
  - split.
    + split; [discriminate |]. intros Hall.
      destruct Hspec as (pre & post & Heq & Hp & _).
      rewrite Forall_forall in Hall.
      rewrite (Hall p) in Hp; [discriminate |].
      rewrite Heq. apply in_or_app. right. now left.
    + intros p' Hp'. injection Hp' as <-.
      destruct Hspec as (pre & post & Heq & Hp & Hpre).
      split; [exact Hp |]. rewrite Heq.
      apply split_at_prefix. exact Hpre.
  - split; [tauto | discriminate].
Qed.

(** Only a TFLite file exists: it is the one returned. *)
Lemma find_default_model_prefers_h5_witness :
  path_exists Cases.only_tflite "/app/models/cnn_model.tflite" = true /\
  (In "/app/models/cnn_model.tflite"%string
      (firstn 3 (Service.possible_paths "/app")) \/
   (In "/app/models/cnn_model.tflite"%string
       (skipn 3 (Service.possible_paths "/app")) /\
    Forall (fun q => path_exists Cases.only_tflite q = false)
           (firstn 3 (Service.possible_paths "/app")))).
Proof.
  apply (proj2 (find_default_model_prefers_h5 Cases.only_tflite "/app")).
  vm_compute. reflexivity.
Defined.

(** ** The precise mode *)

Lemma count_types_counts (types : list string) :
  forall d : Dict.t Z,
    NoDup (Dict.keys d) ->
    Forall (fun kv => 1 <= snd kv) d ->
    Measures.total_count (Service.count_types types d)
    = Measures.total_count d + Z.of_nat (length types) /\
    NoDup (Dict.keys (Service.count_types types d)) /\
    Forall (fun kv => 1 <= snd kv) (Service.count_types types d) /\
    (forall k, In k (Dict.keys (Service.count_types types d)) <->
               In k (Dict.keys d) \/ In k types).
Proof.
  induction types as [| t types IH]; intros d Hnd Hpos.
  - simpl. repeat split; auto; try lia. intuition.
  - cbn [Service.count_types length].
    destruct (IH (Dict.set t (Dict.get_or t 0 d + 1) d))
      as (Hsum & Hnd' & Hpos' & Hkeys).
    + apply keys_set_NoDup, Hnd.
    + apply counts_positive_set, Hpos.
    + split; [rewrite Hsum, total_count_set; lia |].
      split; [exact Hnd' |]. split; [exact Hpos' |].
      intros k. rewrite Hkeys, keys_set. simpl. intuition.
Qed.

(** The summary of the precise mode agrees with its events: the count
    of events, [hasEvents], the average (the mean of the events'
    confidences, 0 for none), a class distribution whose counts add up
    to the number of events and whose classes are the events' types, and
    a dominant type that is ["none"] for no event and otherwise the
    first type with the largest count. The fallback summary with an
    ['error'] entry is never produced. *)
Theorem precise_summary_agrees_with_events
    (results : Processing.report) (events : list Service.precise_event) :
  let s := Service.summarize_precise results events in
  Service.ps_error s = None /\
  Service.ps_preciseEventsDetected s = Z.of_nat (length events) /\
  Service.ps_hasEvents s = negb (length events =? 0)%nat /\
  (Service.ps_averageConfidence s
   == Spec.mean (map Service.pe_confidence events))%Q /\
  Measures.total_count (Service.ps_classDistribution s)
  = Z.of_nat (length events) /\
  (forall k, In k (Dict.keys (Service.ps_classDistribution s))
             <-> In k (map Service.pe_type events)) /\
  (events = [] -> Service.ps_dominantType s = "none"%string) /\
  (events <> [] ->
   exists n pre post,
     Service.ps_classDistribution s
     = pre ++ (Service.ps_dominantType s, n) :: post /\
     Forall (fun x => snd x < n) pre /\
     Forall (fun x => snd x <= n) post).
Proof.
  destruct (count_types_counts (map Service.pe_type events) []
              (NoDup_nil _) (Forall_nil _))
    as (Hsum & _ & _ & Hkeys).
  rewrite length_map in Hsum.
  unfold Service.summarize_precise, Service._get_dominant_type,
    Service._get_class_distribution.
  destruct events as [| e events].
  - cbn. split; [reflexivity |]. split; [reflexivity |].
    split; [reflexivity |]. split; [reflexivity |].
    split; [reflexivity |]. split; [tauto |].
    split; [reflexivity |]. intros H. contradiction H. reflexivity.
  - destruct (Service.count_types (map Service.pe_type (e :: events)) [])
      as [| best cc] eqn:Hcc.
    { unfold Measures.total_count in Hsum. simpl in Hsum. lia. }
    cbn [Dict.max_key].
    cbn [Service.ps_error Service.ps_preciseEventsDetected
         Service.ps_hasEvents Service.ps_averageConfidence
         Service.ps_classDistribution Service.ps_dominantType].
    split; [reflexivity |]. split; [reflexivity |].
    split; [reflexivity |].
    split.
    { unfold Service.mean_confidence, Spec.mean, Spec.total.
      cbn [map]. rewrite <- (length_map Service.pe_confidence (e :: events)).
      reflexivity. }
    split; [exact Hsum |].
    split; [intros k; rewrite Hkeys; simpl; tauto |].
    split; [discriminate |]. intros _.
    destruct (max_from_first_maximum_Z cc best [] [])
      as (pre & n & post & Heq & Hpre & Hpost); [constructor | constructor |].
    cbn [app] in Heq. exists n, pre, post. auto.
Qed.

(** Two blocks in one window. *)
Lemma precise_summary_agrees_with_events_witness :
  let events :=
    map (Service.precise_event_of Scenario.confident_segment)
        [Cases.one_block; Cases.one_block] in
  exists n pre post,
    Service.ps_classDistribution
      (Service.summarize_precise Scenario.blank_report events)
    = pre ++ (Service.ps_dominantType
                (Service.summarize_precise Scenario.blank_report events), n)
             :: post /\
    Forall (fun x => snd x < n) pre /\
    Forall (fun x => snd x <= n) post.
Proof.
  intros events.
  apply (precise_summary_agrees_with_events Scenario.blank_report events).
  discriminate.
Defined.

(** [int] below zero, and its monotonicity on all floats. *)
Lemma int_nonpos (x : Q) : (x <= 0)%Q -> Py.int x = - Qfloor (- x).
Proof.
  destruct x as [n d]; unfold Qle, Py.int, Qfloor, Qopp; simpl; intros H.
  rewrite <- (Z.quot_div_nonneg (- n) (Z.pos d)) by lia.
  rewrite Z.quot_opp_l by lia. lia.
Qed.

Lemma int_le (x y : Q) : (x <= y)%Q -> Py.int x <= Py.int y.
Proof.
  intros Hxy.
  destruct (Qlt_le_dec x 0) as [Hx | Hx].
  - destruct (Qlt_le_dec y 0) as [Hy | Hy].
    + rewrite !int_nonpos by (apply Qlt_le_weak; assumption).
      assert (H : Qfloor (- y) <= Qfloor (- x))
        by (apply Qfloor_resp_le, Qopp_le_compat, Hxy).
      lia.
    + rewrite (int_nonpos x) by (apply Qlt_le_weak; assumption).
      rewrite (int_nonneg y) by assumption.
      assert (H1 : Qfloor 0 <= Qfloor (- x)).
      { apply Qfloor_resp_le. apply Qlt_le_weak in Hx.
        apply Qopp_le_compat in Hx. exact Hx. }
      assert (H2 : Qfloor 0 <= Qfloor y) by (apply Qfloor_resp_le, Hy).
      change (Qfloor 0) with 0 in *. lia.
  - apply int_monotone; assumption.
Qed.

Lemma stamped_In (rs : list CNNModelPredictor.segment_result) :
  forall i r,
    Measures.stamped i rs -> In r rs ->
    exists k, i <= k < i + Z.of_nat (length rs) /\
              (CNNModelPredictor.timestamp_start r == inject_Z k * 5)%Q.
Proof.
  induction rs as [| r0 rs IH]; intros i r Hst Hin; [contradiction |].
  destruct Hst as (Hs & _ & Hrest). cbn [length].
  destruct Hin as [<- | Hin].
  - exists i. split; [lia | exact Hs].
  - destruct (IH _ _ Hrest Hin) as (k & Hk & Hsk).
    exists k. split; [lia | exact Hsk].
Qed.

(** What the loop over the segments adds to its two lists. *)
Lemma precise_loop_spec (L : Service.localizer)
    (segments : list CNNModelPredictor.segment_result) :
  forall events errors events' errors',
    Service.precise_loop L segments events errors = Ok (events', errors') ->
    exists new_events new_errors,
      events' = events ++ new_events /\
      errors' = errors ++ new_errors /\
      Forall2 (fun segment message =>
                 exists m, Measures.failure_of L segment = Some m /\
                           message
                           = (Service.segment_label segment ++ m)%string)
              (filter (Measures.fails L) segments) new_errors /\
      Forall (fun e =>
                exists segment found sub,
                  In segment segments /\
                  CNNModelPredictor.error segment = None /\
                  Service.analyze_audio_with_precise_detection
                    L "" (Service.predictions_or_default segment)
                  = Ok (Some found) /\
                  In sub found /\
                  e = Service.precise_event_of segment sub)
             new_events.
Proof.
  induction segments as [| segment rest IH]; intros events errors ev' er' H.
  - cbn in H. injection H as <- <-. exists [], [].
    rewrite !app_nil_r. repeat split; constructor.
  - cbn [Service.precise_loop] in H.
    unfold Measures.fails, Measures.failure_of. cbn [filter].
    destruct (CNNModelPredictor.error segment) as [msg |] eqn:Herr.
    + destruct (IH _ _ _ _ H) as (ne & nr & -> & -> & Hf & He).
      exists ne, ((Service.segment_label segment ++ msg)%string :: nr).
      split; [reflexivity |]. split; [now rewrite <- app_assoc |].
      split.
      * constructor; [| exact Hf]. exists msg.
        unfold Measures.failure_of. rewrite Herr. auto.
      * eapply Forall_impl; [| exact He].
        intros e (sg & found & sub & Hin & Hrest).
        exists sg, found, sub. split; [right; exact Hin | exact Hrest].
    + destruct (Service.analyze_audio_with_precise_detection L ""
                  (Service.predictions_or_default segment))
        as [analysis | e] eqn:Hloc.
      * destruct (IH _ _ _ _ H) as (ne & nr & -> & -> & Hf & He).
        exists (map (Service.precise_event_of segment)
                    match analysis with Some evs => evs | None => [] end
                ++ ne), nr.
        split; [now rewrite <- app_assoc |]. split; [reflexivity |].
        split; [exact Hf |].
        apply Forall_app. split.
        -- destruct analysis as [found |]; [| constructor].
           apply Forall_forall. intros x Hx. apply in_map_iff in Hx.
           destruct Hx as (sub & <- & Hsub).
           exists segment, found, sub. simpl. auto.
        -- eapply Forall_impl; [| exact He].
           intros x (sg & found & sub & Hin & Hrest).
           exists sg, found, sub. split; [right; exact Hin | exact Hrest].
      * destruct (is_Exception e) eqn:Hcls; [| discriminate].
        destruct (IH _ _ _ _ H) as (ne & nr & -> & -> & Hf & He).
        exists ne, ((Service.segment_label segment ++ exn_msg e)%string :: nr).
        split; [reflexivity |]. split; [now rewrite <- app_assoc |].
        split.
        -- constructor; [| exact Hf]. exists (exn_msg e).
           unfold Measures.failure_of. rewrite Herr, Hloc. auto.
        -- eapply Forall_impl; [| exact He].
           intros x (sg & found & sub & Hin & Hrest).
           exists sg, found, sub. split; [right; exact Hin | exact Hrest].
Qed.

(** The loop ends normally when the localizer raises nothing but
    [Exception]s. *)
Lemma precise_loop_ok (L : Service.localizer)
    (segments : list CNNModelPredictor.segment_result) :
  (forall segment e,
      In segment segments ->
      Service.analyze_audio_with_precise_detection
        L "" (Service.predictions_or_default segment) = Raise e ->
      is_Exception e = true) ->
  forall events errors,
    exists out, Service.precise_loop L segments events errors = Ok out.
Proof.
  induction segments as [| segment rest IH]; intros Hraise events errors.
  - eexists. reflexivity.
  - cbn [Service.precise_loop].
    assert (Hrest : forall sg e,
               In sg rest ->
               Service.analyze_audio_with_precise_detection
                 L "" (Service.predictions_or_default sg) = Raise e ->
               is_Exception e = true)
      by (intros sg e Hin; apply Hraise; right; exact Hin).
    destruct (CNNModelPredictor.error segment); [apply IH, Hrest |].
    destruct (Service.analyze_audio_with_precise_detection L ""
                (Service.predictions_or_default segment)) as [a | e] eqn:Hloc.
    + apply IH, Hrest.
    + rewrite (Hraise segment e (or_introl eq_refl) Hloc). apply IH, Hrest.
Qed.

Lemma get_dominant_type_ok (events : list Service.precise_event) :
  exists k, Service._get_dominant_type events = Ok k.
Proof.
  destruct events as [| e events]; [eexists; reflexivity |].
  unfold Service._get_dominant_type.
  destruct (count_types_counts (map Service.pe_type (e :: events)) []
              (NoDup_nil _) (Forall_nil _)) as (Hsum & _).
  destruct (Service.count_types (map Service.pe_type (e :: events)) [])
    as [| best cc].
  - unfold Measures.total_count in Hsum. cbn [length map] in Hsum.
    simpl fold_right in Hsum. lia.
  - cbn [Dict.max_key]. eexists. reflexivity.
Qed.

(** The loop of the precise mode accounts for every segment: the error
    list gets one message per failing segment, in the order of the
    segments, made of ["Segment <index>: "] and the segment's error or
    the message of the localizer's exception; every event comes from a
    sub-event the localizer found in a segment without an error. *)
Theorem precise_loop_accounts_for_every_segment
    (L : Service.localizer)
    (segments : list CNNModelPredictor.segment_result)
    (events : list Service.precise_event) (errors : list string) :
  Service.precise_loop L segments [] [] = Ok (events, errors) ->
  Forall2 (fun segment message =>
             exists m, Measures.failure_of L segment = Some m /\
                       message = (Service.segment_label segment ++ m)%string)
          (filter (Measures.fails L) segments) errors /\
  Forall (fun e =>
            exists segment found sub,
              In segment segments /\
              CNNModelPredictor.error segment = None /\
              Service.analyze_audio_with_precise_detection
                L "" (Service.predictions_or_default segment)
              = Ok (Some found) /\
              In sub found /\
              e = Service.precise_event_of segment sub)
         events.
Proof.
  intros H.
  destruct (precise_loop_spec _ _ _ _ _ _ H) as (ne & nr & -> & -> & Hf & He).
  split; assumption.
Qed.

(** A confident segment, one the localizer fails on and one without a
    classification. *)
Lemma precise_loop_accounts_for_every_segment_witness :
  let segments :=
    [Scenario.confident_segment; Cases.unsure_segment;
     Cases.failed_segment] in
  exists events errors,
    Service.precise_loop Cases.picky_localizer segments [] []
    = Ok (events, errors) /\
    length events = 1%nat /\
    Forall2 (fun segment message =>
               exists m,
                 Measures.failure_of Cases.picky_localizer segment = Some m /\
                 message = (Service.segment_label segment ++ m)%string)
            (filter (Measures.fails Cases.picky_localizer) segments) errors.
Proof.
  intros segments. eexists. eexists.
  split; [vm_compute; reflexivity |].
  split; [reflexivity |].
  refine (proj1 (precise_loop_accounts_for_every_segment
                   Cases.picky_localizer segments _ _ _)).
  vm_compute. reflexivity.
Defined.

Lemma stamp_le_int (k : Z) (s x c : Q) :
  (s == inject_Z k * 5)%Q -> (0 <= x)%Q -> (0 < c)%Q ->
  forall z, (inject_Z z == inject_Z k * 5 * c)%Q ->
  z <= Py.int ((s + x) * c).
Proof.
  intros Hs Hx Hc z Hz.
  rewrite <- (int_of_Z (inject_Z z) z) at 1 by reflexivity.
  apply int_le. rewrite Hz, Hs.
  apply Qmult_le_compat_r; [| apply Qlt_le_weak, Hc].
  rewrite <- (Qplus_0_r (inject_Z k * 5)) at 1.
  apply Qplus_le_compat; [apply Qle_refl | exact Hx].
Qed.

(** The events of the precise mode in absolute time. Every event
    belongs to a window position [k] below [totalSegments], and its
    [segment_start] is the five-second stamp [5 * k] of that position;
    with a non-negative relative start, [t0] is at least [5000 * k]
    milliseconds and [seconds] at least [5 * k]; with a relative start
    not after the relative end, [t0 <= t1]. *)
Theorem precise_events_absolute_times
    (E : env) (L : Service.localizer)
    (self_model_path self_temp_dir : option string)
    (audio_file_path : string) (output_dir : option string)
    (rep : Service.precise_report) :
  Service.analyze_audio_file_precise E L self_model_path self_temp_dir
                                     audio_file_path output_dir = Ok rep ->
  Forall (fun e =>
            exists k,
              0 <= k < Service.ps_totalSegments
                         (Service.precise_summary_of rep) /\
              (Service.segment_start e == inject_Z k * 5)%Q /\
              ((0 <= Service.relative_start e)%Q ->
               5000 * k <= Service.pe_t0 e /\ 5 * k <= Service.pe_seconds e) /\
              ((Service.relative_start e <= Service.relative_end e)%Q ->
               Service.pe_t0 e <= Service.pe_t1 e))
         (Service.precise_events_of rep).
Proof.
  unfold Service.analyze_audio_file_precise, Py.bind.
  destruct (String.eqb audio_file_path ""); [discriminate |].
  destruct (negb (path_exists E audio_file_path)); [discriminate |].
  destruct (negb (readable E audio_file_path)); [discriminate |].
  destruct self_model_path as [model_path |]; [| discriminate].
  destruct (String.eqb model_path ""); [discriminate |].
  destruct (negb (path_exists E model_path)); [discriminate |].
  destruct (Processing.process_audio_file E audio_file_path model_path _)
    as [r |] eqn:Hproc; [| discriminate].
  destruct (Service.new_detector L); [| discriminate].
  destruct (Service.precise_loop L (Processing.segments r) [] [])
    as [[events errors] |] eqn:Hloop; [| discriminate].
  intros H. injection H as <-.
  cbn [Service.precise_events_of Service.precise_summary_of fst].
  destruct (precise_loop_spec _ _ _ _ _ _ Hloop)
    as (ne & nr & -> & _ & _ & He).
  cbn [app].
  destruct (process_audio_file_ok_cases _ _ _ _ _ Hproc)
    as (_ & _ & [(Hs & _) | (_ & Hsum & _ & Hst)]).
  { rewrite Hs in He. apply Forall_forall. intros e Hin.
    rewrite Forall_forall in He.
    destruct (He e Hin) as (sg & _ & _ & [] & _). }
  unfold Service.summarize_precise.
  destruct (get_dominant_type_ok ne) as [dominant ->].
  cbn [Service.ps_totalSegments]. rewrite Hsum.
  cbn [CNNAnalysisService.summary_get].
  destruct (summarize_counts (Processing.segments r)) as [-> _].
  eapply Forall_impl; [| exact He].
  intros e (sg & found & sub & Hin & _ & _ & _ & ->).
  destruct (stamped_In _ 0 sg Hst Hin) as (k & Hk & Hstamp).
  exists k. split; [lia |].
  cbn [Service.precise_event_of Service.segment_start Service.pe_t0
       Service.pe_t1 Service.pe_seconds Service.relative_start
       Service.relative_end].
  split; [exact Hstamp |]. split.
  - intros Hrel. split.
    + apply (stamp_le_int k); [exact Hstamp | exact Hrel | reflexivity |].
      rewrite inject_Z_mult. change (inject_Z 5000) with (5000 # 1).
      ring.
    + rewrite <- (int_of_Z (inject_Z (5 * k)) (5 * k)) by reflexivity.
      apply int_le. rewrite Hstamp, inject_Z_mult.
      change (inject_Z 5) with (5 # 1).
      rewrite <- (Qplus_0_r ((5 # 1) * inject_Z k)).
      apply Qplus_le_compat; [| exact Hrel].
      rewrite Qmult_comm. apply Qle_refl.
  - intros Hrel. apply int_le.
    apply Qmult_le_compat_r; [| discriminate].
    apply Qplus_le_compat; [apply Qle_refl | exact Hrel].
Qed.

(** Seven seconds, a block found in the first window only. *)
Lemma precise_events_absolute_times_witness :
  exists rep,
    Service.analyze_audio_file_precise
      Cases.first_window_only Cases.picky_localizer
      (Some "model.h5"%string) (Some "/tmp/svc"%string) "a.wav" None
    = Ok rep /\
    length (Service.precise_events_of rep) = 1%nat /\
    Forall (fun e =>
              exists k,
                0 <= k < Service.ps_totalSegments
                           (Service.precise_summary_of rep) /\
                (Service.segment_start e == inject_Z k * 5)%Q /\
                ((0 <= Service.relative_start e)%Q ->
                 5000 * k <= Service.pe_t0 e /\
                 5 * k <= Service.pe_seconds e) /\
                ((Service.relative_start e <= Service.relative_end e)%Q ->
                 Service.pe_t0 e <= Service.pe_t1 e))
           (Service.precise_events_of rep).
Proof.
  eexists. split; [vm_compute; reflexivity |].
  split; [reflexivity |].
  apply (precise_events_absolute_times
           Cases.first_window_only Cases.picky_localizer
           (Some "model.h5"%string) (Some "/tmp/svc"%string) "a.wav" None).
  vm_compute. reflexivity.
Defined.

(** With a valid audio file and model, a report of [process_audio_file]
    and a detector that can be built, the precise mode returns a report
    whenever the localizer raises nothing but [Exception]s: no failure
    of a single segment ends the analysis. The report names the model
    and the input file, its summary has no ['error'] entry, and its
    error list has one entry per failing segment followed by the errors
    of [process_audio_file]. *)
Theorem analyze_audio_file_precise_returns
    (E : env) (L : Service.localizer)
    (model_path : string) (self_temp_dir : option string)
    (audio_file_path : string) (output_dir : option string)
    (r : Processing.report) :
  audio_file_path <> ""%string ->
  path_exists E audio_file_path = true ->
  readable E audio_file_path = true ->
  model_path <> ""%string ->
  path_exists E model_path = true ->
  Processing.process_audio_file
    E audio_file_path model_path
    (match output_dir with None => self_temp_dir | Some d => Some d end)
  = Ok r ->
  Service.new_detector L = Ok tt ->
  (forall segment e,
      In segment (Processing.segments r) ->
      Service.analyze_audio_with_precise_detection
        L "" (Service.predictions_or_default segment) = Raise e ->
      is_Exception e = true) ->
  exists rep,
    Service.analyze_audio_file_precise E L (Some model_path) self_temp_dir
                                       audio_file_path output_dir = Ok rep /\
    Service.precise_model_path rep = model_path /\
    Service.precise_input_file rep = audio_file_path /\
    Service.ps_error (Service.precise_summary_of rep) = None /\
    Service.ps_preciseEventsDetected (Service.precise_summary_of rep)
    = Z.of_nat (length (Service.precise_events_of rep)) /\
    length (Service.precise_errors rep)
    = (length (filter (Measures.fails L) (Processing.segments r))
       + length (Processing.errors r))%nat.
Proof.
  intros Ha Hae Har Hm Hme Hproc Hdet Hraise.
  unfold Service.analyze_audio_file_precise, Py.bind.
  apply String.eqb_neq in Ha, Hm. rewrite Ha, Hae, Har, Hm, Hme.
  cbn [negb]. rewrite Hproc, Hdet.
  destruct (precise_loop_ok L (Processing.segments r) Hraise [] [])
    as [[events errors] Hloop].
  rewrite Hloop.
  destruct (precise_loop_spec _ _ _ _ _ _ Hloop)
    as (ne & nr & -> & -> & Hf & _).
  eexists. split; [reflexivity |].
  cbn [Service.precise_model_path Service.precise_input_file
       Service.precise_summary_of Service.precise_events_of
       Service.precise_errors fst snd app].
  split; [reflexivity |]. split; [reflexivity |].
  unfold Service.summarize_precise.
  destruct (get_dominant_type_ok ne) as [dominant ->].
  cbn [Service.ps_error Service.ps_preciseEventsDetected].
  split; [reflexivity |]. split; [reflexivity |].
  rewrite length_app. f_equal. symmetry.
  eapply Forall2_length. exact Hf.
Qed.

(** Seven seconds with a classifier that is sure of the first window
    only: the localizer fails on the two other windows. *)
Lemma analyze_audio_file_precise_returns_witness :
  exists rep,
    Service.analyze_audio_file_precise
      Cases.first_window_only Cases.picky_localizer
      (Some "model.h5"%string) (Some "/tmp/svc"%string) "a.wav" None
    = Ok rep /\
    length (Service.precise_errors rep) = 2%nat.
Proof.
  destruct (analyze_audio_file_precise_returns
              Cases.first_window_only Cases.picky_localizer
              "model.h5" (Some "/tmp/svc"%string) "a.wav" None
              match Processing.process_audio_file
                      Cases.first_window_only "a.wav" "model.h5"
                      (Some "/tmp/svc"%string) with
              | Ok r => r
              | Raise _ => Scenario.blank_report
              end)
    as (rep & Hrep & _ & _ & _ & _ & Hlen).
  - discriminate.
  - reflexivity.
  - reflexivity.
  - discriminate.
  - reflexivity.
  - vm_compute. reflexivity.
  - reflexivity.
  - intros segment e Hin Hraise.
    vm_compute in Hin.
    destruct Hin as [<- | [<- | [<- | []]]];
      vm_compute in Hraise; try discriminate;
      injection Hraise as <-; reflexivity.
  - exists rep. split; [exact Hrep |].
    rewrite Hlen. vm_compute. reflexivity.
Defined.

(** ** FlutterCNNService *)

(** A constructed [FlutterCNNService] is usable: PyTorch was imported,
    [use_pytorch] is set, no temporary directory is held, and the
    service wraps a [PyTorchCNNService] with a detector, built for a
    model file that exists: the one under [models/] when it exists,
    otherwise the one beside the service. *)
Theorem flutter_init_gives_usable_service
    (R : Type) (E : env) (PYTORCH_AVAILABLE : bool)
    (new_service : string -> result (FlutterCNNService.pytorch_service R))
    (here : string) (self : FlutterCNNService.t R) :
  FlutterCNNService.init E PYTORCH_AVAILABLE new_service here = Ok self ->
  PYTORCH_AVAILABLE = true /\
  FlutterCNNService.use_pytorch self = true /\
  FlutterCNNService.temp_dir self = None /\
  exists path service,
    FlutterCNNService.pytorch_service_of self = Some service /\
    new_service path = Ok service /\
    FlutterCNNService.detector service = true /\
    path_exists E path = true /\
    (path = Service.join (Service.join here "models")
                         FlutterCNNService.model_file \/
     (path = Service.join here FlutterCNNService.model_file /\
      path_exists E (Service.join (Service.join here "models")
                                  FlutterCNNService.model_file) = false)).
Proof.
  unfold FlutterCNNService.init, FlutterCNNService._find_pytorch_model,
    FlutterCNNService.possible_paths.
  destruct PYTORCH_AVAILABLE; [| discriminate]. cbn [negb].
  cbn [Service.first_existing].
  set (p1 := Service.join (Service.join here "models")
                          FlutterCNNService.model_file).
  set (p2 := Service.join here FlutterCNNService.model_file).
  assert (Hstart : forall path,
             path_exists E path = true ->
             (if String.eqb path "" then
                raise FileNotFoundError FlutterCNNService.not_found_message
              else
                match FlutterCNNService.start_service new_service path with
                | Ok service =>
                    Ok {| FlutterCNNService.temp_dir := None;
                          FlutterCNNService.use_pytorch := true;
                          FlutterCNNService.pytorch_service_of :=
                            Some service |}
                | Raise e =>
                    if is_Exception e then
                      raise RuntimeError
                        ("Failed to initialize PyTorch CNN service: "
                         ++ exn_msg e
                         ++ ". The 71% accuracy model is required.")
                    else Raise e
                end) = Ok self ->
             FlutterCNNService.use_pytorch self = true /\
             FlutterCNNService.temp_dir self = None /\
             exists service,
               FlutterCNNService.pytorch_service_of self = Some service /\
               new_service path = Ok service /\
               FlutterCNNService.detector service = true).
  { intros path Hex.
    destruct (String.eqb path ""); [discriminate |].
    unfold FlutterCNNService.start_service, Py.bind.
    destruct (new_service path) as [service | e].
    - destruct (FlutterCNNService.detector service) eqn:Hd; cbn.
      + intros H; injection H as <-. cbn.
        split; [reflexivity |]. split; [reflexivity |].
        exists service. auto.
      + discriminate.
    - destruct (is_Exception e); discriminate. }
  destruct (path_exists E p1) eqn:H1.
  - intros H. destruct (Hstart p1 H1 H) as (Hu & Ht & service & Hs & Hn & Hd).
    split; [reflexivity |]. split; [exact Hu |]. split; [exact Ht |].
    exists p1, service. auto 10.
  - destruct (path_exists E p2) eqn:H2; [| discriminate].
    intros H. destruct (Hstart p2 H2 H) as (Hu & Ht & service & Hs & Hn & Hd).
    split; [reflexivity |]. split; [exact Hu |]. split; [exact Ht |].
    exists p2, service. auto 10.
Qed.

(** The model beside the service, none under [models/]. *)
Lemma flutter_init_gives_usable_service_witness :
  let E := Cases.with_exists Cases.empty_disk
             (fun p => String.eqb p "/app/best_repetitions_fluent_logmel_cnn.pt") in
  exists self,
    FlutterCNNService.init E true (fun _ => Ok Cases.counting_service) "/app"
    = Ok self /\
    FlutterCNNService.use_pytorch self = true.
Proof.
  intros E. eexists. split; [vm_compute; reflexivity |].
  apply (flutter_init_gives_usable_service
           Z E true (fun _ => Ok Cases.counting_service) "/app").
  vm_compute. reflexivity.
Defined.

(** The constructor raises a [RuntimeError] or a [FileNotFoundError],
    whatever [Exception] the construction of the PyTorch service ended
    with; the [FileNotFoundError] exactly when PyTorch is there and none
    of the two model files exists. *)
Theorem flutter_init_raises_only
    (R : Type) (E : env) (PYTORCH_AVAILABLE : bool)
    (new_service : string -> result (FlutterCNNService.pytorch_service R))
    (here : string) (e : exn) :
  FlutterCNNService.init E PYTORCH_AVAILABLE new_service here = Raise e ->
  is_Exception e = true ->
  (exn_cls e = RuntimeError \/ exn_cls e = FileNotFoundError) /\
  (exn_cls e = FileNotFoundError <->
   PYTORCH_AVAILABLE = true /\
   Forall (fun p => path_exists E p = false)
          (FlutterCNNService.possible_paths here)).
Proof.
  unfold FlutterCNNService.init, FlutterCNNService._find_pytorch_model.
  destruct PYTORCH_AVAILABLE; cbn [negb].
  2:{ intros H; injection H as <-. intros _. cbn.
      split; [auto |]. split; [discriminate | intros [H _]; discriminate]. }
  pose proof (first_existing_spec E (FlutterCNNService.possible_paths here))
    as Hfirst.
  destruct (Service.first_existing E (FlutterCNNService.possible_paths here))
    as [path |].
  - destruct Hfirst as (pre & post & Heq & Hex & _).
    assert (Hnot : ~ Forall (fun p => path_exists E p = false)
                            (FlutterCNNService.possible_paths here)).
    { intros Hall. rewrite Forall_forall in Hall.
      rewrite (Hall path) in Hex; [discriminate |].
      rewrite Heq. apply in_or_app. right. left. reflexivity. }
    destruct (String.eqb path "") eqn:Hempty.
    { apply String.eqb_eq in Hempty. subst path.
      exfalso. revert Heq. clear.
      unfold FlutterCNNService.possible_paths, Service.join.
      intros Heq.
      assert (Hin : In ""%string (pre ++ ""%string :: post))
        by (apply in_or_app; right; left; reflexivity).
      rewrite <- Heq in Hin.
      destruct Hin as [H | [H | []]]; revert H;
        repeat match goal with
               | |- context [if ?b then _ else _] => destruct b
               end;
        destruct here; cbn; discriminate. }
    unfold FlutterCNNService.start_service, Py.bind.
    destruct (new_service path) as [service | e0].
    + destruct (FlutterCNNService.detector service); cbn;
        [discriminate |].
      intros H; injection H as <-. intros _. cbn.
      split; [auto |]. split; [discriminate | intros [_ H]; tauto].
    + destruct (is_Exception e0) eqn:Hcls.
      * intros H; injection H as <-. intros _. cbn.
        split; [auto |]. split; [discriminate | intros [_ H]; tauto].
      * intros H; injection H as <-. intros He.
        rewrite He in Hcls. discriminate.
  - intros H; injection H as <-. intros _. cbn.
    split; [auto |]. split; [intros _; split; [reflexivity | exact Hfirst] |].
    intros _. reflexivity.
Qed.

(** Nothing on disk. *)
Lemma flutter_init_raises_only_witness :
  exn_cls (mk_exn FileNotFoundError FlutterCNNService.not_found_message)
  = FileNotFoundError <->
  true = true /\
  Forall (fun p => path_exists Cases.empty_disk p = false)
         (FlutterCNNService.possible_paths "/app").
Proof.
  apply (flutter_init_raises_only
           Z Cases.empty_disk true (fun _ => Ok Cases.counting_service)
           "/app").
  - vm_compute. reflexivity.
  - reflexivity.
Defined.

Lemma flutter_init_state
    (R : Type) (E : env) (PYTORCH_AVAILABLE : bool)
    (new_service : string -> result (FlutterCNNService.pytorch_service R))
    (here : string) (self : FlutterCNNService.t R) :
  FlutterCNNService.init E PYTORCH_AVAILABLE new_service here = Ok self ->
  FlutterCNNService.use_pytorch self = true /\
  exists service, FlutterCNNService.pytorch_service_of self = Some service.
Proof.
  unfold FlutterCNNService.init.
  destruct (negb PYTORCH_AVAILABLE); [discriminate |].
  destruct (FlutterCNNService._find_pytorch_model E here) as [path |];
    [| discriminate].
  destruct (String.eqb path ""); [discriminate |].
  destruct (FlutterCNNService.start_service new_service path)
    as [service | e].
  - intros H; injection H as <-. cbn. eauto.
  - destruct (is_Exception e); discriminate.
Qed.

(** [analyze_audio] raises no [Exception]: what escapes it was raised
    by the PyTorch service on an existing file and is not an
    [Exception] (an interruption by the user). *)
Theorem flutter_analyze_audio_only_interrupts_escape
    (R Event : Type) (E : env) (self : FlutterCNNService.t R)
    (audio_file_path : string) (e : exn) :
  FlutterCNNService.analyze_audio Event E self audio_file_path = Raise e ->
  is_Exception e = false /\
  path_exists E audio_file_path = true /\
  exists service,
    FlutterCNNService.pytorch_service_of self = Some service /\
    FlutterCNNService.service_analyze_audio service audio_file_path = Raise e.
Proof.
  unfold FlutterCNNService.analyze_audio.
  destruct (path_exists E audio_file_path); cbn [negb]; [| discriminate].
  destruct (FlutterCNNService.use_pytorch self); [| discriminate].
  destruct (FlutterCNNService.pytorch_service_of self) as [service |];
    [| discriminate].
  destruct (FlutterCNNService.service_analyze_audio service audio_file_path)
    as [r | e0] eqn:Hrun; [discriminate |].
  destruct (is_Exception e0) eqn:Hcls; [discriminate |].
  intros H; injection H as <-. eauto.
Qed.

(** The user interrupts the inference. *)
Lemma flutter_analyze_audio_only_interrupts_escape_witness :
  is_Exception Cases.interrupt = false /\
  path_exists (Scenario.studio (Ok (Scenario.clip_of 7000))
                               Scenario.sure_of_blocks) "a.wav" = true /\
  exists service,
    Some Cases.interrupted_service = Some service /\
    FlutterCNNService.service_analyze_audio service "a.wav"
    = Raise Cases.interrupt.
Proof.
  apply (flutter_analyze_audio_only_interrupts_escape
           Z unit
           (Scenario.studio (Ok (Scenario.clip_of 7000))
                            Scenario.sure_of_blocks)
           {| FlutterCNNService.temp_dir := None;
              FlutterCNNService.use_pytorch := true;
              FlutterCNNService.pytorch_service_of :=
                Some Cases.interrupted_service |}
           "a.wav" Cases.interrupt).
  vm_compute. reflexivity.
Defined.

(** Every report [analyze_audio] builds itself has no events, a
    segment count of 0, [hasEvents] false, the same message in the
    summary and in the processing information, and the input file it
    was called with. The message is ["Audio file not found: <path>"]
    exactly when the file does not exist, and only that report names a
    model path. *)
Theorem flutter_analyze_audio_failure_reports
    (R Event : Type) (E : env) (self : FlutterCNNService.t R)
    (audio_file_path : string) (f : FlutterCNNService.failure_report Event) :
  FlutterCNNService.analyze_audio Event E self audio_file_path
  = Ok (FlutterCNNService.Report f) ->
  FlutterCNNService.events f = [] /\
  FlutterCNNService.segmentCount f = 0 /\
  FlutterCNNService.hasEvents f = false /\
  FlutterCNNService.info_error f = FlutterCNNService.summary_error f /\
  FlutterCNNService.info_input_file f = audio_file_path /\
  (path_exists E audio_file_path = false <->
   FlutterCNNService.summary_error f
   = ("Audio file not found: " ++ audio_file_path)%string) /\
  (path_exists E audio_file_path = true ->
   FlutterCNNService.info_model_path f = None).
Proof.
  unfold FlutterCNNService.analyze_audio, FlutterCNNService.failure.
  destruct (path_exists E audio_file_path); cbn [negb].
  - assert (Hother : forall message,
               (message = FlutterCNNService.not_available_message \/
                exists m, message = ("PyTorch CNN analysis failed: " ++ m)%string) ->
               Ok (FlutterCNNService.Report
                     {| FlutterCNNService.events := [];
                        FlutterCNNService.segmentCount := 0;
                        FlutterCNNService.hasEvents := false;
                        FlutterCNNService.summary_error := message;
                        FlutterCNNService.info_error := message;
                        FlutterCNNService.info_model_path := None;
                        FlutterCNNService.info_input_file := audio_file_path |})
               = Ok (@FlutterCNNService.Report R Event f) ->
               FlutterCNNService.events f = [] /\
               FlutterCNNService.segmentCount f = 0 /\
               FlutterCNNService.hasEvents f = false /\
               FlutterCNNService.info_error f
               = FlutterCNNService.summary_error f /\
               FlutterCNNService.info_input_file f = audio_file_path /\
               (true = false <->
                FlutterCNNService.summary_error f
                = ("Audio file not found: " ++ audio_file_path)%string) /\
               (true = true -> FlutterCNNService.info_model_path f = None)).
    { intros message Hm H. injection H as <-. cbn.
      repeat (split; [reflexivity |]).
      split; [| reflexivity].
      split; [discriminate |].
      destruct Hm as [-> | [m ->]]; cbn; discriminate. }
    destruct (FlutterCNNService.use_pytorch self);
      [| apply Hother; left; reflexivity].
    destruct (FlutterCNNService.pytorch_service_of self) as [service |];
      [| apply Hother; left; reflexivity].
    destruct (FlutterCNNService.service_analyze_audio service audio_file_path)
      as [r | e]; [discriminate |].
    destruct (is_Exception e); [| discriminate].
    apply Hother. right. eauto.
  - intros H. injection H as <-. cbn.
    repeat (split; [reflexivity |]).
    split; [split; reflexivity | discriminate].
Qed.

(** The file to analyse is missing. *)
Lemma flutter_analyze_audio_failure_reports_witness :
  exists f : FlutterCNNService.failure_report unit,
    FlutterCNNService.summary_error f = "Audio file not found: a.wav"%string /\
    FlutterCNNService.events f = [] /\
    FlutterCNNService.info_model_path f
    = Some (FlutterCNNService.model_path Cases.counting_service).
Proof.
  destruct (flutter_analyze_audio_failure_reports
              Z unit Cases.empty_disk
              {| FlutterCNNService.temp_dir := None;
                 FlutterCNNService.use_pytorch := true;
                 FlutterCNNService.pytorch_service_of :=
                   Some Cases.counting_service |}
              "a.wav" _ eq_refl) as (Hev & _).
  eexists. split; [| split].
  2: exact Hev.
  all: reflexivity.
Defined.

(** After a successful constructor, [analyze_audio] on an existing file
    is the analysis of the PyTorch service: its result, or the report
    ["PyTorch CNN analysis failed: ..."] when it raised an [Exception];
    the report that the model is not available is never produced. *)
Theorem flutter_constructed_service_analyzes
    (R Event : Type) (E : env) (PYTORCH_AVAILABLE : bool)
    (new_service : string -> result (FlutterCNNService.pytorch_service R))
    (here : string) (self : FlutterCNNService.t R)
    (audio_file_path : string) :
  FlutterCNNService.init E PYTORCH_AVAILABLE new_service here = Ok self ->
  path_exists E audio_file_path = true ->
  exists service,
    FlutterCNNService.pytorch_service_of self = Some service /\
    match FlutterCNNService.service_analyze_audio service audio_file_path with
    | Ok results =>
        FlutterCNNService.analyze_audio Event E self audio_file_path
        = Ok (FlutterCNNService.Results results)
    | Raise e =>
        if is_Exception e then
          exists f,
            FlutterCNNService.analyze_audio Event E self audio_file_path
            = Ok (FlutterCNNService.Report f) /\
            FlutterCNNService.summary_error f
            = ("PyTorch CNN analysis failed: " ++ exn_msg e)%string /\
            FlutterCNNService.summary_error f
            <> FlutterCNNService.not_available_message
        else
          FlutterCNNService.analyze_audio Event E self audio_file_path
          = Raise e
    end.
Proof.
  intros Hinit Hex.
  destruct (flutter_init_state _ _ _ _ _ _ Hinit) as (Hu & service & Hs).
  exists service. split; [exact Hs |].
  unfold FlutterCNNService.analyze_audio. rewrite Hex, Hu, Hs. cbn [negb].
  destruct (FlutterCNNService.service_analyze_audio service audio_file_path)
    as [r | e]; [reflexivity |].
  destruct (is_Exception e); [| reflexivity].
  eexists. split; [reflexivity |]. cbn.
  split; [reflexivity | discriminate].
Qed.

(** The inference fails on an existing file. *)
Lemma flutter_constructed_service_analyzes_witness :
  let E := Cases.with_exists Cases.empty_disk (fun _ => true) in
  exists self f,
    FlutterCNNService.init E true (fun _ => Ok Cases.failing_service) "/app"
    = Ok self /\
    FlutterCNNService.analyze_audio unit E self "a.wav"
    = Ok (FlutterCNNService.Report f) /\
    FlutterCNNService.summary_error f
    = "PyTorch CNN analysis failed: CUDA out of memory"%string.
Proof.
  intros E. eexists.
  destruct (flutter_constructed_service_analyzes
              Z unit E true (fun _ => Ok Cases.failing_service) "/app"
              _ "a.wav" eq_refl eq_refl)
    as (service & Hs & Hrun).
  injection Hs as <-.
  destruct Hrun as (f & Hf & Hmsg & _).
  exists f. split; [reflexivity |]. split; [exact Hf | exact Hmsg].
Defined.
